(** * AyurCare backend: the slot reservation workflows

    A shallow embedding of the booking handlers ([confirmBooking],
    [updateAppointmentStatus], [rescheduleAppointment], [cancelAppointment],
    [confirmReschedule] of the appointment controller, [lockTimeSlot] of the
    doctor controller), of the lock clean-up job of the application entry
    point and of the helpers of [utils/time.js] they call, followed by the
    properties of the reservation state machine.

    Conventions of the embedding:
    - a JavaScript [Date] is its [getTime()] value, a [Z] of milliseconds
      since the epoch; every comparison in the source is between two dates,
      which JavaScript compares by that value;
    - a nullable column is an [option];
    - row identifiers are opaque keys: [nat] here;
    - the relational store is a record of three tables. Slots and users are
      finite maps from their id; appointments, which are created with a fresh
      id and never deleted, are a list whose positions are the ids;
    - reads issued by a handler before its transaction (or its write) see a
      store [snap]; the transaction (or write) runs against a store [db].
      A request that is served without any other request in between has
      [snap = db]. *)

From Stdlib Require Import ZArith String Ascii Bool.
From stdpp Require Import gmap strings list fin_maps.

Local Open Scope Z_scope.

(** ** [src/utils/time.js] and the [Date] accessors *)

Module Time.

Definition MS_PER_MINUTE : Z := 60 * 1000.
Definition MS_PER_HOUR : Z := 60 * 60 * 1000.
Definition MS_PER_DAY : Z := 24 * 60 * 60 * 1000.

(** [new Date(Date.UTC(d.getUTCFullYear(), d.getUTCMonth(), d.getUTCDate()))]:
    the start of the UTC day of [d]. *)
Definition utcMidnight (d : Z) : Z := (d `div` MS_PER_DAY) * MS_PER_DAY.

Definition getUTCHours (d : Z) : Z := (d `mod` MS_PER_DAY) `div` MS_PER_HOUR.

Definition getUTCMinutes (d : Z) : Z := (d `mod` MS_PER_HOUR) `div` MS_PER_MINUTE.

Definition digit (n : Z) : ascii := ascii_of_N (48 + Z.to_N (n `mod` 10)).

(** [String(n).padStart(2, '0')] for the values it is applied to, an hour or a
    minute count ([0 <= n < 100]). *)
Definition padStart2 (n : Z) : string :=
  String (digit (n `div` 10)) (String (digit n) EmptyString).

(** The [`${hh}:${mm}`] of the handlers: the wall-clock time of [d], UTC. *)
Definition currentHM (d : Z) : string :=
  (padStart2 (getUTCHours d) ++ ":" ++ padStart2 (getUTCMinutes d))%string.

(** [s.split(':')]. *)
Fixpoint split_colon (s : string) : list string :=
  match s with
  | EmptyString => [EmptyString]
  | String c r =>
      if Ascii.eqb c ":" then EmptyString :: split_colon r
      else match split_colon r with
           | [] => [String c EmptyString]
           | w :: ws => String c w :: ws
           end
  end.

Definition digit_value (c : ascii) : option Z :=
  let n := Z.of_N (N_of_ascii c) in
  if (48 <=? n) && (n <=? 57) then Some (n - 48) else None.

Fixpoint digits_value (s : string) (acc : Z) : option Z :=
  match s with
  | EmptyString => Some acc
  | String c r =>
      match digit_value c with
      | Some v => digits_value r (10 * acc + v)
      | None => None
      end
  end.

(** [Number(s)] on the strings it meets here, the two halves of a stored
    [HH:MM]: a run of decimal digits is its value, the empty string is [0],
    and [None] stands for [NaN]. (JavaScript also reads signs, blanks,
    fractions and exponents; [toTimeString] writes none of them.) *)
Definition Number (s : string) : option Z := digits_value s 0.

(** [x || 0] for a number: [NaN] and [undefined] give [0]. *)
Definition or_zero (x : option Z) : Z := default 0 x.

(** [getUtcDateTime(date, time)]: [Date.UTC] is linear in its hour and minute
    arguments, so the result is the UTC midnight of [date] plus the offset.
    (This is the closed form for a date outside the years 0 to 99, which
    [Date.UTC] reads as 1900 to 1999; [DateUTC.getUtcDateTime] below goes
    through the getters and [Date.UTC] as the code does.) *)
Definition getUtcDateTime (date : Z) (time : string) : Z :=
  let parts :=
    split_colon (if String.eqb time EmptyString then "00:00"%string else time) in
  let hh := parts !! 0%nat ≫= Number in
  let mm := parts !! 1%nat ≫= Number in
  utcMidnight date + or_zero hh * MS_PER_HOUR + or_zero mm * MS_PER_MINUTE.

(** [parseToMinutes] and [toTimeString], which write the stored [HH:MM]. *)
Definition parseToMinutes (t : string) : option Z :=
  let parts := split_colon t in
  h ← parts !! 0%nat ≫= Number;
  m ← parts !! 1%nat ≫= Number;
  Some (h * 60 + m).

Definition toTimeString (mins : Z) : string :=
  (padStart2 (mins `div` 60) ++ ":" ++ padStart2 (mins `mod` 60))%string.

End Time.

(** ** The persisted layout *)

Module SLOT_STATUS.
Inductive t := AVAILABLE | LOCKED | BOOKED.
#[global] Instance eq_dec : EqDecision t.
Proof. solve_decision. Defined.
End SLOT_STATUS.

Module APPOINTMENT_STATUS.
Inductive t := BOOKED | COMPLETED | CANCELLED | RESCHEDULED.
#[global] Instance eq_dec : EqDecision t.
Proof. solve_decision. Defined.
End APPOINTMENT_STATUS.

Module TimeSlot.
Record t := mk {
  doctorId : nat;
  date : Z;
  startTime : string;
  endTime : string;
  status : SLOT_STATUS.t;
  lockedBy : option nat;
  lockedAt : option Z;
  lockExpires : option Z
}.
End TimeSlot.

Module Appointment.
Record t := mk {
  userId : nat;
  doctorId : nat;
  timeSlotId : option nat;
  status : APPOINTMENT_STATUS.t;
  notes : option string
}.
#[global] Instance eq_dec : EqDecision t.
Proof. solve_decision. Defined.
End Appointment.

(** The booking-relevant projection of a user row. *)
Module User.
Record t := mk { otpVerifiedUntil : option Z }.
End User.

Record DB := mkDB {
  timeSlots : gmap nat TimeSlot.t;
  appointments : list Appointment.t;
  users : gmap nat User.t
}.

(** ** What a handler can throw, log and answer *)

(** [throw { code, message }] of the transactions; a rejected Prisma call is
    thrown with Prisma's own [code] (and a message of Prisma's); a rejected
    Redis call carries no [code]. *)
Inductive Exn :=
| Thrown (code : string) (message : option string)
| RedisError.

(** [P2025]: [update] found no row for its [where]. *)
Definition RecordNotFound : Exn :=
  Thrown "P2025" (Some "Record to update not found.")%string.

(** [console.error(tag, err)] and [console.warn(tag, err.message)]. *)
Inductive LogLine :=
| ConsoleError (tag : string) (err : Exn)
| ConsoleWarn (tag : string) (err : Exn).

(** The [data] member of a success body. *)
Inductive Data :=
| AppointmentData (id : nat) (a : Appointment.t)
| StatusData (id : nat) (status : APPOINTMENT_STATUS.t)
| CancelData (id : nat) (status : APPOINTMENT_STATUS.t) (timeSlotId : option nat)
    (slotReleased : bool)
| LockData (slotId doctorId lockedBy : nat) (lockedAt expiresAt : Z)
| RescheduleLockData (timeSlotId doctorId lockedBy : nat) (lockedAt lockExpires : Z)
    (oldSlotId : nat).

(** [res.status(http).json({ success, message | error, code, data })]. *)
Record Response := mkResponse {
  http : nat;
  success : bool;
  text : option string;
  code : option string;
  data : option Data
}.

Definition ok (http : nat) (message : string) (d : Data) : Response :=
  mkResponse http true (Some message) None (Some d).

Definition fail (http : nat) (error : string) (code : option string) : Response :=
  mkResponse http false (Some error) code None.

Definition internalError : Response := fail 500 "Internal server error" None.

Record Outcome := mkOutcome {
  response : Response;
  store : DB;
  log : list LogLine
}.

(** ** The cache *)

(** Cache keys, by the template that builds them. *)
Inductive CacheKey :=
| UserAppointmentsKeys (userId : nat)          (* user:${userId}:appointments:keys *)
| AppointmentKey (userId appointmentId : nat)  (* appointment:${userId}:${id} *)
| DoctorKey (doctorId : nat)                   (* doctor:${doctorId} *)
| StoredKey (name : string).                   (* a key read back from the cache *)

(** The cache is not authoritative and no handler below reads an entry back,
    so a Redis server is what its commands answer: a command completes or
    rejects. [scanPages] lists the pages a full [SCAN] iteration returns
    ([None]: that call rejects). *)
Record Redis := mkRedis {
  smembers : CacheKey -> option (list CacheKey);
  del : list CacheKey -> bool;
  unlink : list CacheKey -> bool;
  scanPages : string -> list (option (list CacheKey))
}.

(** ** The Prisma client *)

Module Prisma.

(** An interactive transaction: the callback runs against the store and either
    throws or returns with the store it has written. *)
Definition Tx (A : Type) : Type := DB -> Exn + (A * DB).

(** [prisma.$transaction(callback)]: commits what the callback wrote when it
    returns, and rolls back to the store it started from when it throws. *)
Definition transaction {A} (callback : Tx A) (db : DB) : (Exn + A) * DB :=
  match callback db with
  | inl e => (inl e, db)
  | inr (a, db') => (inr a, db')
  end.

(** [timeSlot.updateMany({ where: { id, ...cond }, data })]: [id] is the
    primary key, so at most the row [id] is written; answers the count. *)
Definition timeSlot_updateMany (id : nat) (cond : TimeSlot.t -> bool)
    (data : TimeSlot.t -> TimeSlot.t) (slots : gmap nat TimeSlot.t)
  : nat * gmap nat TimeSlot.t :=
  match slots !! id with
  | Some s => if cond s then (1%nat, <[id := data s]> slots) else (0%nat, slots)
  | None => (0%nat, slots)
  end.

(** [timeSlot.update({ where: { id }, data })]: rejects when no row has [id]. *)
Definition timeSlot_update (id : nat) (data : TimeSlot.t -> TimeSlot.t)
    (slots : gmap nat TimeSlot.t) : option (gmap nat TimeSlot.t) :=
  match slots !! id with
  | Some s => Some (<[id := data s]> slots)
  | None => None
  end.

(** [timeSlot.updateMany({ where, data })] without a key: every matching row. *)
Definition timeSlot_updateAll (cond : TimeSlot.t -> bool)
    (data : TimeSlot.t -> TimeSlot.t) (slots : gmap nat TimeSlot.t)
  : gmap nat TimeSlot.t :=
  (fun s => if cond s then data s else s) <$> slots.

(** [timeSlot.count({ where })]. *)
Definition timeSlot_count (cond : TimeSlot.t -> bool) (slots : gmap nat TimeSlot.t) : nat :=
  length (filter (fun kv => cond kv.2 = true) (map_to_list slots)).

(** [timeSlot.findFirst({ where: { id, doctorId } })]. *)
Definition timeSlot_findFirst (id doctorId : nat) (slots : gmap nat TimeSlot.t)
  : option TimeSlot.t :=
  match slots !! id with
  | Some s => if decide (TimeSlot.doctorId s = doctorId) then Some s else None
  | None => None
  end.

(** [appointment.findFirst({ where: { id, userId } })]. *)
Definition appointment_findFirst (id userId : nat) (appts : list Appointment.t)
  : option Appointment.t :=
  match appts !! id with
  | Some a => if decide (Appointment.userId a = userId) then Some a else None
  | None => None
  end.

(** [appointment.update({ where: { id }, data })]. *)
Definition appointment_update (id : nat) (data : Appointment.t -> Appointment.t)
    (appts : list Appointment.t) : option (list Appointment.t) :=
  match appts !! id with
  | Some a => Some (<[id := data a]> appts)
  | None => None
  end.

(** [appointment.create({ data })]: the new row and its id. *)
Definition appointment_create (a : Appointment.t) (appts : list Appointment.t)
  : nat * list Appointment.t :=
  (length appts, appts ++ [a]).

(** [appointment.updateMany({ where, data })], [where] over the id and the row. *)
Definition appointment_updateMany (cond : nat -> Appointment.t -> bool)
    (data : Appointment.t -> Appointment.t) (appts : list Appointment.t)
  : list Appointment.t :=
  imap (fun i a => if cond i a then data a else a) appts.

(** [user.update({ where: { id }, data })]. *)
Definition user_update (id : nat) (data : User.t -> User.t) (us : gmap nat User.t)
  : option (gmap nat User.t) :=
  match us !! id with
  | Some u => Some (<[id := data u]> us)
  | None => None
  end.

End Prisma.

(** ** Shared pieces of the controllers *)

Import Time.

Definition reply (db : DB) (r : Response) : Outcome := mkOutcome r db [].

(** The [data] blocks of the slot writes. *)
Definition lockFor (userId : nat) (nowUtc : Z) (s : TimeSlot.t) : TimeSlot.t :=
  TimeSlot.mk (TimeSlot.doctorId s) (TimeSlot.date s) (TimeSlot.startTime s)
    (TimeSlot.endTime s) SLOT_STATUS.LOCKED (Some userId) (Some nowUtc)
    (Some (nowUtc + 5 * 60 * 1000)).

Definition markBooked (s : TimeSlot.t) : TimeSlot.t :=
  TimeSlot.mk (TimeSlot.doctorId s) (TimeSlot.date s) (TimeSlot.startTime s)
    (TimeSlot.endTime s) SLOT_STATUS.BOOKED None None None.

(** [{ status: 'AVAILABLE', lockedAt: null, lockedBy: null }] of
    [cancelAppointment]: [lockExpires] is not written. *)
Definition releaseOnCancel (s : TimeSlot.t) : TimeSlot.t :=
  TimeSlot.mk (TimeSlot.doctorId s) (TimeSlot.date s) (TimeSlot.startTime s)
    (TimeSlot.endTime s) SLOT_STATUS.AVAILABLE None None (TimeSlot.lockExpires s).

(** [{ status: 'AVAILABLE', lockedBy: null, lockExpires: null }] of
    [confirmReschedule]: [lockedAt] is not written. *)
Definition releaseOnReschedule (s : TimeSlot.t) : TimeSlot.t :=
  TimeSlot.mk (TimeSlot.doctorId s) (TimeSlot.date s) (TimeSlot.startTime s)
    (TimeSlot.endTime s) SLOT_STATUS.AVAILABLE None (TimeSlot.lockedAt s) None.

(** The [data] of the clean-up job: all three lease fields are cleared. *)
Definition releaseExpired (s : TimeSlot.t) : TimeSlot.t :=
  TimeSlot.mk (TimeSlot.doctorId s) (TimeSlot.date s) (TimeSlot.startTime s)
    (TimeSlot.endTime s) SLOT_STATUS.AVAILABLE None None None.

Definition setStatus (st : APPOINTMENT_STATUS.t) (a : Appointment.t) : Appointment.t :=
  Appointment.mk (Appointment.userId a) (Appointment.doctorId a)
    (Appointment.timeSlotId a) st (Appointment.notes a).

Definition detach (a : Appointment.t) : Appointment.t :=
  Appointment.mk (Appointment.userId a) (Appointment.doctorId a) None
    (Appointment.status a) (Appointment.notes a).

Definition clearOtp (u : User.t) : User.t := User.mk None.

(** [status: 'LOCKED', lockedBy: userId, lockExpires: { gt: nowUtc }]. *)
Definition heldBy (userId : nat) (nowUtc : Z) (s : TimeSlot.t) : bool :=
  bool_decide (TimeSlot.status s = SLOT_STATUS.LOCKED)
  && bool_decide (TimeSlot.lockedBy s = Some userId)
  && match TimeSlot.lockExpires s with
     | Some e => nowUtc <? e
     | None => false
     end.

(** [lockExpires: { lt: nowUtc }]: a [NULL] column matches no comparison. *)
Definition expiredAt (nowUtc : Z) (s : TimeSlot.t) : bool :=
  match TimeSlot.lockExpires s with
  | Some e => e <? nowUtc
  | None => false
  end.

(** [where: { timeSlotId, status: 'BOOKED' }] over the appointments. *)
Definition bookedOn (timeSlotId : nat) (a : Appointment.t) : bool :=
  bool_decide (Appointment.timeSlotId a = Some timeSlotId)
  && bool_decide (Appointment.status a = APPOINTMENT_STATUS.BOOKED).

(** [!user?.otpVerifiedUntil || user.otpVerifiedUntil <= nowUtc]. *)
Definition otpRequired (us : gmap nat User.t) (userId : nat) (nowUtc : Z) : bool :=
  match us !! userId ≫= User.otpVerifiedUntil with
  | Some otpVerifiedUntil => otpVerifiedUntil <=? nowUtc
  | None => true
  end.

(** [notes || null]. *)
Definition notesOrNull (notes : option string) : option string :=
  match notes with
  | Some n => if String.eqb n EmptyString then None else Some n
  | None => None
  end.

(** The invalidation block of [confirmBooking]; [false] when a call rejects. *)
Definition purgeAfterBooking (redis : Redis) (userId appointmentId : nat) : bool :=
  let cacheSetKey := UserAppointmentsKeys userId in
  match smembers redis cacheSetKey with
  | None => false
  | Some cachedKeys =>
      if (0 <? length cachedKeys)%nat then
        forallb (fun k => del redis [k])
          (cachedKeys ++ [cacheSetKey; AppointmentKey userId appointmentId])
      else true
  end.

(** The invalidation block of [cancelAppointment]. *)
Definition purgeAfterCancel (redis : Redis) (userId id : nat) : bool :=
  let cacheSetKey := UserAppointmentsKeys userId in
  match smembers redis cacheSetKey with
  | None => false
  | Some cachedKeys =>
      if (0 <? length cachedKeys)%nat then
        forallb (fun k => del redis [k])
          (cachedKeys ++ [cacheSetKey; AppointmentKey userId id])
      else
        forallb (fun k => del redis [k]) [cacheSetKey; AppointmentKey userId id]
  end.

(** The invalidation statements of [updateAppointmentStatus]. *)
Definition purgeAfterStatusUpdate (redis : Redis) (userId : nat) : bool :=
  let cacheSetKey := UserAppointmentsKeys userId in
  match smembers redis cacheSetKey with
  | None => false
  | Some cachedKeys =>
      (if (0 <? length cachedKeys)%nat
       then forallb (fun k => del redis [k]) cachedKeys else true)
      && del redis [cacheSetKey]
  end.

(** The invalidation statements of [confirmReschedule]. *)
Definition purgeAfterReschedule (redis : Redis) (userId appointmentId newId : nat) : bool :=
  let cacheSetKey := UserAppointmentsKeys userId in
  match smembers redis cacheSetKey with
  | None => false
  | Some cachedKeys =>
      (if (0 <? length cachedKeys)%nat then del redis cachedKeys else true)
      && del redis [cacheSetKey]
      && del redis [AppointmentKey userId appointmentId; AppointmentKey userId newId]
  end.

(** The [SCAN] loop of [lockTimeSlot], one iteration per page. *)
Fixpoint unlinkPages (redis : Redis) (pages : list (option (list CacheKey))) : bool :=
  match pages with
  | [] => true
  | None :: _ => false
  | Some keys :: rest =>
      (if (0 <? length keys)%nat then unlink redis keys else true)
      && unlinkPages redis rest
  end.

Definition purgeAfterLock (redis : Redis) (doctorId : nat) : bool :=
  unlinkPages redis (scanPages redis "doctors:list:*")
  && unlink redis [DoctorKey doctorId].

(** ** [appointmentController.js] and [doctorController.js] *)

Section Controllers.

(** The Joi schemas of [src/utils/validation.js], by the verdict they give on
    a body: [None], or the message of the first error. *)
Variable validateAppointment : nat -> nat -> option string -> option string.
Variable validateAppointmentStatusUpdate : APPOINTMENT_STATUS.t -> option string.
Variable validateAppointmentReschedule : nat -> option string.
Variable validateRescheduleConfirm : nat -> nat -> nat -> nat -> option string.

(** *** confirmBooking *)

Definition confirmBooking_tx (slot : TimeSlot.t) (doctorId timeSlotId userId : nat)
    (notes : option string) (nowUtc : Z) : Prisma.Tx (nat * Appointment.t) :=
  fun db =>
    let todayUtc := utcMidnight nowUtc in
    if TimeSlot.date slot <? todayUtc then
      inl (Thrown "SLOT_IN_PAST" (Some "Cannot book a past date slot"))
    else if (TimeSlot.date slot =? todayUtc)
            && String.leb (TimeSlot.startTime slot) (currentHM nowUtc) then
      inl (Thrown "SLOT_ALREADY_STARTED" (Some "Cannot book a slot that already started"))
    else
      let '(count, slots) :=
        Prisma.timeSlot_updateMany timeSlotId
          (fun s => bool_decide (TimeSlot.doctorId s = doctorId) && heldBy userId nowUtc s)
          markBooked (timeSlots db) in
      if negb (count =? 1)%nat then
        inl (Thrown "CONFLICT_SLOT_STATE" (Some "Slot state changed, try again"))
      else if existsb (bookedOn timeSlotId) (appointments db) then
        inl (Thrown "SLOT_ALREADY_BOOKED" (Some "This slot already has an active booking"))
      else
        let newAppointment :=
          Appointment.mk userId doctorId (Some timeSlotId) APPOINTMENT_STATUS.BOOKED
            (notesOrNull notes) in
        let '(id, appts) := Prisma.appointment_create newAppointment (appointments db) in
        match Prisma.user_update userId clearOtp (users db) with
        | None => inl RecordNotFound
        | Some us => inr ((id, newAppointment), mkDB slots appts us)
        end.

Definition confirmBooking_statusMap (code : string) : option nat :=
  if String.eqb code "SLOT_NOT_FOUND" then Some 404%nat
  else if String.eqb code "SLOT_ALREADY_BOOKED" then Some 409%nat
  else if String.eqb code "OTP_REQUIRED" then Some 403%nat
  else if String.eqb code "LOCK_INVALID" then Some 409%nat
  else if String.eqb code "SLOT_IN_PAST" then Some 409%nat
  else if String.eqb code "SLOT_ALREADY_STARTED" then Some 409%nat
  else if String.eqb code "CONFLICT_SLOT_STATE" then Some 409%nat
  else None.

Definition confirmBooking_catch (err : Exn) (db : DB) : Outcome :=
  mkOutcome
    match err with
    | Thrown c message =>
        mkResponse (default 400%nat (confirmBooking_statusMap c)) false message None None
    | RedisError => internalError
    end
    db [ConsoleError "confirmBooking error:" err].

Definition confirmBooking (doctorId timeSlotId : nat) (notes : option string)
    (userId : nat) (nowUtc : Z) (redis : Redis) (snap db : DB) : Outcome :=
  match validateAppointment doctorId timeSlotId notes with
  | Some message => reply db (fail 400 message None)
  | None =>
  match timeSlots snap !! timeSlotId with
  | None => reply db (fail 404 "Time slot not found for this doctor" (Some "SLOT_NOT_FOUND"))
  | Some slot =>
  if negb (bool_decide (TimeSlot.doctorId slot = doctorId)) then
    reply db (fail 404 "Time slot not found for this doctor" (Some "SLOT_NOT_FOUND"))
  else if bool_decide (TimeSlot.status slot = SLOT_STATUS.BOOKED) then
    reply db (fail 409 "Time slot already booked" (Some "SLOT_ALREADY_BOOKED"))
  else if otpRequired (users snap) userId nowUtc then
    reply db (fail 403 "OTP verification required" (Some "OTP_REQUIRED"))
  else if negb (heldBy userId nowUtc slot) then
    reply db (fail 409 "Slot is not locked by you or lock has expired" (Some "LOCK_INVALID"))
  else
    match Prisma.transaction
            (confirmBooking_tx slot doctorId timeSlotId userId notes nowUtc) db with
    | (inl err, db') => confirmBooking_catch err db'
    | (inr (id, appointment), db') =>
        mkOutcome
          (ok 201 "Appointment booked successfully" (AppointmentData id appointment))
          db'
          (if purgeAfterBooking redis userId id then []
           else [ConsoleError "Redis cache invalidation error:" RedisError])
    end
  end
  end.

(** *** updateAppointmentStatus

    [status] is the [status] of the body; a body whose [status] is no status
    name is refused by the schema and has no counterpart here. *)

Definition updateAppointmentStatus (id : nat) (status : APPOINTMENT_STATUS.t)
    (userId : nat) (redis : Redis) (snap db : DB) : Outcome :=
  match validateAppointmentStatusUpdate status with
  | Some message => reply db (fail 400 message None)
  | None =>
  match Prisma.appointment_findFirst id userId (appointments snap) with
  | None => reply db (fail 404 "Appointment not found" None)
  | Some appt =>
  if negb (bool_decide (status ∈ [APPOINTMENT_STATUS.BOOKED; APPOINTMENT_STATUS.COMPLETED;
                                  APPOINTMENT_STATUS.CANCELLED])) then
    reply db (fail 400 "Invalid status" None)
  else if bool_decide (Appointment.status appt = status) then
    reply db (ok 200 "Status unchanged" (StatusData id (Appointment.status appt)))
  else
    match Prisma.appointment_update id (setStatus status) (appointments db) with
    | None =>
        mkOutcome internalError db
          [ConsoleError "updateAppointmentStatus error:" RecordNotFound]
    | Some appts =>
        let db' := mkDB (timeSlots db) appts (users db) in
        if purgeAfterStatusUpdate redis userId then
          reply db' (ok 200 "Status updated successfully" (StatusData id status))
        else
          mkOutcome internalError db'
            [ConsoleError "updateAppointmentStatus error:" RedisError]
    end
  end
  end.

(** *** rescheduleAppointment *)

(** The [OR] of the lock write of [rescheduleAppointment]. *)
Definition rescheduleLockable (userId : nat) (nowUtc : Z) (s : TimeSlot.t) : bool :=
  bool_decide (TimeSlot.status s = SLOT_STATUS.AVAILABLE)
  || (bool_decide (TimeSlot.status s = SLOT_STATUS.LOCKED) && expiredAt nowUtc s)
  || bool_decide (TimeSlot.lockedBy s = Some userId).

Definition rescheduleAppointment (id newTimeSlotId userId : nat) (nowUtc : Z)
    (snap db : DB) : Outcome :=
  match validateAppointmentReschedule newTimeSlotId with
  | Some message => reply db (fail 400 message None)
  | None =>
  match Prisma.appointment_findFirst id userId (appointments snap) with
  | None => reply db (fail 404 "Appointment not found" None)
  | Some appt =>
  if negb (bool_decide (Appointment.status appt = APPOINTMENT_STATUS.BOOKED)) then
    reply db (fail 409 "Only booked appointments can be rescheduled" None)
  else
  match Appointment.timeSlotId appt ≫= fun i => (fun s => (i, s)) <$> timeSlots snap !! i with
  | None => reply db (fail 409 "Appointment has no active slot to reschedule" None)
  | Some (timeSlotId, timeSlot) =>
  if bool_decide (timeSlotId = newTimeSlotId) then
    reply db (fail 400 "New time slot must be different from current slot" None)
  else if getUtcDateTime (TimeSlot.date timeSlot) (TimeSlot.startTime timeSlot) - nowUtc
          <=? 24 * 60 * 60 * 1000 then
    reply db (fail 400 "Rescheduling not allowed within 24 hours" None)
  else
  match Prisma.timeSlot_findFirst newTimeSlotId (Appointment.doctorId appt) (timeSlots snap) with
  | None => reply db (fail 404 "New time slot not found" None)
  | Some newSlot =>
  if getUtcDateTime (TimeSlot.date newSlot) (TimeSlot.startTime newSlot) <=? nowUtc then
    reply db (fail 400 "Cannot reschedule to a past or ongoing slot" None)
  else
    let '(count, slots) :=
      Prisma.timeSlot_updateMany newTimeSlotId
        (fun s => bool_decide (TimeSlot.doctorId s = Appointment.doctorId appt)
                  && rescheduleLockable userId nowUtc s)
        (lockFor userId nowUtc) (timeSlots db) in
    if negb (count =? 1)%nat then
      reply db (fail 409 "New slot is locked or booked" None)
    else
      reply (mkDB slots (appointments db) (users db))
        (ok 200 "New time slot locked for reschedule"
           (RescheduleLockData newTimeSlotId (Appointment.doctorId appt) userId nowUtc
              (nowUtc + 5 * 60 * 1000) timeSlotId))
  end
  end
  end
  end.

(** *** cancelAppointment *)

Definition cancelAppointment_tx (id : nat) (appt : Appointment.t)
    (timeSlot : option TimeSlot.t) (isMoreThan24h : bool)
  : Prisma.Tx (APPOINTMENT_STATUS.t * option nat) :=
  fun db =>
    let released :=
      match timeSlot, Appointment.timeSlotId appt with
      | Some s, Some timeSlotId =>
          if isMoreThan24h && bool_decide (TimeSlot.status s = SLOT_STATUS.BOOKED) then
            Prisma.timeSlot_update timeSlotId releaseOnCancel (timeSlots db)
          else Some (timeSlots db)
      | _, _ => Some (timeSlots db)
      end in
    match released with
    | None => inl RecordNotFound
    | Some slots =>
        match Prisma.appointment_update id (setStatus APPOINTMENT_STATUS.CANCELLED)
                (appointments db) with
        | None => inl RecordNotFound
        | Some appts =>
            inr ((APPOINTMENT_STATUS.CANCELLED,
                  default None (Appointment.timeSlotId <$> appts !! id)),
                 mkDB slots appts (users db))
        end
    end.

Definition cancelAppointment (id userId : nat) (nowUtc : Z) (redis : Redis)
    (snap db : DB) : Outcome :=
  match Prisma.appointment_findFirst id userId (appointments snap) with
  | None => reply db (fail 404 "Appointment not found" None)
  | Some appt =>
  if negb (bool_decide (Appointment.status appt = APPOINTMENT_STATUS.BOOKED)) then
    reply db (fail 409 "Only booked appointments can be cancelled" None)
  else
    let timeSlot := Appointment.timeSlotId appt ≫= fun i => timeSlots snap !! i in
    let isMoreThan24h :=
      match timeSlot with
      | Some s =>
          24 * 60 * 60 * 1000
          <? getUtcDateTime (TimeSlot.date s) (TimeSlot.startTime s) - nowUtc
      | None => true
      end in
    match Prisma.transaction (cancelAppointment_tx id appt timeSlot isMoreThan24h) db with
    | (inl err, db') =>
        mkOutcome internalError db' [ConsoleError "cancelAppointment error:" err]
    | (inr (status, timeSlotId), db') =>
        mkOutcome
          (ok 200 "Appointment cancelled" (CancelData id status timeSlotId isMoreThan24h))
          db'
          (if purgeAfterCancel redis userId id then []
           else [ConsoleError "Redis cache invalidation error:" RedisError])
    end
  end.

(** *** confirmReschedule *)

Definition confirmReschedule_tx (appointmentId newSlotId oldSlotId doctorId userId : nat)
    (appt : Appointment.t) (nowUtc : Z) : Prisma.Tx (nat * Appointment.t) :=
  fun db =>
    match Prisma.timeSlot_findFirst newSlotId doctorId (timeSlots db) with
    | None => inl (Thrown "NEW_SLOT_NOT_FOUND" None)
    | Some newSlot =>
    if negb (bool_decide (TimeSlot.status newSlot = SLOT_STATUS.LOCKED))
       || negb (bool_decide (TimeSlot.lockedBy newSlot = Some userId))
       || expiredAt nowUtc newSlot then
      inl (Thrown "NEW_SLOT_NOT_LOCKED_BY_USER" None)
    else if getUtcDateTime (TimeSlot.date newSlot) (TimeSlot.startTime newSlot) <=? nowUtc then
      inl (Thrown "SLOT_ALREADY_STARTED_OR_PAST" None)
    else
      let '(count, slots) :=
        Prisma.timeSlot_updateMany newSlotId (heldBy userId nowUtc) markBooked
          (timeSlots db) in
      if negb (count =? 1)%nat then inl (Thrown "CONFLICT_NEW_SLOT" None)
      else
        match Prisma.appointment_update appointmentId
                (setStatus APPOINTMENT_STATUS.RESCHEDULED) (appointments db) with
        | None => inl RecordNotFound
        | Some appts =>
            match Prisma.timeSlot_update oldSlotId releaseOnReschedule slots with
            | None => inl RecordNotFound
            | Some slots' =>
                let created :=
                  Appointment.mk (Appointment.userId appt) (Appointment.doctorId appt)
                    (Some newSlotId) APPOINTMENT_STATUS.BOOKED (Appointment.notes appt) in
                let '(id, appts') := Prisma.appointment_create created appts in
                let appts'' :=
                  Prisma.appointment_updateMany
                    (fun i a => bool_decide (Appointment.timeSlotId a = Some newSlotId)
                                && negb (i =? id)%nat)
                    detach appts' in
                inr ((id, created), mkDB slots' appts'' (users db))
            end
        end
    end.

Definition confirmReschedule_errorMap (code : string) : option (nat * string) :=
  if String.eqb code "NEW_SLOT_NOT_FOUND" then
    Some (404%nat, "New slot not found for this doctor"%string)
  else if String.eqb code "NEW_SLOT_NOT_LOCKED_BY_USER" then
    Some (409%nat, "New slot not locked by you or lock expired"%string)
  else if String.eqb code "SLOT_ALREADY_STARTED_OR_PAST" then
    Some (400%nat, "Cannot reschedule to past or started slot"%string)
  else if String.eqb code "CONFLICT_NEW_SLOT" then
    Some (409%nat, "New slot state changed; try again"%string)
  else None.

Definition confirmReschedule_catch (err : Exn) (db : DB) : Outcome :=
  mkOutcome
    match err with
    | Thrown c _ =>
        match confirmReschedule_errorMap c with
        | Some (status, message) => fail status message None
        | None => internalError
        end
    | RedisError => internalError
    end
    db [ConsoleError "confirmReschedule error:" err].

Definition confirmReschedule (appointmentId newSlotId oldSlotId doctorId userId : nat)
    (nowUtc : Z) (redis : Redis) (snap db : DB) : Outcome :=
  match validateRescheduleConfirm appointmentId newSlotId oldSlotId doctorId with
  | Some message => reply db (fail 400 message None)
  | None =>
  match Prisma.appointment_findFirst appointmentId userId (appointments snap) with
  | None => reply db (fail 404 "Appointment not found" None)
  | Some appt =>
  if negb (bool_decide (Appointment.status appt = APPOINTMENT_STATUS.BOOKED)) then
    reply db (fail 409 "Only booked appointments can be rescheduled" None)
  else if negb (bool_decide (Appointment.doctorId appt = doctorId)) then
    reply db (fail 400 "Doctor mismatch" None)
  else if negb (bool_decide (Appointment.timeSlotId appt = Some oldSlotId)) then
    reply db (fail 400 "Old slot mismatch" None)
  else if bool_decide (oldSlotId = newSlotId) then
    reply db (fail 400 "New slot must differ from old slot" None)
  else
    match Prisma.transaction
            (confirmReschedule_tx appointmentId newSlotId oldSlotId doctorId userId appt
               nowUtc) db with
    | (inl err, db') => confirmReschedule_catch err db'
    | (inr (id, newAppointment), db') =>
        if purgeAfterReschedule redis userId appointmentId id then
          reply db' (ok 200 "Reschedule confirmed" (AppointmentData id newAppointment))
        else confirmReschedule_catch RedisError db'
    end
  end
  end.

(** *** lockTimeSlot

    The route always supplies [doctorId] and [slotId], so the [400] for a
    missing path parameter has no request that reaches it. *)

(** The [OR] of the lock write of [lockTimeSlot]. *)
Definition lockable (userId : nat) (nowUtc : Z) (s : TimeSlot.t) : bool :=
  bool_decide (TimeSlot.status s = SLOT_STATUS.AVAILABLE)
  || bool_decide (TimeSlot.lockedBy s = Some userId)
  || expiredAt nowUtc s.

Definition lockTimeSlot (doctorId slotId userId : nat) (nowUtc : Z) (redis : Redis)
    (snap db : DB) : Outcome :=
  match Prisma.timeSlot_findFirst slotId doctorId (timeSlots snap) with
  | None => reply db (fail 404 "Time slot not found" None)
  | Some slot =>
  if bool_decide (TimeSlot.status slot = SLOT_STATUS.BOOKED) then
    reply db (fail 409 "Time slot already booked" None)
  else if bool_decide (TimeSlot.status slot = SLOT_STATUS.LOCKED) then
    reply db (fail 409 "Time slot already locked" None)
  else
    let isLockedByOther :=
      bool_decide (TimeSlot.status slot = SLOT_STATUS.LOCKED)
      && match TimeSlot.lockedBy slot with
         | Some holder => negb (holder =? userId)%nat
         | None => false
         end
      && match TimeSlot.lockExpires slot with
         | Some e => nowUtc <? e
         | None => false
         end in
    if isLockedByOther then
      reply db (fail 409 "Time slot is temporarily locked" None)
    else
      let activeLocks := Prisma.timeSlot_count (heldBy userId nowUtc) (timeSlots snap) in
      if (3 <=? activeLocks)%nat then
        reply db (fail 429 "Lock limit reached. Complete or release existing locks." None)
      else
        let lockDurationMs := 5 * 60 * 1000 in
        let expiresAt := nowUtc + lockDurationMs in
        let '(count, slots) :=
          Prisma.timeSlot_updateMany slotId
            (fun s => bool_decide (TimeSlot.doctorId s = doctorId) && lockable userId nowUtc s)
            (lockFor userId nowUtc) (timeSlots db) in
        if negb (count =? 1)%nat then
          reply db (fail 409 "Unable to lock slot. It may be locked or booked." None)
        else
          mkOutcome
            (ok 200 "Slot locked" (LockData slotId doctorId userId nowUtc expiresAt))
            (mkDB slots (appointments db) (users db))
            (if purgeAfterLock redis doctorId then []
             else [ConsoleWarn "Redis cache invalidation failed:" RedisError])
  end.

(** *** The requests, served one at a time *)

Inductive Request :=
| LockTimeSlot (doctorId slotId userId : nat)
| ConfirmBooking (doctorId timeSlotId : nat) (notes : option string) (userId : nat)
| UpdateAppointmentStatus (id : nat) (status : APPOINTMENT_STATUS.t) (userId : nat)
| RescheduleAppointment (id newTimeSlotId userId : nat)
| CancelAppointment (id userId : nat)
| ConfirmReschedule (appointmentId newSlotId oldSlotId doctorId userId : nat).

(** A request served with no other request in between: what it reads is the
    store it writes to. *)
Definition serve (req : Request) (nowUtc : Z) (redis : Redis) (db : DB) : Outcome :=
  match req with
  | LockTimeSlot doctorId slotId userId =>
      lockTimeSlot doctorId slotId userId nowUtc redis db db
  | ConfirmBooking doctorId timeSlotId notes userId =>
      confirmBooking doctorId timeSlotId notes userId nowUtc redis db db
  | UpdateAppointmentStatus id status userId =>
      updateAppointmentStatus id status userId redis db db
  | RescheduleAppointment id newTimeSlotId userId =>
      rescheduleAppointment id newTimeSlotId userId nowUtc db db
  | CancelAppointment id userId =>
      cancelAppointment id userId nowUtc redis db db
  | ConfirmReschedule appointmentId newSlotId oldSlotId doctorId userId =>
      confirmReschedule appointmentId newSlotId oldSlotId doctorId userId nowUtc redis db db
  end.

End Controllers.

(** ** [app.js]: the clean-up job, when [ENABLE_LOCK_CLEANUP] is ['true'] *)

Definition releaseExpiredLocks (now : Z) (db : DB) : DB :=
  mkDB
    (Prisma.timeSlot_updateAll
       (fun s => bool_decide (TimeSlot.status s = SLOT_STATUS.LOCKED) && expiredAt now s)
       releaseExpired (timeSlots db))
    (appointments db) (users db).

(** ** The stores the service reaches *)

(** The stores reached from [init] by requests among [allowed], served one at
    a time at any clock and with any cache, and by runs of the clean-up job. *)
Inductive reachable
    (vA : nat -> nat -> option string -> option string)
    (vS : APPOINTMENT_STATUS.t -> option string)
    (vP : nat -> option string)
    (vR : nat -> nat -> nat -> nat -> option string)
    (allowed : Request -> Prop) (init : DB) : DB -> Prop :=
| reachable_init : reachable vA vS vP vR allowed init init
| reachable_serve req nowUtc redis db :
    reachable vA vS vP vR allowed init db ->
    allowed req ->
    reachable vA vS vP vR allowed init (store (serve vA vS vP vR req nowUtc redis db))
| reachable_cleanup now db :
    reachable vA vS vP vR allowed init db ->
    reachable vA vS vP vR allowed init (releaseExpiredLocks now db).

Definition isStatusUpdate (req : Request) : Prop :=
  match req with
  | UpdateAppointmentStatus _ _ _ => True
  | _ => False
  end.

(** ** The invariant of the appointment table *)

(** At most one appointment with status [BOOKED] refers to a slot. *)
Definition uniquelyBooked (appts : list Appointment.t) : Prop :=
  forall (i j : nat) (a b : Appointment.t) (s : nat),
    appts !! i = Some a -> appts !! j = Some b ->
    bookedOn s a = true -> bookedOn s b = true -> i = j.

Definition singleBooking (db : DB) : Prop := uniquelyBooked (appointments db).

(** ** Concrete collaborators and stores, for the examples *)

Module Scenario.

Definition quote : string := String (ascii_of_nat 34) EmptyString.

(** The schemas on bodies whose identifiers are present: only [notes] and
    [status] can be refused. *)
Definition validateAppointment (doctorId timeSlotId : nat) (notes : option string)
  : option string :=
  match notes with
  | Some n =>
      if String.eqb n EmptyString then
        Some (quote ++ "notes" ++ quote ++ " is not allowed to be empty")%string
      else if (500 <? String.length n)%nat then
        Some (quote ++ "notes" ++ quote
              ++ " length must be less than or equal to 500 characters long")%string
      else None
  | None => None
  end.

Definition validateAppointmentStatusUpdate (status : APPOINTMENT_STATUS.t) : option string :=
  match status with
  | APPOINTMENT_STATUS.RESCHEDULED =>
      Some (quote ++ "status" ++ quote
            ++ " must be one of [BOOKED, COMPLETED, CANCELLED]")%string
  | _ => None
  end.

Definition validateAppointmentReschedule (newTimeSlotId : nat) : option string := None.

Definition validateRescheduleConfirm (appointmentId newSlotId oldSlotId doctorId : nat)
  : option string := None.

(** A cache that answers every command, with nothing stored, and one that
    rejects every command. *)
Definition redisUp : Redis :=
  mkRedis (fun _ => Some []) (fun _ => true) (fun _ => true) (fun _ => [Some []]).

Definition redisDown : Redis :=
  mkRedis (fun _ => None) (fun _ => false) (fun _ => false) (fun _ => [None]).

Definition confirmBooking := confirmBooking validateAppointment.
Definition updateAppointmentStatus := updateAppointmentStatus validateAppointmentStatusUpdate.
Definition rescheduleAppointment := rescheduleAppointment validateAppointmentReschedule.
Definition confirmReschedule := confirmReschedule validateRescheduleConfirm.
Definition serve :=
  serve validateAppointment validateAppointmentStatusUpdate validateAppointmentReschedule
    validateRescheduleConfirm.
Definition reachable :=
  reachable validateAppointment validateAppointmentStatusUpdate
    validateAppointmentReschedule validateRescheduleConfirm.

(** Times: day [d] at [hh:mm], in milliseconds. *)
Definition at_ (d hh mm : Z) : Z := d * MS_PER_DAY + hh * MS_PER_HOUR + mm * MS_PER_MINUTE.

Definition day (d : Z) : Z := d * MS_PER_DAY.

Definition freeSlot (doctorId : nat) (d : Z) (startTime endTime : string) : TimeSlot.t :=
  TimeSlot.mk doctorId (day d) startTime endTime SLOT_STATUS.AVAILABLE None None None.

Definition verified (until : Z) : User.t := User.mk (Some until).

(** Doctor 1 has slots 10 to 13 on day 100; users 7 and 8 have just verified
    a passcode (the gate stays open until 10:05), user 9 has not. *)
Definition db0 : DB :=
  mkDB
    (<[10%nat := freeSlot 1 100 "09:00" "09:30"]>
       (<[11%nat := freeSlot 1 100 "09:30" "10:00"]>
          (<[12%nat := freeSlot 1 100 "10:00" "10:30"]>
             (<[13%nat := freeSlot 1 100 "10:30" "11:00"]> ∅))))
    []
    (<[7%nat := verified (at_ 90 10 5)]>
       (<[8%nat := verified (at_ 90 10 5)]> (<[9%nat := User.mk None]> ∅))).

Definition t0 : Z := at_ 90 10 0.

(** User 7 locks slot 10 at 10:00 on day 90 and confirms at 10:01. *)
Definition db1 : DB := store (lockTimeSlot 1 10 7 t0 redisUp db0 db0).
Definition db2 : DB :=
  store (confirmBooking 1 10 None 7 (at_ 90 10 1) redisUp db1 db1).

(** User 7 cancels appointment 0 at 10:02, more than 24 hours ahead. *)
Definition db3 : DB := store (cancelAppointment 0 7 (at_ 90 10 2) redisUp db2 db2).

(** User 8 locks the released slot at 10:03 and confirms at 10:04. *)
Definition db4 : DB := store (lockTimeSlot 1 10 8 (at_ 90 10 3) redisUp db3 db3).
Definition db5 : DB :=
  store (confirmBooking 1 10 None 8 (at_ 90 10 4) redisUp db4 db4).

(** From [db0], user 7 locks slots 10, 11 and 12 at 10:00. *)
Definition dbCap : DB :=
  let a := store (lockTimeSlot 1 10 7 t0 redisUp db0 db0) in
  let b := store (lockTimeSlot 1 11 7 t0 redisUp a a) in
  store (lockTimeSlot 1 12 7 t0 redisUp b b).

(** [db1] once user 7 has verified a passcode again at 10:04: the gate stays
    open until 10:09, past the lease on slot 10. *)
Definition dbGate : DB :=
  mkDB (timeSlots db1) (appointments db1) (<[7%nat := verified (at_ 90 10 9)]> (users db1)).

(** From [db0], user 9 locks slot 10 at 10:00. *)
Definition db9 : DB := store (lockTimeSlot 1 10 9 t0 redisUp db0 db0).

(** From [db3], where appointment 0 is cancelled and slot 10 released: user 7
    sets appointment 0 back to [BOOKED], then user 8 locks slot 10 at 10:03. *)
Definition dbRebooked : DB :=
  store (updateAppointmentStatus 0 APPOINTMENT_STATUS.BOOKED 7 redisUp db3 db3).
Definition dbRelocked : DB :=
  store (lockTimeSlot 1 10 8 (at_ 90 10 3) redisUp dbRebooked dbRebooked).

(** From [db2], where user 7 holds appointment 0 on slot 10: user 7 asks to
    move it to slot 11 at 10:02 (the lease on slot 11 runs until 10:07) and
    confirms at 10:03. *)
Definition dbMoving : DB := store (rescheduleAppointment 0 11 7 (at_ 90 10 2) db2 db2).
Definition dbMoved : DB :=
  store (confirmReschedule 0 11 10 1 7 (at_ 90 10 3) redisUp dbMoving dbMoving).

(** Then user 7 moves the new appointment 1 back to slot 10: asked at 10:04,
    confirmed at 10:05. *)
Definition dbMovingBack : DB :=
  store (rescheduleAppointment 1 10 7 (at_ 90 10 4) dbMoved dbMoved).
Definition dbMovedBack : DB :=
  store (confirmReschedule 1 10 11 1 7 (at_ 90 10 5) redisUp dbMovingBack dbMovingBack).

End Scenario.

(** ** More of [utils/time.js] and the time pattern of [utils/validation.js] *)

Module TimeFormat.

(** [s.split(sep)] for a one-character separator. *)
Fixpoint split (sep : ascii) (s : string) : list string :=
  match s with
  | EmptyString => [EmptyString]
  | String c r =>
      if Ascii.eqb c sep then EmptyString :: split sep r
      else match split sep r with
           | [] => [String c EmptyString]
           | w :: ws => String c w :: ws
           end
  end.

Fixpoint digitsOf (fuel : nat) (n : Z) (acc : string) : string :=
  match fuel with
  | O => acc
  | S f =>
      let acc' := String (digit n) acc in
      if n <? 10 then acc' else digitsOf f (n `div` 10) acc'
  end.

(** [x.toString()] for a number that is [NaN] ([None]) or a non-negative
    integer, the values [Number] gives here. *)
Definition numberToString (x : option Z) : string :=
  match x with
  | None => "NaN"%string
  | Some n => digitsOf (S (Z.to_nat (Z.log2 n))) n EmptyString
  end.

(** [s.padStart(2, '0')]. *)
Definition padStart2 (s : string) : string :=
  match s with
  | EmptyString => "00"%string
  | String c EmptyString => String "0" s
  | _ => s
  end.

(** [formatTime(time)]: [HH:mm] to [hh:mm AM/PM]. [None] is the [TypeError]
    of [minute.toString()] when [time] has no colon. *)
Definition formatTime (time : string) : option string :=
  let parts := split ":" time in
  let hour := parts !! 0%nat ≫= Number in
  match parts !! 1%nat with
  | None => None
  | Some minutePart =>
      let minute := Number minutePart in
      let ampm :=
        match hour with
        | Some h => if 12 <=? h then "PM"%string else "AM"%string
        | None => "AM"%string
        end in
      let h :=
        match hour with
        | Some h => if h `mod` 12 =? 0 then Some 12 else Some (h `mod` 12)
        | None => Some 12
        end in
      Some (padStart2 (numberToString h) ++ ":" ++ padStart2 (numberToString minute)
            ++ " " ++ ampm)%string
  end.

(** [parseTime(formattedTime)]: [hh:mm AM/PM] to [HH:mm]. *)
Definition parseTime (formattedTime : string) : option string :=
  let halves := split " " formattedTime in
  let time := default EmptyString (halves !! 0%nat) in
  let modifier := halves !! 1%nat in
  let parts := split ":" time in
  let hour := parts !! 0%nat ≫= Number in
  match parts !! 1%nat with
  | None => None
  | Some minutePart =>
      let minute := Number minutePart in
      let hour :=
        if bool_decide (modifier = Some "PM"%string)
           && negb (bool_decide (hour = Some 12))
        then (fun h => h + 12) <$> hour else hour in
      let hour :=
        if bool_decide (modifier = Some "AM"%string) && bool_decide (hour = Some 12)
        then Some 0 else hour in
      Some (padStart2 (numberToString hour) ++ ":" ++ padStart2 (numberToString minute))%string
  end.

Definition isDigit (c : ascii) : bool := (("0" <=? c) && (c <=? "9"))%char.

(** [/^(?:[01]\d|2[0-3]):[0-5]\d$/], the pattern the slot schema puts on
    [startTime] and [endTime]. *)
Definition timePattern (s : string) : bool :=
  match s with
  | String h1 (String h2 (String c (String m1 (String m2 EmptyString)))) =>
      ((((h1 =? "0") || (h1 =? "1")) && isDigit h2)
       || ((h1 =? "2") && ("0" <=? h2) && (h2 <=? "3")))%char
      && (c =? ":")%char
      && (("0" <=? m1) && (m1 <=? "5"))%char
      && isDigit m2
  | _ => false
  end.


(** Every string of five characters drawn from the ranges of the pattern;
    the strings that match the pattern are among them. *)
Definition timeCandidates : list string :=
  h1 ← ["0"; "1"; "2"]%char;
  h2 ← ["0"; "1"; "2"; "3"; "4"; "5"; "6"; "7"; "8"; "9"]%char;
  m1 ← ["0"; "1"; "2"; "3"; "4"; "5"]%char;
  m2 ← ["0"; "1"; "2"; "3"; "4"; "5"; "6"; "7"; "8"; "9"]%char;
  [String h1 (String h2 (String ":" (String m1 (String m2 EmptyString))))].

End TimeFormat.

(** ** The [Date] arithmetic behind [getUtcDateTime]

    [getUtcDateTime] takes the date of a slot apart with [getUTCFullYear],
    [getUTCMonth] and [getUTCDate] and puts it together again with
    [Date.UTC]. The definitions below are those of the language (ECMA-262,
    "Date Objects"), on integer time values; [None] is [NaN], the time value
    of an invalid date. *)

Module DateUTC.

Definition Day (t : Z) : Z := t `div` MS_PER_DAY.

Definition DaysInYear (y : Z) : Z :=
  if negb (y `mod` 4 =? 0) then 365
  else if negb (y `mod` 100 =? 0) then 366
  else if negb (y `mod` 400 =? 0) then 365
  else 366.

Definition DayFromYear (y : Z) : Z :=
  365 * (y - 1970) + (y - 1969) `div` 4 - (y - 1901) `div` 100 + (y - 1601) `div` 400.

Definition TimeFromYear (y : Z) : Z := MS_PER_DAY * DayFromYear y.

(** [YearFromTime(t)], the largest [y] with [TimeFromYear(y) <= t]: the mean
    year of 365.2425 days gives it to within one. *)
Definition YearFromTime (t : Z) : Z :=
  let y := 1970 + (400 * Day t) `div` 146097 in
  if t <? TimeFromYear y then y - 1
  else if TimeFromYear (y + 1) <=? t then y + 1
  else y.

Definition InLeapYear (t : Z) : Z :=
  if DaysInYear (YearFromTime t) =? 366 then 1 else 0.

Definition DayWithinYear (t : Z) : Z := Day t - DayFromYear (YearFromTime t).

(** The day of the year on which month [m] (from [0]) starts. *)
Definition monthStart (m leap : Z) : Z :=
  match m with
  | 0 => 0
  | 1 => 31
  | 2 => 59 + leap
  | 3 => 90 + leap
  | 4 => 120 + leap
  | 5 => 151 + leap
  | 6 => 181 + leap
  | 7 => 212 + leap
  | 8 => 243 + leap
  | 9 => 273 + leap
  | 10 => 304 + leap
  | _ => 334 + leap
  end.

Definition MonthFromTime (t : Z) : Z :=
  let d := DayWithinYear t in
  let leap := InLeapYear t in
  if d <? 31 then 0
  else if d <? 59 + leap then 1
  else if d <? 90 + leap then 2
  else if d <? 120 + leap then 3
  else if d <? 151 + leap then 4
  else if d <? 181 + leap then 5
  else if d <? 212 + leap then 6
  else if d <? 243 + leap then 7
  else if d <? 273 + leap then 8
  else if d <? 304 + leap then 9
  else if d <? 334 + leap then 10
  else 11.

Definition DateFromTime (t : Z) : Z :=
  let d := DayWithinYear t in
  let leap := InLeapYear t in
  match MonthFromTime t with
  | 0 => d + 1
  | 1 => d - 30
  | 2 => d - 58 - leap
  | 3 => d - 89 - leap
  | 4 => d - 119 - leap
  | 5 => d - 150 - leap
  | 6 => d - 180 - leap
  | 7 => d - 211 - leap
  | 8 => d - 242 - leap
  | 9 => d - 272 - leap
  | 10 => d - 303 - leap
  | _ => d - 333 - leap
  end.

Definition MakeTime (hour min sec ms : Z) : Z :=
  hour * MS_PER_HOUR + min * MS_PER_MINUTE + sec * 1000 + ms.

(** [MakeDay(year, month, date)]: the day on which month [mn] of year [ym]
    starts, plus [date - 1]. *)
Definition MakeDay (year month date : Z) : Z :=
  let ym := year + month `div` 12 in
  let mn := month `mod` 12 in
  let leap := if DaysInYear ym =? 366 then 1 else 0 in
  DayFromYear ym + monthStart mn leap + date - 1.

Definition MakeDate (day time : Z) : Z := day * MS_PER_DAY + time.

Definition TimeClip (time : Z) : option Z :=
  if 8640000000000000 <? Z.abs time then None else Some time.

(** [Date.UTC(year, month, date, hours, minutes)]: a year from [0] to [99]
    stands for [1900 + year]. *)
Definition UTC (year month date hours minutes : Z) : option Z :=
  let yr := if (0 <=? year) && (year <=? 99) then 1900 + year else year in
  TimeClip (MakeDate (MakeDay yr month date) (MakeTime hours minutes 0 0)).

Definition getUTCFullYear (d : Z) : Z := YearFromTime d.
Definition getUTCMonth (d : Z) : Z := MonthFromTime d.
Definition getUTCDate (d : Z) : Z := DateFromTime d.

(** [getUtcDateTime(date, time)] of [utils/time.js], statement by statement. *)
Definition getUtcDateTime (date : Z) (time : string) : option Z :=
  let parts :=
    split_colon (if String.eqb time EmptyString then "00:00"%string else time) in
  let hh := parts !! 0%nat ≫= Number in
  let mm := parts !! 1%nat ≫= Number in
  UTC (getUTCFullYear date) (getUTCMonth date) (getUTCDate date) (or_zero hh) (or_zero mm).

(** The dates of the handlers: [new Date(ms)] is valid up to 8.64e15 ms on
    either side of the epoch. *)
Definition DATE_MAX : Z := 8640000000000000.

End DateUTC.

(** ** The shape of a slot row *)

(** A [BOOKED] row carries no lease field, and a [LOCKED] row carries its
    holder and an expiry five minutes after [lockedAt]. *)
Definition leaseShaped (s : TimeSlot.t) : Prop :=
  (TimeSlot.status s = SLOT_STATUS.BOOKED ->
   TimeSlot.lockedBy s = None /\ TimeSlot.lockedAt s = None /\ TimeSlot.lockExpires s = None)
  /\ (TimeSlot.status s = SLOT_STATUS.LOCKED ->
      exists (holder : nat) (at_ : Z),
        TimeSlot.lockedBy s = Some holder /\ TimeSlot.lockedAt s = Some at_ /\
        TimeSlot.lockExpires s = Some (at_ + 5 * 60 * 1000)).

Definition leasesShaped (db : DB) : Prop :=
  forall (id : nat) (s : TimeSlot.t), timeSlots db !! id = Some s -> leaseShaped s.

(** The slot is not for [userId] to take at [nowUtc]: it is [BOOKED], or it
    is [LOCKED] by another user until [nowUtc] or later. *)
Definition takenFrom (userId : nat) (nowUtc : Z) (s : TimeSlot.t) : Prop :=
  (TimeSlot.status s = SLOT_STATUS.BOOKED /\
   TimeSlot.lockedBy s = None /\ TimeSlot.lockExpires s = None)
  \/ (TimeSlot.status s = SLOT_STATUS.LOCKED /\
      exists (holder : nat) (e : Z),
        TimeSlot.lockedBy s = Some holder /\ holder <> userId /\
        TimeSlot.lockExpires s = Some e /\ nowUtc <= e).

From Stdlib Require OrderedTypeEx.
From stdpp Require Import sorting.

Local Open Scope Z_scope.

(** ** [doctorController.js]: the calendar of a doctor

    [createTimeSlot] and [getAvailableSlots]. Both look the doctor up in the
    doctor table, of which only the set of ids matters here; the route always
    supplies [doctorId], so the [400] for a missing path parameter has no
    request that reaches it. The column defaults of a new slot row are those
    of the data model: [AVAILABLE], with the three lease columns null. A text
    column is compared as JavaScript compares strings, code unit by code
    unit.

    [createTimeSlot] reads the server clock twice, for [now] and for
    [todayUTC]; both readings are the one instant [now] here. It runs against
    the store on its own: [createMany] accepts the rows it is given, so the
    [409] the handler keeps for a violated unique index has no counterpart.
    [getAvailableSlots] reads the clock of the database. *)

(** The order [orderBy] puts on the rows of a table. *)
Definition ordered (orderBy : TimeSlot.t -> TimeSlot.t -> bool)
  : relation (nat * TimeSlot.t) :=
  fun a b => orderBy a.2 b.2 = true.

#[global] Instance ordered_dec orderBy x y : Decision (ordered orderBy x y).
Proof. unfold ordered. apply _. Defined.

(** [timeSlot.findMany({ where, orderBy })]. *)
Definition timeSlot_findMany (where_ : TimeSlot.t -> bool)
    (orderBy : TimeSlot.t -> TimeSlot.t -> bool) (slots : gmap nat TimeSlot.t)
  : list (nat * TimeSlot.t) :=
  merge_sort (ordered orderBy)
    (filter (fun kv => where_ kv.2 = true) (map_to_list slots)).

(** [timeSlot.findMany({ where })], in the order of the table. *)
Definition timeSlot_findAll (where_ : TimeSlot.t -> bool) (slots : gmap nat TimeSlot.t)
  : list (nat * TimeSlot.t) :=
  filter (fun kv => where_ kv.2 = true) (map_to_list slots).

(** [timeSlot.createMany({ data })]: each row gets an id no row has. *)
Fixpoint timeSlot_createMany (rows : list TimeSlot.t) (slots : gmap nat TimeSlot.t)
  : gmap nat TimeSlot.t :=
  match rows with
  | [] => slots
  | r :: rest => timeSlot_createMany rest (<[fresh (dom slots) := r]> slots)
  end.

(** [orderBy: { startTime: "asc" }] and
    [orderBy: [{ date: "asc" }, { startTime: "asc" }]]. *)
Definition byStartTime (a b : TimeSlot.t) : bool :=
  String.leb (TimeSlot.startTime a) (TimeSlot.startTime b).

Definition byDateThenStartTime (a b : TimeSlot.t) : bool :=
  (TimeSlot.date a <? TimeSlot.date b)
  || ((TimeSlot.date a =? TimeSlot.date b)
      && String.leb (TimeSlot.startTime a) (TimeSlot.startTime b)).

(** A row of [data]; [D] is how the handler writes the date. *)
Record SlotRow (D : Type) := mkSlotRow {
  row_slotId : nat;
  row_doctorId : nat;
  row_date : D;
  row_startTime : string;
  row_endTime : string;
  row_status : SLOT_STATUS.t
}.

Arguments mkSlotRow {D}.
Arguments row_slotId {D}.
Arguments row_doctorId {D}.
Arguments row_date {D}.
Arguments row_startTime {D}.
Arguments row_endTime {D}.
Arguments row_status {D}.

(** What [createTimeSlot] answers: an error, with the conflicting rows under
    [data] for the [409], or the created rows, dated as the body is. *)
Inductive CreateAnswer :=
| CreateRefused (http : nat) (error : string) (conflicts : list (nat * string * string))
| Created (http : nat) (message : string) (rows : list (SlotRow string)).

(** What [getAvailableSlots] answers; a row is dated by the UTC day of the
    slot, which [toISOString().split("T")[0]] spells out. *)
Inductive SlotsAnswer :=
| SlotsRefused (http : nat) (error : string)
| SlotsListed (message : string) (rows : list (SlotRow Z)).

Record CreateOutcome := mkCreateOutcome {
  created_answer : CreateAnswer;
  created_store : DB;
  created_log : list LogLine
}.

(** The loop [for (cursor = startMinutes; cursor < endMinutes; cursor += 30)];
    [fuel] bounds the iterations, and [endMinutes - startMinutes] of them are
    more than the loop takes. *)
Fixpoint segments_loop (fuel : nat) (cursor endMinutes : Z) : list (string * string) :=
  match fuel with
  | O => []
  | S fuel' =>
      if cursor <? endMinutes then
        (toTimeString cursor, toTimeString (cursor + 30))
        :: segments_loop fuel' (cursor + 30) endMinutes
      else []
  end.

Definition segments (startMinutes endMinutes : Z) : list (string * string) :=
  segments_loop (Z.to_nat (endMinutes - startMinutes)) startMinutes endMinutes.

(** The invalidation block of [createTimeSlot]. *)
Definition purgeAfterCreate (redis : Redis) (doctorId : nat) : bool :=
  unlinkPages redis (scanPages redis "doctors:list*")
  && unlink redis [DoctorKey doctorId].

(** A query parameter that is present and not empty. *)
Definition truthy (s : option string) : bool :=
  match s with
  | Some s => negb (String.eqb s EmptyString)
  | None => false
  end.

Section Calendar.

(** The schemas [validateTimeSlotCreate] and [validateSlotsFetchQuery], by
    their verdict, and [new Date(`${date}T00:00:00.000Z`)], where [None]
    stands for an invalid date. *)
Variable validateTimeSlotCreate : string -> string -> string -> option string.
Variable validateSlotsFetchQuery :
  option string -> option string -> option string -> option string.
Variable parseDate : string -> option Z.

Definition createTimeSlot (doctors : gset nat) (doctorId : nat)
    (date startTime endTime : string) (now : Z) (redis : Redis) (db : DB)
  : CreateOutcome :=
  let refuse http error conflicts :=
    mkCreateOutcome (CreateRefused http error conflicts) db [] in
  if negb (bool_decide (doctorId ∈ doctors)) then refuse 404%nat "Doctor not found"%string []
  else
  match validateTimeSlotCreate date startTime endTime with
  | Some message => refuse 400%nat message []
  | None =>
  match parseToMinutes startTime, parseToMinutes endTime with
  | Some startMinutes, Some endMinutes =>
  if endMinutes <=? startMinutes then
    refuse 400%nat "endTime must be greater than startTime"%string []
  else if negb (Z.rem (endMinutes - startMinutes) 30 =? 0) then
    refuse 400%nat "Timeframe must be a multiple of 30 minutes"%string []
  else
  match parseDate date with
  | None => refuse 400%nat "Invalid date"%string []
  | Some parsedDate =>
  let todayUTC := utcMidnight now in
  if parsedDate <? todayUTC then
    refuse 400%nat "Cannot create time slots for past dates"%string []
  else if (parsedDate =? todayUTC)
          && (startMinutes <=? getUTCHours now * 60 + getUTCMinutes now) then
    refuse 400%nat "Cannot create time slots in the past for today"%string []
  else
    let conflicts :=
      timeSlot_findAll
        (fun s => bool_decide (TimeSlot.doctorId s = doctorId)
                  && (TimeSlot.date s =? parsedDate)
                  && String.ltb (TimeSlot.startTime s) endTime
                  && String.ltb startTime (TimeSlot.endTime s))
        (timeSlots db) in
    if (0 <? length conflicts)%nat then
      refuse 409%nat "Requested timeframe overlaps with existing slots"%string
        ((fun kv => (kv.1, TimeSlot.startTime kv.2, TimeSlot.endTime kv.2)) <$> conflicts)
    else
      let segs := segments startMinutes endMinutes in
      let slots :=
        timeSlot_createMany
          ((fun s => TimeSlot.mk doctorId parsedDate s.1 s.2 SLOT_STATUS.AVAILABLE
                       None None None) <$> segs)
          (timeSlots db) in
      let createdSlots :=
        timeSlot_findMany
          (fun s => bool_decide (TimeSlot.doctorId s = doctorId)
                    && (TimeSlot.date s =? parsedDate)
                    && bool_decide (TimeSlot.startTime s ∈ segs.*1))
          byStartTime slots in
      mkCreateOutcome
        (Created 201 "Time slots created successfully"
           ((fun kv => mkSlotRow kv.1 (TimeSlot.doctorId kv.2) date
                         (TimeSlot.startTime kv.2) (TimeSlot.endTime kv.2)
                         (TimeSlot.status kv.2)) <$> createdSlots))
        (mkDB slots (appointments db) (users db))
        (if purgeAfterCreate redis doctorId then []
         else [ConsoleWarn "Redis cache invalidation failed:" RedisError])
  end
  | _, _ =>
      (* [NaN <= x] is false and [NaN % 30 !== 0] is true *)
      refuse 400%nat "Timeframe must be a multiple of 30 minutes"%string []
  end
  end.

Definition getAvailableSlots (doctors : gset nat) (doctorId : nat)
    (date start end_ : option string) (nowUtc : Z) (db : DB) : SlotsAnswer :=
  match validateSlotsFetchQuery date start end_ with
  | Some message => SlotsRefused 400 message
  | None =>
  if negb (bool_decide (doctorId ∈ doctors)) then SlotsRefused 404 "Doctor not found"
  else
    let todayUtc := utcMidnight nowUtc in
    let currentTimeStr := currentHM nowUtc in
    let range : string + Z * Z :=
      if truthy date then
        match date ≫= parseDate with
        | None => inl "Invalid date"%string
        | Some parsed =>
            if parsed <? todayUtc then inl "date cannot be in the past"%string
            else inr (parsed, parsed)
        end
      else
        match start ≫= parseDate, end_ ≫= parseDate with
        | Some startDate, Some endDate =>
            if startDate <? todayUtc then inl "start cannot be in the past"%string
            else if endDate <? startDate then inl "end cannot be before start"%string
            else inr (startDate, endDate)
        | _, _ => inl "Invalid start or end date"%string
        end in
    match range with
    | inl error => SlotsRefused 400 error
    | inr (startDate, endDate) =>
        let slots :=
          timeSlot_findMany
            (fun s => bool_decide (TimeSlot.doctorId s = doctorId)
                      && (startDate <=? TimeSlot.date s) && (TimeSlot.date s <=? endDate)
                      && bool_decide (TimeSlot.status s = SLOT_STATUS.AVAILABLE))
            byDateThenStartTime (timeSlots db) in
        let filtered :=
          filter (fun kv =>
                    (if utcMidnight (TimeSlot.date kv.2) =? todayUtc
                     then String.ltb currentTimeStr (TimeSlot.startTime kv.2)
                     else true) = true) slots in
        let data :=
          (fun kv => mkSlotRow kv.1 (TimeSlot.doctorId kv.2)
                       (utcMidnight (TimeSlot.date kv.2))
                       (TimeSlot.startTime kv.2) (TimeSlot.endTime kv.2)
                       (TimeSlot.status kv.2)) <$> filtered in
        SlotsListed
          (if (0 <? length data)%nat then "Available slots fetched successfully"
           else "No available slots")
          data
    end
  end.

End Calendar.

(** *** The shape of a calendar *)

(** A slot as [createTimeSlot] writes it: both times of the [HH:MM] form, the
    start before the end, the date at UTC midnight. *)
Definition slotShaped (s : TimeSlot.t) : Prop :=
  TimeFormat.timePattern (TimeSlot.startTime s) = true ∧
  TimeFormat.timePattern (TimeSlot.endTime s) = true ∧
  String.ltb (TimeSlot.startTime s) (TimeSlot.endTime s) = true ∧
  utcMidnight (TimeSlot.date s) = TimeSlot.date s.

(** Two slots of one doctor on one day whose times overlap. *)
Definition overlap (a b : TimeSlot.t) : Prop :=
  TimeSlot.doctorId a = TimeSlot.doctorId b ∧
  TimeSlot.date a = TimeSlot.date b ∧
  String.ltb (TimeSlot.startTime a) (TimeSlot.endTime b) = true ∧
  String.ltb (TimeSlot.startTime b) (TimeSlot.endTime a) = true.

Definition calendarOk (db : DB) : Prop :=
  (∀ id s, timeSlots db !! id = Some s → slotShaped s) ∧
  (∀ i j a b, i ≠ j → timeSlots db !! i = Some a → timeSlots db !! j = Some b →
              ¬ overlap a b).

(** The columns [createTimeSlot] fills in: what a slot is, as opposed to who
    holds it. *)
Definition slotColumns (s : TimeSlot.t) : nat * Z * string * string :=
  (TimeSlot.doctorId s, TimeSlot.date s, TimeSlot.startTime s, TimeSlot.endTime s).

(** The row [createTimeSlot] writes for the [k]-th half hour from [s], and the
    row [getAvailableSlots] answers with for a slot. *)
Definition segmentRow (doctorId : nat) (parsedDate s : Z) (k : nat) : TimeSlot.t :=
  TimeSlot.mk doctorId parsedDate (toTimeString (s + 30 * Z.of_nat k))
    (toTimeString (s + 30 * Z.of_nat k + 30)) SLOT_STATUS.AVAILABLE None None None.

Definition offerRow (kv : nat * TimeSlot.t) : SlotRow Z :=
  mkSlotRow kv.1 (TimeSlot.doctorId kv.2) (utcMidnight (TimeSlot.date kv.2))
    (TimeSlot.startTime kv.2) (TimeSlot.endTime kv.2) (TimeSlot.status kv.2).

(** ** [appointmentController.js]: the appointments of a user

    [listAppointments] reads its cache first, under a key made of the caller,
    the status asked for and the type. What the cache does is what it answers
    at a key: the read finds a parsable entry, none, or an entry [JSON.parse]
    rejects; a command completes or rejects. The route is behind the [auth]
    middleware, so the caller's id is present and the [401] has no request
    that reaches it. *)

Inductive ListType := upcoming | past | all.

(** A row of the answer: the [select] of the query, with the doctor by id. *)
Record AppointmentRow := mkAppointmentRow {
  arow_id : nat;
  arow_status : APPOINTMENT_STATUS.t;
  arow_notes : option string;
  arow_doctorId : nat;
  arow_timeSlot : option (nat * Z * string * string)
}.

Inductive CacheRead :=
| Hit (parsed : list AppointmentRow)
| Miss
| Unparsable.

(** [`user:${userId}:appointments:${status || 'any'}:${type}`], by the parts
    the template is filled with. *)
Record ListKey := mkListKey {
  key_userId : nat;
  key_status : option APPOINTMENT_STATUS.t;   (* [None]: ['any'] *)
  key_type : ListType
}.

Record ViewCache := mkViewCache {
  cache_get : ListKey -> option CacheRead;   (* [None]: the command rejects *)
  cache_del : ListKey -> bool;
  cache_set : ListKey -> bool
}.

Inductive ListAnswer :=
| ListRefused (http : nat) (error : string)
| ListFetched (message : string) (data : list AppointmentRow).

(** [allowedStatuses.includes(statusFilter) ? statusFilter : null], on the
    query value once trimmed and upper-cased. *)
Definition allowedStatus (statusFilter : string) : option APPOINTMENT_STATUS.t :=
  if String.eqb statusFilter "BOOKED" then Some APPOINTMENT_STATUS.BOOKED
  else if String.eqb statusFilter "COMPLETED" then Some APPOINTMENT_STATUS.COMPLETED
  else if String.eqb statusFilter "CANCELLED" then Some APPOINTMENT_STATUS.CANCELLED
  else if String.eqb statusFilter "RESCHEDULED" then Some APPOINTMENT_STATUS.RESCHEDULED
  else None.

(** [allowedTypes.includes(typeFilter) ? typeFilter : 'all'], on the query
    value once trimmed and lower-cased. *)
Definition allowedType (typeFilter : string) : ListType :=
  if String.eqb typeFilter "upcoming" then upcoming
  else if String.eqb typeFilter "past" then past
  else all.

(** [{ OR: [{ date: { gt: todayUtc } },
            { AND: [{ date: { equals: todayUtc } }, { startTime: { gt: currentHM } }] }] }]
    and its counterpart with [lt] and [lte]. *)
Definition startsLater (todayUtc : Z) (hm : string) (s : TimeSlot.t) : bool :=
  (todayUtc <? TimeSlot.date s)
  || ((TimeSlot.date s =? todayUtc) && String.ltb hm (TimeSlot.startTime s)).

Definition startedBy (todayUtc : Z) (hm : string) (s : TimeSlot.t) : bool :=
  (TimeSlot.date s <? todayUtc)
  || ((TimeSlot.date s =? todayUtc) && String.leb (TimeSlot.startTime s) hm).

(** [{ timeSlot: { is: filter } }]: the appointment has a slot, and the slot
    passes the filter. *)
Definition timeSlot_is (slots : gmap nat TimeSlot.t) (filter_ : TimeSlot.t -> bool)
    (a : Appointment.t) : bool :=
  match Appointment.timeSlotId a ≫= fun i => slots !! i with
  | Some s => filter_ s
  | None => false
  end.

(** The [where] that [listAppointments] builds. *)
Definition listAppointments_where (userId : nat) (status : option APPOINTMENT_STATUS.t)
    (type : ListType) (nowUtc : Z) (slots : gmap nat TimeSlot.t) (a : Appointment.t)
  : bool :=
  let todayUtc := utcMidnight nowUtc in
  let hm := currentHM nowUtc in
  let is_ st := bool_decide (Appointment.status a = st) in
  let byUser := bool_decide (Appointment.userId a = userId) in
  let byStatus :=
    match status with
    | Some st => is_ st
    | None => true
    end in
  let upcomingOr :=
    (is_ APPOINTMENT_STATUS.BOOKED && timeSlot_is slots (startsLater todayUtc hm) a)
    || (is_ APPOINTMENT_STATUS.CANCELLED && timeSlot_is slots (startsLater todayUtc hm) a)
    || (is_ APPOINTMENT_STATUS.RESCHEDULED && timeSlot_is slots (startsLater todayUtc hm) a) in
  let pastOr :=
    is_ APPOINTMENT_STATUS.COMPLETED
    || (is_ APPOINTMENT_STATUS.BOOKED && timeSlot_is slots (startedBy todayUtc hm) a)
    || (is_ APPOINTMENT_STATUS.CANCELLED && timeSlot_is slots (startedBy todayUtc hm) a) in
  byUser && byStatus
  && match type with
     | past => pastOr
     | upcoming => if status is Some _ then true else upcomingOr
     | all => true
     end.

Definition appointmentRow (slots : gmap nat TimeSlot.t) (ia : nat * Appointment.t)
  : AppointmentRow :=
  mkAppointmentRow ia.1 (Appointment.status ia.2) (Appointment.notes ia.2)
    (Appointment.doctorId ia.2)
    (Appointment.timeSlotId ia.2 ≫= fun i =>
       (fun s => (i, TimeSlot.date s, TimeSlot.startTime s, TimeSlot.endTime s))
         <$> slots !! i).

(** [appointment.findMany({ where, orderBy: { createdAt: 'desc' }, select })]:
    the rows are in the table in the order they were created. *)
Definition appointment_findMany (where_ : Appointment.t -> bool) (db : DB)
  : list AppointmentRow :=
  appointmentRow (timeSlots db)
    <$> reverse (filter (fun ia => where_ ia.2 = true) (imap pair (appointments db))).

(** [statusFilter] and [typeFilter] are the query values as normalised by the
    handler: trimmed, and upper- or lower-cased. *)
Definition listAppointments (userId : nat) (statusFilter typeFilter : string)
    (nowUtc : Z) (cache : ViewCache) (db : DB) : ListAnswer :=
  let status := allowedStatus statusFilter in
  let type := allowedType typeFilter in
  let cacheKey := mkListKey userId status type in
  let query (_ : unit) :=
    let appointments :=
      appointment_findMany
        (listAppointments_where userId status type nowUtc (timeSlots db)) db in
    if cache_set cache cacheKey
    then ListFetched "Appointments fetched successfully" appointments
    else ListRefused 500 "Internal server error" in
  match cache_get cache cacheKey with
  | None => ListRefused 500 "Internal server error"
  | Some (Hit parsed) => ListFetched "Appointments fetched from cache" parsed
  | Some Unparsable =>
      if cache_del cache cacheKey then query ()
      else ListRefused 500 "Internal server error"
  | Some Miss => query ()
  end.

(** How a row shows the filters of the query. *)
Definition rowStartsLater (nowUtc : Z) (r : AppointmentRow) : Prop :=
  ∃ i d st en, arow_timeSlot r = Some (i, d, st, en) ∧
    (utcMidnight nowUtc < d ∨ (d = utcMidnight nowUtc ∧ String.ltb (currentHM nowUtc) st = true)).

Definition rowStartedBy (nowUtc : Z) (r : AppointmentRow) : Prop :=
  ∃ i d st en, arow_timeSlot r = Some (i, d, st, en) ∧
    (d < utcMidnight nowUtc ∨ (d = utcMidnight nowUtc ∧ String.leb st (currentHM nowUtc) = true)).

(** ** [src/utils/helper.js]: the earliest slot of each doctor *)

(** [getNowUtc]: the database clock, the start of its UTC day and its
    wall-clock [HH:MM]. *)
Definition getNowUtc (nowUtc : Z) : Z * Z * string :=
  (nowUtc, utcMidnight nowUtc, currentHM nowUtc).

(** [getEarliestAvailableSlots]: the future [AVAILABLE] slots of the doctors,
    by date and start time; the [Map] keeps, for each doctor, the first slot
    the loop meets. *)
Definition getEarliestAvailableSlots (doctorIds : list nat) (todayUtc : Z)
    (currentHM : string) (slots : gmap nat TimeSlot.t) : gmap nat (nat * TimeSlot.t) :=
  let futureSlots :=
    timeSlot_findMany
      (fun s => bool_decide (TimeSlot.doctorId s ∈ doctorIds)
                && bool_decide (TimeSlot.status s = SLOT_STATUS.AVAILABLE)
                && startsLater todayUtc currentHM s)
      byDateThenStartTime slots in
  foldl (fun (earliestByDoctor : gmap nat (nat * TimeSlot.t)) slot =>
           if earliestByDoctor !! TimeSlot.doctorId slot.2 is Some _ then earliestByDoctor
           else <[TimeSlot.doctorId slot.2 := slot]> earliestByDoctor)
    ∅ futureSlots.

(** *** Checking a calendar, and concrete collaborators for the examples *)

Definition slotShapedb (s : TimeSlot.t) : bool :=
  TimeFormat.timePattern (TimeSlot.startTime s)
  && TimeFormat.timePattern (TimeSlot.endTime s)
  && String.ltb (TimeSlot.startTime s) (TimeSlot.endTime s)
  && (utcMidnight (TimeSlot.date s) =? TimeSlot.date s).

Definition overlapb (a b : TimeSlot.t) : bool :=
  (TimeSlot.doctorId a =? TimeSlot.doctorId b)%nat
  && (TimeSlot.date a =? TimeSlot.date b)
  && String.ltb (TimeSlot.startTime a) (TimeSlot.endTime b)
  && String.ltb (TimeSlot.startTime b) (TimeSlot.endTime a).

Definition calendarOkb (db : DB) : bool :=
  let rows := map_to_list (timeSlots db) in
  forallb (fun kv => slotShapedb kv.2) rows
  && forallb (fun kv => forallb (fun kv' => (kv.1 =? kv'.1)%nat || negb (overlapb kv.2 kv'.2))
                          rows) rows.

Module Desk.

(** [/^\d{4}-\d{2}-\d{2}$/]. *)
Definition datePattern (s : string) : bool :=
  match s with
  | String y1 (String y2 (String y3 (String y4 (String d1 (String m1 (String m2
      (String d2 (String a1 (String a2 EmptyString))))))))) =>
      forallb TimeFormat.isDigit [y1; y2; y3; y4; m1; m2; a1; a2]
      && Ascii.eqb d1 "-" && Ascii.eqb d2 "-"
  | _ => false
  end.

(** The schemas, on bodies and queries whose members are strings. *)
Definition validateTimeSlotCreate (date startTime endTime : string) : option string :=
  if negb (datePattern date) then Some "date must be in YYYY-MM-DD format"%string
  else if negb (TimeFormat.timePattern startTime) then
    Some "startTime must be in HH:MM (24h) format"%string
  else if negb (TimeFormat.timePattern endTime) then
    Some "endTime must be in HH:MM (24h) format"%string
  else None.

Definition validateSlotsFetchQuery (date start end_ : option string) : option string :=
  let bad (name : string) (v : option string) :=
    match v with
    | Some s => if datePattern s then None
                else Some (name ++ " must be in YYYY-MM-DD format")%string
    | None => None
    end in
  match bad "date" date, bad "start" start, bad "end" end_ with
  | Some m, _, _ | None, Some m, _ | None, None, Some m => Some m
  | None, None, None =>
      match date, start with
      | Some _, Some _ =>
          Some (Scenario.quote ++ "value" ++ Scenario.quote
                ++ " contains a conflict between exclusive peers [date, start]")%string
      | None, None =>
          Some (Scenario.quote ++ "value" ++ Scenario.quote
                ++ " must contain at least one of [date, start]")%string
      | _, _ => None
      end
  end.

(** The dates of the examples: days 90, 100 and 101 after the epoch. *)
Definition parseDate (date : string) : option Z :=
  if String.eqb date "1970-04-01" then Some (Scenario.day 90)
  else if String.eqb date "1970-04-11" then Some (Scenario.day 100)
  else if String.eqb date "1970-04-12" then Some (Scenario.day 101)
  else None.

Definition doctors : gset nat := {[ 1%nat ]}.

Definition createTimeSlot := createTimeSlot validateTimeSlotCreate parseDate.
Definition getAvailableSlots := getAvailableSlots validateSlotsFetchQuery parseDate.

(** A cache with no entry that accepts every command. *)
Definition cacheMiss : ViewCache :=
  mkViewCache (fun _ => Some Miss) (fun _ => true) (fun _ => true).

(** The same cache once user 8 has asked for the [BOOKED] appointments with
    [type=upcoming] while having none: that key alone holds an entry. *)
Definition cacheAsked : ViewCache :=
  mkViewCache
    (fun k =>
       match k with
       | mkListKey 8 (Some APPOINTMENT_STATUS.BOOKED) upcoming => Some (Hit [])
       | _ => Some Miss
       end)
    (fun _ => true) (fun _ => true).

(** Doctor 1 gets three more half hours on day 100, from 11:00 to 12:30. *)
Definition dbMore : DB :=
  created_store
    (createTimeSlot doctors 1 "1970-04-11" "11:00" "12:30" Scenario.t0 Scenario.redisUp
       Scenario.db0).

(** From [Scenario.db2], where user 7 holds appointment 0 on slot 10: user 8
    locks slot 11 at 10:02 and lets the lease run out at 10:07. *)
Definition dbStale : DB :=
  store (lockTimeSlot 1 11 8 (Scenario.at_ 90 10 2) Scenario.redisUp
           Scenario.db2 Scenario.db2).

(** From [Scenario.db2]: user 7 cancels appointment 0 at 10:00 on day 99, 23
    hours before slot 10 starts; then user 8 asks for the slot. *)
Definition dbLate : DB :=
  store (cancelAppointment 0 7 (Scenario.at_ 99 10 0) Scenario.redisUp
           Scenario.db2 Scenario.db2).

Definition dbAsked : DB :=
  store (Scenario.serve (LockTimeSlot 1 10 8) (Scenario.at_ 99 10 1) Scenario.redisUp dbLate).

End Desk.

(** * Properties *)

Example getUtcDateTime_0930 :
  getUtcDateTime (3 * MS_PER_DAY) "09:30" = 3 * 86400000 + 9 * 3600000 + 30 * 60000.
Proof. reflexivity. Qed.

Example currentHM_0930 :
  currentHM (3 * 86400000 + 9 * 3600000 + 30 * 60000 + 59999) = "09:30"%string.
Proof. reflexivity. Qed.

Example toTimeString_parse : parseToMinutes (toTimeString 570) = Some 570.
Proof. reflexivity. Qed.

Example scenario_db2 :
  Scenario.db2 =
  mkDB (<[10%nat := markBooked (Scenario.freeSlot 1 100 "09:00" "09:30")]> (timeSlots Scenario.db0))
       [Appointment.mk 7 1 (Some 10%nat) APPOINTMENT_STATUS.BOOKED None]
       (<[7%nat := User.mk None]> (users Scenario.db0)).
Proof. vm_compute. reflexivity. Qed.

(** ** The Prisma primitives *)

Lemma timeSlot_updateMany_spec id cond data (slots : gmap nat TimeSlot.t) count slots' :
  Prisma.timeSlot_updateMany id cond data slots = (count, slots') →
  (count = 1%nat ∧ ∃ s, slots !! id = Some s ∧ cond s = true ∧ slots' = <[id := data s]> slots)
  ∨ (count = 0%nat ∧ slots' = slots ∧ ∀ s, slots !! id = Some s → cond s = false).
Proof.
  unfold Prisma.timeSlot_updateMany.
  destruct (slots !! id) as [s|] eqn:E.
  - destruct (cond s) eqn:C; intros [= <- <-].
    + left. eauto.
    + right. repeat split. by intros ? [= <-].
  - intros [= <- <-]. right. repeat split. done.
Qed.

Lemma timeSlot_update_spec id data (slots slots' : gmap nat TimeSlot.t) :
  Prisma.timeSlot_update id data slots = Some slots' →
  ∃ s, slots !! id = Some s ∧ slots' = <[id := data s]> slots.
Proof.
  unfold Prisma.timeSlot_update. destruct (slots !! id) as [s|]; [|done].
  intros [= <-]. eauto.
Qed.

Lemma user_update_spec id data (us us' : gmap nat User.t) :
  Prisma.user_update id data us = Some us' →
  ∃ u, us !! id = Some u ∧ us' = <[id := data u]> us.
Proof.
  unfold Prisma.user_update. destruct (us !! id) as [u|]; [|done].
  intros [= <-]. eauto.
Qed.

Lemma timeSlot_findFirst_Some id d (slots : gmap nat TimeSlot.t) s :
  Prisma.timeSlot_findFirst id d slots = Some s ↔
  slots !! id = Some s ∧ TimeSlot.doctorId s = d.
Proof.
  unfold Prisma.timeSlot_findFirst. destruct (slots !! id) as [s'|].
  - case_decide; split; try done.
    + by intros [= ->].
    + by intros [[= ->] _].
    + intros [[= ->] ?]. done.
  - split; [done | by intros [? _]].
Qed.

Lemma appointment_findFirst_Some id u (l : list Appointment.t) a :
  Prisma.appointment_findFirst id u l = Some a ↔
  l !! id = Some a ∧ Appointment.userId a = u.
Proof.
  unfold Prisma.appointment_findFirst. destruct (l !! id) as [b|].
  - case_decide; split; try done.
    + by intros [= ->].
    + by intros [[= ->] _].
    + intros [[= ->] ?]. done.
  - split; [done | by intros [? _]].
Qed.

Lemma appointment_update_spec id f (l l' : list Appointment.t) :
  Prisma.appointment_update id f l = Some l' →
  ∃ a, l !! id = Some a ∧ l' = <[id := f a]> l.
Proof.
  unfold Prisma.appointment_update. destruct (l !! id) as [a|] eqn:E; [|done].
  intros [= <-]. eauto.
Qed.

Lemma appointment_updateMany_lookup cond data (l : list Appointment.t) i :
  Prisma.appointment_updateMany cond data l !! i
  = (fun a => if cond i a then data a else a) <$> l !! i.
Proof. unfold Prisma.appointment_updateMany. by rewrite list_lookup_imap. Qed.

Lemma appointment_updateMany_length cond data (l : list Appointment.t) :
  length (Prisma.appointment_updateMany cond data l) = length l.
Proof. unfold Prisma.appointment_updateMany. by rewrite length_imap. Qed.

Lemma bookedOn_true s a :
  bookedOn s a = true ↔
  Appointment.timeSlotId a = Some s ∧ Appointment.status a = APPOINTMENT_STATUS.BOOKED.
Proof.
  unfold bookedOn. rewrite andb_true_iff, !bool_decide_eq_true. done.
Qed.

Lemma existsb_bookedOn_false s (l : list Appointment.t) i a :
  existsb (bookedOn s) l = false → l !! i = Some a → bookedOn s a = false.
Proof.
  intros H Hi. destruct (bookedOn s a) eqn:E; [|done].
  assert (existsb (bookedOn s) l = true); [|congruence].
  apply existsb_exists. exists a. split; [|done].
  apply list_elem_of_In, list_elem_of_lookup. eauto.
Qed.

(** ** The transactions, by what they return *)

Lemma confirmBooking_tx_commit slot doctorId timeSlotId userId notes nowUtc db r db' :
  confirmBooking_tx slot doctorId timeSlotId userId notes nowUtc db = inr (r, db') →
  ∃ s u,
    timeSlots db !! timeSlotId = Some s ∧
    TimeSlot.doctorId s = doctorId ∧
    heldBy userId nowUtc s = true ∧
    users db !! userId = Some u ∧
    existsb (bookedOn timeSlotId) (appointments db) = false ∧
    r = (length (appointments db),
         Appointment.mk userId doctorId (Some timeSlotId) APPOINTMENT_STATUS.BOOKED
           (notesOrNull notes)) ∧
    db' = mkDB (<[timeSlotId := markBooked s]> (timeSlots db))
            (appointments db ++ [r.2])
            (<[userId := clearOtp u]> (users db)).
Proof.
  unfold confirmBooking_tx. cbv zeta.
  destruct (_ <? _); [done|].
  destruct (_ && _); [done|].
  destruct (Prisma.timeSlot_updateMany _ _ _ _) as [count slots] eqn:U.
  destruct (negb _) eqn:C; [done|].
  destruct (existsb _ _) eqn:X; [done|].
  unfold Prisma.appointment_create.
  destruct (Prisma.user_update _ _ _) as [us|] eqn:UU; [|done].
  intros [= <- <-].
  apply user_update_spec in UU as (u & Hu & ->).
  apply timeSlot_updateMany_spec in U as [(-> & s & Hs & Hc & ->)|(-> & _)]; [|done].
  apply andb_true_iff in Hc as [Hd Hh]. apply bool_decide_eq_true in Hd.
  exists s, u. repeat split; auto.
Qed.

Lemma transaction_rollback {A} (callback : Prisma.Tx A) db e db' :
  Prisma.transaction callback db = (inl e, db') → db' = db ∧ callback db = inl e.
Proof.
  unfold Prisma.transaction. destruct (callback db) as [e'|[a d]]; [|done].
  by intros [= -> ->].
Qed.

Lemma transaction_commit {A} (callback : Prisma.Tx A) db (a : A) db' :
  Prisma.transaction callback db = (inr a, db') → callback db = inr (a, db').
Proof.
  unfold Prisma.transaction. destruct (callback db) as [e'|[a' d]]; [done|].
  by intros [= -> ->].
Qed.

(** ** confirmBooking *)

Section ConfirmBooking.

Variable vA : nat -> nat -> option string -> option string.

(** Whatever [confirmBooking] is given, it either answers a failure and
    leaves the store as it was, or it has passed every check and done all of
    its three writes. *)
Lemma confirmBooking_cases doctorId timeSlotId notes userId nowUtc redis snap db :
  let o := confirmBooking vA doctorId timeSlotId notes userId nowUtc redis snap db in
  (success (response o) = false ∧ store o = db)
  ∨ (∃ slot s u otpVerifiedUntil,
       vA doctorId timeSlotId notes = None ∧
       timeSlots snap !! timeSlotId = Some slot ∧
       TimeSlot.doctorId slot = doctorId ∧
       users snap !! userId ≫= User.otpVerifiedUntil = Some otpVerifiedUntil ∧
       nowUtc < otpVerifiedUntil ∧
       heldBy userId nowUtc slot = true ∧
       timeSlots db !! timeSlotId = Some s ∧
       TimeSlot.doctorId s = doctorId ∧
       heldBy userId nowUtc s = true ∧
       users db !! userId = Some u ∧
       existsb (bookedOn timeSlotId) (appointments db) = false ∧
       let a := Appointment.mk userId doctorId (Some timeSlotId)
                  APPOINTMENT_STATUS.BOOKED (notesOrNull notes) in
       response o = ok 201 "Appointment booked successfully"
                      (AppointmentData (length (appointments db)) a) ∧
       store o = mkDB (<[timeSlotId := markBooked s]> (timeSlots db))
                   (appointments db ++ [a])
                   (<[userId := clearOtp u]> (users db))).
Proof.
  cbv zeta. unfold confirmBooking.
  destruct (vA _ _ _) eqn:V; [by left|].
  destruct (timeSlots snap !! timeSlotId) as [slot|] eqn:S; [|by left].
  destruct (negb (bool_decide (TimeSlot.doctorId slot = doctorId))) eqn:D; [by left|].
  apply negb_false_iff, bool_decide_eq_true in D.
  destruct (bool_decide (TimeSlot.status slot = SLOT_STATUS.BOOKED)); [by left|].
  destruct (otpRequired _ _ _) eqn:G; [by left|]. unfold otpRequired in G.
  destruct (users snap !! userId ≫= User.otpVerifiedUntil) as [t|] eqn:O; [|done].
  apply Z.leb_gt in G.
  destruct (negb (heldBy userId nowUtc slot)) eqn:L; [by left|].
  apply negb_false_iff in L.
  destruct (Prisma.transaction _ db) as [[e|[id a]] db'] eqn:T.
  - apply transaction_rollback in T as [-> _]. left.
    unfold confirmBooking_catch. destruct e; by simpl.
  - apply transaction_commit, confirmBooking_tx_commit in T
      as (s & u & Hs & Hd & Hh & Hu & Hx & [= -> ->] & ->).
    right. exists slot, s, u, t. simpl. repeat split; auto.
Qed.

(** C3. [confirmBooking] is atomic: in every execution either the answer is a
    failure and the store is untouched, or the slot went from locked by the
    caller (unexpired) to booked, exactly one booked appointment row for the
    slot was added, and the caller's [otpVerifiedUntil] was cleared, all
    three together; so a slot booked by this operation always has its row. *)
Theorem confirmBooking_atomic doctorId timeSlotId notes userId nowUtc redis snap db :
  let o := confirmBooking vA doctorId timeSlotId notes userId nowUtc redis snap db in
  (success (response o) = false ∧ store o = db)
  ∨ (∃ s u,
       timeSlots db !! timeSlotId = Some s ∧
       TimeSlot.status s = SLOT_STATUS.LOCKED ∧
       TimeSlot.lockedBy s = Some userId ∧
       (∃ e, TimeSlot.lockExpires s = Some e ∧ nowUtc < e) ∧
       users db !! userId = Some u ∧
       existsb (bookedOn timeSlotId) (appointments db) = false ∧
       let a := Appointment.mk userId doctorId (Some timeSlotId)
                  APPOINTMENT_STATUS.BOOKED (notesOrNull notes) in
       success (response o) = true ∧
       data (response o) = Some (AppointmentData (length (appointments db)) a) ∧
       timeSlots (store o) = <[timeSlotId := markBooked s]> (timeSlots db) ∧
       appointments (store o) = appointments db ++ [a] ∧
       users (store o) = <[userId := User.mk None]> (users db) ∧
       TimeSlot.status (markBooked s) = SLOT_STATUS.BOOKED ∧
       bookedOn timeSlotId a = true).
Proof.
  intros o.
  destruct (confirmBooking_cases doctorId timeSlotId notes userId nowUtc redis snap db)
    as [?|(slot & s & u & t & _ & _ & _ & _ & _ & _ & Hs & _ & Hh & Hu & Hx & Hr & Hst)];
    [by left|right].
  fold o in Hr, Hst. exists s, u.
  unfold heldBy in Hh. apply andb_true_iff in Hh as [Hh He].
  apply andb_true_iff in Hh as [H1 H2].
  apply bool_decide_eq_true in H1, H2.
  destruct (TimeSlot.lockExpires s) as [e|] eqn:E; [|done].
  apply Z.ltb_lt in He.
  rewrite Hr, Hst. simpl. repeat split; eauto.
  unfold bookedOn. simpl. by rewrite !bool_decide_eq_true_2.
Qed.

(** A throw inside the transaction is answered as a failure, is logged, and
    rolls the store back. *)
Lemma confirmBooking_rollback doctorId timeSlotId notes userId nowUtc redis snap db
    slot otpVerifiedUntil err :
  vA doctorId timeSlotId notes = None →
  timeSlots snap !! timeSlotId = Some slot →
  TimeSlot.doctorId slot = doctorId →
  users snap !! userId ≫= User.otpVerifiedUntil = Some otpVerifiedUntil →
  nowUtc < otpVerifiedUntil →
  heldBy userId nowUtc slot = true →
  confirmBooking_tx slot doctorId timeSlotId userId notes nowUtc db = inl err →
  confirmBooking vA doctorId timeSlotId notes userId nowUtc redis snap db
  = confirmBooking_catch err db.
Proof.
  intros V S D O G L T. unfold confirmBooking. rewrite V, S.
  rewrite (bool_decide_eq_true_2 _ D). simpl.
  assert (TimeSlot.status slot = SLOT_STATUS.LOCKED) as St.
  { unfold heldBy in L. apply andb_true_iff in L as [L _].
    apply andb_true_iff in L as [L _]. by apply bool_decide_eq_true in L. }
  rewrite bool_decide_eq_false_2 by (rewrite St; done).
  unfold otpRequired. rewrite O. apply Z.leb_gt in G. rewrite G, L. simpl.
  unfold Prisma.transaction. by rewrite T.
Qed.

End ConfirmBooking.

(** ** lockTimeSlot *)

(** What [lockTimeSlot] does, over all its inputs: a failure that writes
    nothing, or the lease written on a slot that was read as [AVAILABLE]. *)
Lemma lockTimeSlot_cases doctorId slotId userId nowUtc redis snap db :
  let o := lockTimeSlot doctorId slotId userId nowUtc redis snap db in
  (success (response o) = false ∧ store o = db)
  ∨ (∃ slot s,
       timeSlots snap !! slotId = Some slot ∧
       TimeSlot.doctorId slot = doctorId ∧
       TimeSlot.status slot = SLOT_STATUS.AVAILABLE ∧
       (Prisma.timeSlot_count (heldBy userId nowUtc) (timeSlots snap) < 3)%nat ∧
       timeSlots db !! slotId = Some s ∧
       TimeSlot.doctorId s = doctorId ∧
       lockable userId nowUtc s = true ∧
       response o = ok 200 "Slot locked"
                      (LockData slotId doctorId userId nowUtc (nowUtc + 5 * 60 * 1000)) ∧
       store o = mkDB (<[slotId := lockFor userId nowUtc s]> (timeSlots db))
                   (appointments db) (users db)).
Proof.
  cbv zeta. unfold lockTimeSlot.
  destruct (Prisma.timeSlot_findFirst _ _ _) as [slot|] eqn:F; [|by left].
  apply timeSlot_findFirst_Some in F as [F D].
  destruct (bool_decide (TimeSlot.status slot = SLOT_STATUS.BOOKED)) eqn:B; [by left|].
  destruct (bool_decide (TimeSlot.status slot = SLOT_STATUS.LOCKED)) eqn:L; [by left|].
  cbn [andb]. apply bool_decide_eq_false in B, L.
  match goal with |- context [Nat.leb 3 ?n] => destruct (Nat.leb 3 n) eqn:C end;
    [by left|]. apply Nat.leb_gt in C.
  destruct (Prisma.timeSlot_updateMany _ _ _ _) as [count slots] eqn:U.
  apply timeSlot_updateMany_spec in U as [(-> & s & Hs & Hc & ->)|(-> & -> & _)];
    [|by left].
  apply andb_true_iff in Hc as [Hd Hl]. apply bool_decide_eq_true in Hd.
  right. exists slot, s. simpl. repeat split; auto.
  destruct (TimeSlot.status slot); done.
Qed.

(** C1, as the code has it. A request that runs alone on a slot of the doctor
    that is [AVAILABLE]: when the caller holds fewer than three unexpired
    leases it acquires the lease (the answer is the lease, expiring five
    minutes after [nowUtc], and the slot row carries it); when the caller
    holds three or more it is refused with [429] and nothing is written. *)
Theorem lockTimeSlot_available doctorId slotId userId nowUtc redis db slot :
  timeSlots db !! slotId = Some slot →
  TimeSlot.doctorId slot = doctorId →
  TimeSlot.status slot = SLOT_STATUS.AVAILABLE →
  let o := lockTimeSlot doctorId slotId userId nowUtc redis db db in
  let unexpired := Prisma.timeSlot_count (heldBy userId nowUtc) (timeSlots db) in
  ((unexpired < 3)%nat →
   response o = ok 200 "Slot locked"
                  (LockData slotId doctorId userId nowUtc (nowUtc + 5 * 60 * 1000)) ∧
   store o = mkDB (<[slotId := lockFor userId nowUtc slot]> (timeSlots db))
               (appointments db) (users db) ∧
   TimeSlot.status (lockFor userId nowUtc slot) = SLOT_STATUS.LOCKED ∧
   TimeSlot.lockedBy (lockFor userId nowUtc slot) = Some userId ∧
   TimeSlot.lockExpires (lockFor userId nowUtc slot) = Some (nowUtc + 5 * 60 * 1000))
  ∧ ((3 <= unexpired)%nat →
     response o = fail 429 "Lock limit reached. Complete or release existing locks." None ∧
     store o = db ∧
     log o = []).
Proof.
  intros S D A. cbv zeta. unfold lockTimeSlot.
  assert (Prisma.timeSlot_findFirst slotId doctorId (timeSlots db) = Some slot) as ->
    by by apply timeSlot_findFirst_Some.
  rewrite A. cbn [bool_decide decide_rel andb].
  split.
  - intros C. apply Nat.leb_gt in C. rewrite C.
    unfold Prisma.timeSlot_updateMany. rewrite S.
    unfold lockable. rewrite A, (bool_decide_eq_true_2 _ D). simpl.
    done.
  - intros C. apply Nat.leb_le in C. rewrite C. done.
Qed.

(** The guard on [status === "LOCKED"] answers before the lease is looked at:
    neither an expired lease nor the caller's own lease is acquired. *)
Lemma lockTimeSlot_locked doctorId slotId userId nowUtc redis snap db slot :
  timeSlots snap !! slotId = Some slot →
  TimeSlot.doctorId slot = doctorId →
  TimeSlot.status slot = SLOT_STATUS.LOCKED →
  lockTimeSlot doctorId slotId userId nowUtc redis snap db
  = reply db (fail 409 "Time slot already locked" None).
Proof.
  intros S D L. unfold lockTimeSlot.
  assert (Prisma.timeSlot_findFirst slotId doctorId (timeSlots snap) = Some slot) as ->
    by by apply timeSlot_findFirst_Some.
  by rewrite L.
Qed.

(** The lock write of [rescheduleAppointment] has no such guard before it:
    its [OR] holds of an expired lease. *)
Lemma rescheduleLockable_expired userId nowUtc s e :
  TimeSlot.status s = SLOT_STATUS.LOCKED →
  TimeSlot.lockExpires s = Some e → e < nowUtc →
  rescheduleLockable userId nowUtc s = true.
Proof.
  intros L E H. unfold rescheduleLockable, expiredAt. rewrite L, E.
  apply Z.ltb_lt in H. rewrite H. done.
Qed.

(** C1, as stated, fails on the code. A user who holds three unexpired leases
    is refused an [AVAILABLE] slot ([429]); a lease that expired a minute ago
    is refused to another user, and the holder of a lease is refused the same
    slot again, both with [409]. *)
Lemma lockTimeSlot_refusals :
  (TimeSlot.status <$> timeSlots Scenario.dbCap !! 13%nat = Some SLOT_STATUS.AVAILABLE ∧
   response (lockTimeSlot 1 13 7 Scenario.t0 Scenario.redisUp Scenario.dbCap Scenario.dbCap)
   = fail 429 "Lock limit reached. Complete or release existing locks." None)
  ∧ (timeSlots Scenario.db1 !! 10%nat
     = Some (lockFor 7 Scenario.t0 (Scenario.freeSlot 1 100 "09:00" "09:30")) ∧
     TimeSlot.lockExpires (lockFor 7 Scenario.t0 (Scenario.freeSlot 1 100 "09:00" "09:30"))
     = Some (Scenario.at_ 90 10 5) ∧
     response (lockTimeSlot 1 10 8 (Scenario.at_ 90 10 6) Scenario.redisUp
                 Scenario.db1 Scenario.db1)
     = fail 409 "Time slot already locked" None ∧
     response (lockTimeSlot 1 10 7 (Scenario.at_ 90 10 1) Scenario.redisUp
                 Scenario.db1 Scenario.db1)
     = fail 409 "Time slot already locked" None).
Proof. vm_compute. repeat split; reflexivity. Qed.

Lemma lockTimeSlot_available_witness :
  response (lockTimeSlot 1 10 7 Scenario.t0 Scenario.redisDown Scenario.db0 Scenario.db0)
  = ok 200 "Slot locked" (LockData 10 1 7 Scenario.t0 (Scenario.t0 + 5 * 60 * 1000))
  ∧ (response (lockTimeSlot 1 13 7 Scenario.t0 Scenario.redisUp Scenario.dbCap Scenario.dbCap)
     = fail 429 "Lock limit reached. Complete or release existing locks." None
     ∧ store (lockTimeSlot 1 13 7 Scenario.t0 Scenario.redisUp Scenario.dbCap Scenario.dbCap)
       = Scenario.dbCap).
Proof.
  split.
  - refine (proj1 (proj1 (lockTimeSlot_available 1 10 7 Scenario.t0 Scenario.redisDown
                            Scenario.db0 (Scenario.freeSlot 1 100 "09:00" "09:30") _ _ _) _)).
    + vm_compute. reflexivity.
    + reflexivity.
    + reflexivity.
    + vm_compute. lia.
  - refine (let H := proj2 (lockTimeSlot_available 1 13 7 Scenario.t0 Scenario.redisUp
                               Scenario.dbCap (Scenario.freeSlot 1 100 "10:30" "11:00")
                               _ _ _) _ in
            conj (proj1 H) (proj1 (proj2 H))).
    + vm_compute. reflexivity.
    + reflexivity.
    + reflexivity.
    + vm_compute. lia.
Defined.

(** ** The lease clock and the OTP gate *)

Section Gates.

Variable vA : nat -> nat -> option string -> option string.

Lemma heldBy_expires userId nowUtc s :
  heldBy userId nowUtc s = true →
  TimeSlot.status s = SLOT_STATUS.LOCKED ∧ TimeSlot.lockedBy s = Some userId ∧
  ∃ e, TimeSlot.lockExpires s = Some e ∧ nowUtc < e.
Proof.
  unfold heldBy. rewrite !andb_true_iff, !bool_decide_eq_true.
  intros [[H1 H2] H3]. destruct (TimeSlot.lockExpires s) as [e|]; [|done].
  apply Z.ltb_lt in H3. eauto.
Qed.

Lemma heldBy_expired userId nowUtc s e :
  TimeSlot.lockExpires s = Some e → e <= nowUtc → heldBy userId nowUtc s = false.
Proof.
  intros E H. destruct (heldBy userId nowUtc s) eqn:Hh; [|done].
  apply heldBy_expires in Hh as (_ & _ & e' & E' & ?).
  rewrite E in E'. injection E' as <-. lia.
Qed.

(** With the lease of the slot it reads run out, [confirmBooking] stops at a
    check before the transaction. *)
Lemma confirmBooking_expired doctorId timeSlotId notes userId nowUtc redis snap db slot e :
  timeSlots snap !! timeSlotId = Some slot →
  TimeSlot.status slot = SLOT_STATUS.LOCKED →
  TimeSlot.lockExpires slot = Some e → e <= nowUtc →
  let o := confirmBooking vA doctorId timeSlotId notes userId nowUtc redis snap db in
  success (response o) = false ∧ store o = db ∧
  (vA doctorId timeSlotId notes = None → TimeSlot.doctorId slot = doctorId →
   response o = (if otpRequired (users snap) userId nowUtc
                 then fail 403 "OTP verification required" (Some "OTP_REQUIRED")
                 else fail 409 "Slot is not locked by you or lock has expired"
                        (Some "LOCK_INVALID"))).
Proof.
  intros S L E H. cbv zeta. unfold confirmBooking. rewrite S, L.
  rewrite (heldBy_expired userId nowUtc slot e E H).
  destruct (vA _ _ _); [repeat split; done|].
  destruct (bool_decide (TimeSlot.doctorId slot = doctorId)) eqn:D; simpl.
  - destruct (otpRequired _ _ _); repeat split; done.
  - apply bool_decide_eq_false in D. repeat split; done.
Qed.

(** With the lease of the slot run out when the transaction runs, the
    transaction throws, whatever was read before it. *)
Lemma confirmBooking_tx_expired slot0 doctorId timeSlotId userId notes nowUtc db s e :
  timeSlots db !! timeSlotId = Some s →
  TimeSlot.lockExpires s = Some e → e <= nowUtc →
  ∃ c m, confirmBooking_tx slot0 doctorId timeSlotId userId notes nowUtc db
         = inl (Thrown c m) ∧
         c ∈ ["SLOT_IN_PAST"; "SLOT_ALREADY_STARTED"; "CONFLICT_SLOT_STATE"]%string.
Proof.
  intros S E H. unfold confirmBooking_tx. cbv zeta.
  destruct (_ <? _); [eexists _, _; split; [done|set_solver]|].
  destruct (_ && _); [eexists _, _; split; [done|set_solver]|].
  unfold Prisma.timeSlot_updateMany. rewrite S.
  rewrite (heldBy_expired userId nowUtc s e E H), andb_false_r. simpl.
  eexists _, _; split; [done|set_solver].
Qed.

(** C6, as the code has it. A lease that [lockTimeSlot] grants at [T] is
    written with [lockExpires = T + 5 min]. At every [nowUtc >= T + 5 min],
    [confirmBooking] on a slot that still carries that lease fails and writes
    nothing; for a well-formed body naming the doctor of the slot the failure
    is [OTP_REQUIRED] when the caller's gate is not open and [LOCK_INVALID]
    otherwise. If the lease is what the transaction finds, whatever was read
    before, the transaction throws [SLOT_IN_PAST], [SLOT_ALREADY_STARTED] or
    [CONFLICT_SLOT_STATE]. The slot never becomes [BOOKED]. *)
Theorem lease_expiry doctorId slotId userId T redis snap db :
  let o := lockTimeSlot doctorId slotId userId T redis snap db in
  success (response o) = true →
  ∃ slot lease,
    timeSlots db !! slotId = Some slot ∧
    lease = lockFor userId T slot ∧
    timeSlots (store o) !! slotId = Some lease ∧
    TimeSlot.lockExpires lease = Some (T + 5 * 60 * 1000) ∧
    ∀ nowUtc, T + 5 * 60 * 1000 <= nowUtc →
      (∀ d notes u redis' snap' db',
         timeSlots snap' !! slotId = Some lease →
         let o' := confirmBooking vA d slotId notes u nowUtc redis' snap' db' in
         success (response o') = false ∧ store o' = db' ∧
         (vA d slotId notes = None → d = doctorId →
          (otpRequired (users snap') u nowUtc = true →
           response o' = fail 403 "OTP verification required" (Some "OTP_REQUIRED"))
          ∧ (otpRequired (users snap') u nowUtc = false →
             response o' = fail 409 "Slot is not locked by you or lock has expired"
                             (Some "LOCK_INVALID"))))
      ∧ (∀ slot0 d notes u db',
           timeSlots db' !! slotId = Some lease →
           ∃ c m, confirmBooking_tx slot0 d slotId u notes nowUtc db' = inl (Thrown c m) ∧
                  c ∈ ["SLOT_IN_PAST"; "SLOT_ALREADY_STARTED"; "CONFLICT_SLOT_STATE"]%string).
Proof.
  intros o Hok.
  destruct (lockTimeSlot_cases doctorId slotId userId T redis snap db)
    as [[Hf _]|(slot & s & _ & _ & _ & _ & Hs & Hd & _ & _ & Hst)];
    fold o in Hf || fold o in Hst; [congruence|].
  exists s, (lockFor userId T s). rewrite Hst. simpl.
  rewrite lookup_insert_eq. do 4 (split; [done|]).
  intros nowUtc Hn. split.
  - intros d notes u redis' snap' db' Hl.
    destruct (confirmBooking_expired d slotId notes u nowUtc redis' snap' db'
                (lockFor userId T s) (T + 5 * 60 * 1000)) as (Hf & Hu & R); try done.
    split; [exact Hf|]. split; [exact Hu|].
    intros V ->. rewrite (R V Hd). split; intros ->; done.
  - intros slot0 d notes u db' Hl.
    by apply (confirmBooking_tx_expired slot0 d slotId u notes nowUtc db'
                (lockFor userId T s) (T + 5 * 60 * 1000)).
Qed.

(** C7, as the code has it. [confirmBooking] succeeds only while
    [nowUtc < otpVerifiedUntil]; with the gate not open it fails and writes
    nothing, and the failure is [OTP_REQUIRED] when the body is well formed
    and the slot is one of the doctor's that is not [BOOKED] (a missing or
    booked slot is reported first). A success clears [otpVerifiedUntil], so
    the same holds of any attempt the user makes next without verifying
    again. *)
Theorem otp_gate doctorId timeSlotId notes userId nowUtc redis snap db :
  let o := confirmBooking vA doctorId timeSlotId notes userId nowUtc redis snap db in
  let refused (d t : nat) (n : option string) (read s : DB) (o' : Outcome) :=
    success (response o') = false ∧ store o' = s ∧
    (vA d t n = None → ∀ slot, timeSlots read !! t = Some slot →
     TimeSlot.doctorId slot = d → TimeSlot.status slot ≠ SLOT_STATUS.BOOKED →
     response o' = fail 403 "OTP verification required" (Some "OTP_REQUIRED")) in
  (success (response o) = true →
   ∃ otpVerifiedUntil,
     users snap !! userId ≫= User.otpVerifiedUntil = Some otpVerifiedUntil ∧
     nowUtc < otpVerifiedUntil)
  ∧ (otpRequired (users snap) userId nowUtc = true →
     refused doctorId timeSlotId notes snap db o)
  ∧ (success (response o) = true →
     users (store o) !! userId = Some (User.mk None) ∧
     ∀ d t n now' redis',
       refused d t n (store o) (store o)
         (confirmBooking vA d t n userId now' redis' (store o) (store o))).
Proof.
  assert (∀ d t n now' redis' read s,
            otpRequired (users read) userId now' = true →
            let o' := confirmBooking vA d t n userId now' redis' read s in
            success (response o') = false ∧ store o' = s ∧
            (vA d t n = None → ∀ slot, timeSlots read !! t = Some slot →
             TimeSlot.doctorId slot = d → TimeSlot.status slot ≠ SLOT_STATUS.BOOKED →
             response o' = fail 403 "OTP verification required" (Some "OTP_REQUIRED")))
    as Hrefused.
  { intros d t n now' redis' read s G. cbv zeta.
    destruct (confirmBooking_cases vA d t n userId now' redis' read s)
      as [[Hf Hs]|(slot & _ & _ & ot & _ & _ & _ & O & Hlt & _)].
    - split; [done|]. split; [done|]. intros V slot S D B.
      unfold confirmBooking. rewrite V, S, G.
      rewrite (bool_decide_eq_true_2 _ D), (bool_decide_eq_false_2 _ B). done.
    - unfold otpRequired in G. rewrite O in G. apply Z.leb_le in G. lia. }
  intros o refused.
  destruct (confirmBooking_cases vA doctorId timeSlotId notes userId nowUtc redis snap db)
    as [[Hf Hs]|(slot & s & u & ot & _ & _ & _ & O & Hlt & _ & _ & _ & _ & Hu & _ & Hr & Hst)];
    fold o in Hf, Hs || fold o in Hr, Hst.
  - split; [congruence|]. split; [|congruence].
    intros G. apply Hrefused, G.
  - split; [eauto|]. split.
    + intros G. unfold otpRequired in G. rewrite O in G. apply Z.leb_le in G. lia.
    + intros _. rewrite Hst. simpl. rewrite lookup_insert_eq. split; [done|].
      intros d t n now' redis'. apply Hrefused.
      unfold otpRequired. simpl. by rewrite lookup_insert_eq.
Qed.

End Gates.

(** C6, as stated, fails on the code: user 9, who has verified no passcode,
    locks slot 10 at 10:00 and confirms at 10:05, when the lease has run out;
    the failure is [OTP_REQUIRED]. *)
Lemma expired_lease_otp_required :
  let locked := lockTimeSlot 1 10 9 Scenario.t0 Scenario.redisUp Scenario.db0 Scenario.db0 in
  let o := Scenario.confirmBooking 1 10 None 9 (Scenario.t0 + 5 * 60 * 1000)
             Scenario.redisUp (store locked) (store locked) in
  success (response locked) = true ∧
  response o = fail 403 "OTP verification required" (Some "OTP_REQUIRED") ∧
  code (response o) ≠ Some "LOCK_INVALID"%string ∧
  code (response o) ≠ Some "CONFLICT_SLOT_STATE"%string.
Proof. vm_compute. repeat split; congruence. Qed.

Lemma lease_expiry_witness :
  let o := Scenario.confirmBooking 1 10 None 7 (Scenario.at_ 90 10 5) Scenario.redisUp
             Scenario.db1 Scenario.db1 in
  let o' := Scenario.confirmBooking 1 10 None 7 (Scenario.at_ 90 10 5) Scenario.redisUp
              Scenario.dbGate Scenario.dbGate in
  (success (response o) = false ∧ store o = Scenario.db1 ∧
   response o = fail 403 "OTP verification required" (Some "OTP_REQUIRED"))
  ∧ (store o' = Scenario.dbGate ∧
     response o' = fail 409 "Slot is not locked by you or lock has expired"
                     (Some "LOCK_INVALID")).
Proof.
  destruct (lease_expiry Scenario.validateAppointment 1 10 7 Scenario.t0 Scenario.redisUp
              Scenario.db0 Scenario.db0 eq_refl)
    as (slot & lease & _ & _ & Hl & _ & H).
  destruct (H (Scenario.at_ 90 10 5) ltac:(vm_compute; congruence)) as [Hc _].
  split.
  - destruct (Hc 1%nat None 7%nat Scenario.redisUp Scenario.db1 Scenario.db1 Hl)
      as (Hf & Hs & Hr).
    destruct (Hr eq_refl eq_refl) as [Ho _].
    split; [exact Hf|]. split; [exact Hs|]. apply Ho. vm_compute. reflexivity.
  - destruct (Hc 1%nat None 7%nat Scenario.redisUp Scenario.dbGate Scenario.dbGate Hl)
      as (_ & Hs & Hr).
    destruct (Hr eq_refl eq_refl) as [_ Hi].
    split; [exact Hs|]. apply Hi. vm_compute. reflexivity.
Defined.

(** C7, as stated, fails on the code: user 7 books slot 10 and at once asks
    for the same booking again; the gate is cleared, yet the failure is
    [SLOT_ALREADY_BOOKED], which is checked before the gate. *)
Lemma retry_after_booking_not_otp_required :
  let booked := Scenario.confirmBooking 1 10 None 7 (Scenario.at_ 90 10 1) Scenario.redisUp
                  Scenario.db1 Scenario.db1 in
  let o := Scenario.confirmBooking 1 10 None 7 (Scenario.at_ 90 10 1) Scenario.redisUp
             (store booked) (store booked) in
  success (response booked) = true ∧
  users (store booked) !! 7%nat = Some (User.mk None) ∧
  response o = fail 409 "Time slot already booked" (Some "SLOT_ALREADY_BOOKED") ∧
  code (response o) ≠ Some "OTP_REQUIRED"%string.
Proof. vm_compute. repeat split; congruence. Qed.

Lemma otp_gate_witness :
  let o := Scenario.confirmBooking 1 11 None 7 (Scenario.at_ 90 10 2) Scenario.redisUp
             Scenario.db2 Scenario.db2 in
  response o = fail 403 "OTP verification required" (Some "OTP_REQUIRED") ∧
  store o = Scenario.db2.
Proof.
  destruct (otp_gate Scenario.validateAppointment 1 10 None 7 (Scenario.at_ 90 10 1)
              Scenario.redisUp Scenario.db1 Scenario.db1) as (_ & _ & H).
  destruct (H eq_refl) as [_ H'].
  destruct (H' 1%nat 11%nat None (Scenario.at_ 90 10 2) Scenario.redisUp) as (_ & Hs & Hr).
  split; [|exact Hs].
  apply (Hr eq_refl (Scenario.freeSlot 1 100 "09:30" "10:00")).
  - vm_compute. reflexivity.
  - reflexivity.
  - discriminate.
Defined.

(** ** cancelAppointment *)

Lemma cancelAppointment_tx_commit id appt timeSlot isMoreThan24h db r db' :
  cancelAppointment_tx id appt timeSlot isMoreThan24h db = inr (r, db') →
  ∃ a,
    appointments db !! id = Some a ∧
    r = (APPOINTMENT_STATUS.CANCELLED, Appointment.timeSlotId a) ∧
    appointments db' = <[id := setStatus APPOINTMENT_STATUS.CANCELLED a]> (appointments db) ∧
    users db' = users db ∧
    ((∃ s timeSlotId s',
        timeSlot = Some s ∧ Appointment.timeSlotId appt = Some timeSlotId ∧
        isMoreThan24h = true ∧ TimeSlot.status s = SLOT_STATUS.BOOKED ∧
        timeSlots db !! timeSlotId = Some s' ∧
        timeSlots db' = <[timeSlotId := releaseOnCancel s']> (timeSlots db))
     ∨ timeSlots db' = timeSlots db).
Proof.
  unfold cancelAppointment_tx. cbv zeta.
  set (released := match timeSlot with Some _ => _ | None => _ end).
  destruct released as [slots|] eqn:R; [|done].
  destruct (Prisma.appointment_update _ _ _) as [appts|] eqn:U; [|done].
  apply appointment_update_spec in U as (a & Ha & ->).
  intros [= <- <-]. exists a. simpl.
  assert (id < length (appointments db))%nat by (by eapply lookup_lt_Some).
  rewrite list_lookup_insert_eq by done. simpl.
  repeat split; try done.
  subst released.
  destruct timeSlot as [s|]; [|right; congruence].
  destruct (Appointment.timeSlotId appt) as [timeSlotId|]; [|right; congruence].
  destruct isMoreThan24h; [|right; simpl in R; congruence].
  destruct (bool_decide (TimeSlot.status s = SLOT_STATUS.BOOKED)) eqn:B;
    [|right; simpl in R; congruence].
  simpl in R. apply bool_decide_eq_true in B.
  apply timeSlot_update_spec in R as (s' & Hs' & ->).
  left. exists s, timeSlotId, s'. done.
Qed.

Lemma cancelAppointment_cases id userId nowUtc redis snap db :
  let o := cancelAppointment id userId nowUtc redis snap db in
  (success (response o) = false ∧ store o = db)
  ∨ (∃ appt a,
       appointments snap !! id = Some appt ∧
       Appointment.userId appt = userId ∧
       Appointment.status appt = APPOINTMENT_STATUS.BOOKED ∧
       appointments db !! id = Some a ∧
       success (response o) = true ∧
       appointments (store o)
       = <[id := setStatus APPOINTMENT_STATUS.CANCELLED a]> (appointments db) ∧
       users (store o) = users db ∧
       ((∃ s timeSlotId s',
           timeSlots snap !! timeSlotId = Some s ∧
           Appointment.timeSlotId appt = Some timeSlotId ∧
           24 * 60 * 60 * 1000
           < getUtcDateTime (TimeSlot.date s) (TimeSlot.startTime s) - nowUtc ∧
           TimeSlot.status s = SLOT_STATUS.BOOKED ∧
           timeSlots db !! timeSlotId = Some s' ∧
           timeSlots (store o) = <[timeSlotId := releaseOnCancel s']> (timeSlots db))
        ∨ timeSlots (store o) = timeSlots db)).
Proof.
  cbv zeta. unfold cancelAppointment.
  destruct (Prisma.appointment_findFirst _ _ _) as [appt|] eqn:F; [|by left].
  apply appointment_findFirst_Some in F as [F Hu].
  destruct (negb _) eqn:B; [by left|].
  apply negb_false_iff, bool_decide_eq_true in B.
  destruct (Prisma.transaction _ db) as [[e|[st ts]] db'] eqn:T.
  - apply transaction_rollback in T as [-> _]. by left.
  - apply transaction_commit, cancelAppointment_tx_commit in T
      as (a & Ha & [= -> ->] & Happ & Hus & Hsl).
    right. exists appt, a. simpl. repeat split; try done.
    destruct Hsl as [(s & timeSlotId & s' & Hts & Hid & H24 & Hb & Hs' & Hst)|Hst];
      [left|by right].
    exists s, timeSlotId, s'. rewrite Hid in Hts. simpl in Hts.
    rewrite Hid in H24. simpl in H24. rewrite Hts in H24.
    apply Z.ltb_lt in H24. done.
Qed.

(** C5, as the code has it. Cancelling a [BOOKED] appointment of the caller,
    on its own, always sets the appointment to [CANCELLED]. The slot is
    released to [AVAILABLE] when its start is more than 24 hours after
    [nowUtc] and the slot is [BOOKED]; at 24 hours or less (24h0m0s included),
    or when the slot is not [BOOKED], no slot row is written. *)
Theorem cancelAppointment_policy id userId nowUtc redis db appt timeSlotId slot :
  appointments db !! id = Some appt →
  Appointment.userId appt = userId →
  Appointment.status appt = APPOINTMENT_STATUS.BOOKED →
  Appointment.timeSlotId appt = Some timeSlotId →
  timeSlots db !! timeSlotId = Some slot →
  let apptStartUtc := getUtcDateTime (TimeSlot.date slot) (TimeSlot.startTime slot) in
  let o := cancelAppointment id userId nowUtc redis db db in
  success (response o) = true ∧
  appointments (store o)
  = <[id := setStatus APPOINTMENT_STATUS.CANCELLED appt]> (appointments db) ∧
  appointments (store o) !! id = Some (setStatus APPOINTMENT_STATUS.CANCELLED appt) ∧
  (24 * 60 * 60 * 1000 < apptStartUtc - nowUtc →
   TimeSlot.status slot = SLOT_STATUS.BOOKED →
   timeSlots (store o) = <[timeSlotId := releaseOnCancel slot]> (timeSlots db) ∧
   TimeSlot.status (releaseOnCancel slot) = SLOT_STATUS.AVAILABLE) ∧
  (apptStartUtc - nowUtc <= 24 * 60 * 60 * 1000 → timeSlots (store o) = timeSlots db) ∧
  (TimeSlot.status slot ≠ SLOT_STATUS.BOOKED → timeSlots (store o) = timeSlots db).
Proof.
  intros Ha Hu Hb Hid Hs. cbv zeta. unfold cancelAppointment.
  assert (Prisma.appointment_findFirst id userId (appointments db) = Some appt) as ->
    by by apply appointment_findFirst_Some.
  rewrite Hb, Hid. simpl. rewrite Hs.
  assert (id < length (appointments db))%nat as Hlt by (by eapply lookup_lt_Some).
  unfold Prisma.transaction, cancelAppointment_tx. rewrite Hid.
  unfold Prisma.appointment_update, Prisma.timeSlot_update. rewrite Ha, Hs.
  destruct (24 * 60 * 60 * 1000 <? _) eqn:H24;
    [apply Z.ltb_lt in H24|apply Z.ltb_ge in H24].
  - destruct (bool_decide (TimeSlot.status slot = SLOT_STATUS.BOOKED)) eqn:B;
      [apply bool_decide_eq_true in B|apply bool_decide_eq_false in B]; simpl;
      rewrite list_lookup_insert_eq by done;
      repeat split; try done; try lia.
  - simpl. rewrite list_lookup_insert_eq by done.
    repeat split; try done; try lia.
Qed.

(** C5, as stated, fails on the code: appointment 0 is [BOOKED], its slot
    starts ten days ahead and is [LOCKED] (by user 8); the cancellation
    succeeds and the slot is not released. *)
Lemma cancelAppointment_slot_not_booked :
  let db := Scenario.dbRelocked in
  let nowUtc := Scenario.at_ 90 10 4 in
  let o := cancelAppointment 0 7 nowUtc Scenario.redisUp db db in
  Appointment.status <$> appointments db !! 0%nat = Some APPOINTMENT_STATUS.BOOKED ∧
  Appointment.timeSlotId <$> appointments db !! 0%nat = Some (Some 10%nat) ∧
  24 * 60 * 60 * 1000 < getUtcDateTime (Scenario.day 100) "09:00" - nowUtc ∧
  success (response o) = true ∧
  TimeSlot.status <$> timeSlots (store o) !! 10%nat = Some SLOT_STATUS.LOCKED ∧
  timeSlots (store o) = timeSlots db.
Proof. vm_compute. repeat split; reflexivity. Qed.

Lemma cancelAppointment_policy_witness :
  let o := cancelAppointment 0 7 (Scenario.at_ 90 10 2) Scenario.redisUp
             Scenario.db2 Scenario.db2 in
  timeSlots (store o)
  = <[10%nat := releaseOnCancel (markBooked (Scenario.freeSlot 1 100 "09:00" "09:30"))]>
      (timeSlots Scenario.db2).
Proof.
  refine (proj1 (proj1 (proj2 (proj2 (proj2
    (cancelAppointment_policy 0 7 (Scenario.at_ 90 10 2) Scenario.redisUp Scenario.db2
       (Appointment.mk 7 1 (Some 10%nat) APPOINTMENT_STATUS.BOOKED None) 10
       (markBooked (Scenario.freeSlot 1 100 "09:00" "09:30")) _ _ _ _ _)))) _ _)).
  - vm_compute. reflexivity.
  - reflexivity.
  - reflexivity.
  - reflexivity.
  - vm_compute. reflexivity.
  - vm_compute. reflexivity.
  - reflexivity.
Defined.

(** Exactly 24h0m0s before the start: the slot is kept. *)
Example cancelAppointment_at_24h :
  let nowUtc := Scenario.at_ 99 9 0 in
  let o := cancelAppointment 0 7 nowUtc Scenario.redisUp Scenario.db2 Scenario.db2 in
  getUtcDateTime (Scenario.day 100) "09:00" - nowUtc = 24 * 60 * 60 * 1000 ∧
  response o = ok 200 "Appointment cancelled"
                 (CancelData 0 APPOINTMENT_STATUS.CANCELLED (Some 10%nat) false) ∧
  timeSlots (store o) = timeSlots Scenario.db2 ∧
  TimeSlot.status <$> timeSlots (store o) !! 10%nat = Some SLOT_STATUS.BOOKED.
Proof. vm_compute. repeat split; reflexivity. Qed.

(** One millisecond earlier the slot is released. *)
Example cancelAppointment_before_24h :
  let nowUtc := Scenario.at_ 99 9 0 - 1 in
  let o := cancelAppointment 0 7 nowUtc Scenario.redisUp Scenario.db2 Scenario.db2 in
  TimeSlot.status <$> timeSlots (store o) !! 10%nat = Some SLOT_STATUS.AVAILABLE.
Proof. vm_compute. reflexivity. Qed.

(** ** confirmReschedule *)

(** The appointment table after the swap: the old row retired, the new row
    appended with id [length appts], every other row on the new slot
    detached. *)
Lemma confirmReschedule_tx_commit appointmentId newSlotId oldSlotId doctorId userId appt
    nowUtc db r db' :
  confirmReschedule_tx appointmentId newSlotId oldSlotId doctorId userId appt nowUtc db
  = inr (r, db') →
  ∃ newSlot oldSlot a,
    timeSlots db !! newSlotId = Some newSlot ∧
    TimeSlot.doctorId newSlot = doctorId ∧
    heldBy userId nowUtc newSlot = true ∧
    nowUtc < getUtcDateTime (TimeSlot.date newSlot) (TimeSlot.startTime newSlot) ∧
    appointments db !! appointmentId = Some a ∧
    <[newSlotId := markBooked newSlot]> (timeSlots db) !! oldSlotId = Some oldSlot ∧
    let created :=
      Appointment.mk (Appointment.userId appt) (Appointment.doctorId appt)
        (Some newSlotId) APPOINTMENT_STATUS.BOOKED (Appointment.notes appt) in
    let id := length (appointments db) in
    r = (id, created) ∧
    db' = mkDB
            (<[oldSlotId := releaseOnReschedule oldSlot]>
               (<[newSlotId := markBooked newSlot]> (timeSlots db)))
            (Prisma.appointment_updateMany
               (fun i x => bool_decide (Appointment.timeSlotId x = Some newSlotId)
                           && negb (i =? id)%nat)
               detach
               (<[appointmentId := setStatus APPOINTMENT_STATUS.RESCHEDULED a]>
                  (appointments db) ++ [created]))
            (users db).
Proof.
  unfold confirmReschedule_tx.
  destruct (Prisma.timeSlot_findFirst _ _ _) as [newSlot|] eqn:F; [|done].
  apply timeSlot_findFirst_Some in F as [F D].
  destruct (_ || _); [done|].
  destruct (_ <=? nowUtc) eqn:P; [done|]. apply Z.leb_gt in P.
  destruct (Prisma.timeSlot_updateMany _ _ _ _) as [count slots] eqn:U.
  apply timeSlot_updateMany_spec in U as [(-> & s & Hs & Hc & ->)|(-> & -> & _)];
    [|done].
  rewrite F in Hs. injection Hs as <-. simpl.
  destruct (Prisma.appointment_update _ _ _) as [appts|] eqn:A; [|done].
  apply appointment_update_spec in A as (a & Ha & ->).
  destruct (Prisma.timeSlot_update _ _ _) as [slots'|] eqn:O; [|done].
  apply timeSlot_update_spec in O as (oldSlot & Ho & ->).
  unfold Prisma.appointment_create. rewrite length_insert.
  intros [= <- <-]. exists newSlot, oldSlot, a. done.
Qed.

Section ConfirmReschedule.

Variable vR : nat -> nat -> nat -> nat -> option string.

Lemma confirmReschedule_cases appointmentId newSlotId oldSlotId doctorId userId nowUtc
    redis snap db :
  let o := confirmReschedule vR appointmentId newSlotId oldSlotId doctorId userId nowUtc
             redis snap db in
  (success (response o) = false ∧ store o = db)
  ∨ (∃ appt newSlot oldSlot a,
       appointments snap !! appointmentId = Some appt ∧
       Appointment.userId appt = userId ∧
       Appointment.status appt = APPOINTMENT_STATUS.BOOKED ∧
       Appointment.doctorId appt = doctorId ∧
       Appointment.timeSlotId appt = Some oldSlotId ∧
       oldSlotId ≠ newSlotId ∧
       timeSlots db !! newSlotId = Some newSlot ∧
       TimeSlot.doctorId newSlot = doctorId ∧
       heldBy userId nowUtc newSlot = true ∧
       timeSlots db !! oldSlotId = Some oldSlot ∧
       appointments db !! appointmentId = Some a ∧
       let created :=
         Appointment.mk userId doctorId (Some newSlotId) APPOINTMENT_STATUS.BOOKED
           (Appointment.notes appt) in
       let id := length (appointments db) in
       (response o = ok 200 "Reschedule confirmed" (AppointmentData id created)
        ∨ (purgeAfterReschedule redis userId appointmentId id = false ∧
           response o = internalError)) ∧
       store o
       = mkDB
           (<[oldSlotId := releaseOnReschedule oldSlot]>
              (<[newSlotId := markBooked newSlot]> (timeSlots db)))
           (Prisma.appointment_updateMany
              (fun i x => bool_decide (Appointment.timeSlotId x = Some newSlotId)
                          && negb (i =? id)%nat)
              detach
              (<[appointmentId := setStatus APPOINTMENT_STATUS.RESCHEDULED a]>
                 (appointments db) ++ [created]))
           (users db)).
Proof.
  cbv zeta. unfold confirmReschedule.
  destruct (vR _ _ _ _); [by left|].
  destruct (Prisma.appointment_findFirst _ _ _) as [appt|] eqn:F; [|by left].
  apply appointment_findFirst_Some in F as [F Hu].
  destruct (negb (bool_decide (Appointment.status appt = _))) eqn:B; [by left|].
  apply negb_false_iff, bool_decide_eq_true in B.
  destruct (negb (bool_decide (Appointment.doctorId appt = _))) eqn:D; [by left|].
  apply negb_false_iff, bool_decide_eq_true in D.
  destruct (negb (bool_decide (Appointment.timeSlotId appt = _))) eqn:O; [by left|].
  apply negb_false_iff, bool_decide_eq_true in O.
  destruct (bool_decide (oldSlotId = newSlotId)) eqn:N; [by left|].
  apply bool_decide_eq_false in N.
  destruct (Prisma.transaction _ db) as [[e|[id created]] db'] eqn:T.
  - apply transaction_rollback in T as [-> _]. left.
    unfold confirmReschedule_catch. split; [|done].
    destruct e as [c m|]; [|done]. simpl.
    destruct (confirmReschedule_errorMap c) as [[? ?]|]; done.
  - apply transaction_commit, confirmReschedule_tx_commit in T
      as (newSlot & oldSlot & a & Hn & Hd & Hh & _ & Ha & Ho & [= -> ->] & ->).
    rewrite lookup_insert_ne in Ho by done.
    right. exists appt, newSlot, oldSlot, a. rewrite Hu, D.
    split_and!; try done.
    destruct (purgeAfterReschedule _ _ _ _) eqn:P; [by left|by right].
    by destruct (purgeAfterReschedule _ _ _ _).
Qed.

(** C4. [confirmReschedule] is all or nothing. Over every execution the store
    is either exactly as it was, or the whole swap is in it. When the
    transaction throws ([NEW_SLOT_NOT_FOUND], [NEW_SLOT_NOT_LOCKED_BY_USER],
    [SLOT_ALREADY_STARTED_OR_PAST], [CONFLICT_NEW_SLOT] when the write that
    books the new slot matches no row, or a rejected update) the answer is a
    failure and nothing is written: the old appointment is still [BOOKED],
    the old slot row is as it was, and there is no new appointment row. *)
Theorem confirmReschedule_all_or_nothing appointmentId newSlotId oldSlotId doctorId userId
    nowUtc redis snap db :
  let o := confirmReschedule vR appointmentId newSlotId oldSlotId doctorId userId nowUtc
             redis snap db in
  (store o = db
   ∨ ∃ appt newSlot oldSlot a,
       appointments snap !! appointmentId = Some appt ∧
       timeSlots db !! newSlotId = Some newSlot ∧
       timeSlots db !! oldSlotId = Some oldSlot ∧
       appointments db !! appointmentId = Some a ∧
       let created :=
         Appointment.mk userId doctorId (Some newSlotId) APPOINTMENT_STATUS.BOOKED
           (Appointment.notes appt) in
       timeSlots (store o)
       = <[oldSlotId := releaseOnReschedule oldSlot]>
           (<[newSlotId := markBooked newSlot]> (timeSlots db)) ∧
       appointments (store o)
       = Prisma.appointment_updateMany
           (fun i x => bool_decide (Appointment.timeSlotId x = Some newSlotId)
                       && negb (i =? length (appointments db))%nat)
           detach
           (<[appointmentId := setStatus APPOINTMENT_STATUS.RESCHEDULED a]>
              (appointments db) ++ [created]) ∧
       users (store o) = users db)
  ∧ (∀ appt err,
       Prisma.appointment_findFirst appointmentId userId (appointments snap) = Some appt →
       confirmReschedule_tx appointmentId newSlotId oldSlotId doctorId userId appt nowUtc db
       = inl err →
       success (response o) = false ∧ store o = db ∧
       (snap = db → Appointment.status appt = APPOINTMENT_STATUS.BOOKED →
        appointments (store o) !! appointmentId = Some appt ∧
        timeSlots (store o) !! oldSlotId = timeSlots db !! oldSlotId ∧
        length (appointments (store o)) = length (appointments db))).
Proof.
  intros o. split.
  - destruct (confirmReschedule_cases appointmentId newSlotId oldSlotId doctorId userId
                nowUtc redis snap db)
      as [[_ ?]|(appt & newSlot & oldSlot & a & Hap & _ & _ & _ & _ & _ & Hn & _ & _ & Ho & Ha
                 & _ & Hst)]; [by left|right].
    fold o in Hst. rewrite Hst. simpl.
    exists appt, newSlot, oldSlot, a. split_and!; done.
  - intros appt err F T.
    assert (success (response o) = false ∧ store o = db) as [Hf Hs].
    { subst o. unfold confirmReschedule. rewrite F.
      destruct (vR _ _ _ _); [by split|].
      do 3 (destruct (negb _); [by split|]).
      destruct (bool_decide _); [by split|].
      unfold Prisma.transaction. rewrite T.
      destruct err as [c m|]; simpl; [|done].
      destruct (confirmReschedule_errorMap c) as [[? ?]|]; done. }
    split; [done|]. split; [done|]. intros -> Hb. rewrite Hs.
    apply appointment_findFirst_Some in F as [F _]. done.
Qed.

(** The cache statements of [confirmReschedule] stand in the handler's [try]
    without one of their own: when one rejects after the commit, the swap
    stays and the answer is the [500]. *)
Lemma confirmReschedule_purge_rejected appointmentId newSlotId oldSlotId doctorId userId
    nowUtc redis snap db appt id created db' :
  vR appointmentId newSlotId oldSlotId doctorId = None →
  Prisma.appointment_findFirst appointmentId userId (appointments snap) = Some appt →
  Appointment.status appt = APPOINTMENT_STATUS.BOOKED →
  Appointment.doctorId appt = doctorId →
  Appointment.timeSlotId appt = Some oldSlotId →
  oldSlotId ≠ newSlotId →
  confirmReschedule_tx appointmentId newSlotId oldSlotId doctorId userId appt nowUtc db
  = inr ((id, created), db') →
  purgeAfterReschedule redis userId appointmentId id = false →
  confirmReschedule vR appointmentId newSlotId oldSlotId doctorId userId nowUtc redis snap db
  = mkOutcome internalError db' [ConsoleError "confirmReschedule error:" RedisError].
Proof.
  intros V F B D O N T P. unfold confirmReschedule. rewrite V, F, B.
  rewrite (bool_decide_eq_true_2 _ D), (bool_decide_eq_true_2 _ O),
    (bool_decide_eq_false_2 _ N). simpl.
  unfold Prisma.transaction. rewrite T, P. done.
Qed.

End ConfirmReschedule.

Lemma confirmReschedule_all_or_nothing_witness :
  let o := Scenario.confirmReschedule 0 11 10 1 7 (Scenario.at_ 90 10 7) Scenario.redisUp
             Scenario.dbMoving Scenario.dbMoving in
  success (response o) = false ∧ store o = Scenario.dbMoving.
Proof.
  destruct (confirmReschedule_all_or_nothing Scenario.validateRescheduleConfirm
              0 11 10 1 7 (Scenario.at_ 90 10 7) Scenario.redisUp
              Scenario.dbMoving Scenario.dbMoving) as [_ H].
  destruct (H (Appointment.mk 7 1 (Some 10%nat) APPOINTMENT_STATUS.BOOKED None)
              (Thrown "CONFLICT_NEW_SLOT" None)) as (Hf & Hs & _).
  - vm_compute. reflexivity.
  - vm_compute. reflexivity.
  - split; assumption.
Defined.

(** The four throws of the transaction of [confirmReschedule], each on a
    store where it happens. *)
Example confirmReschedule_throws :
  let appt := Appointment.mk 7 1 (Some 10%nat) APPOINTMENT_STATUS.BOOKED None in
  confirmReschedule_tx 0 14 10 1 7 appt (Scenario.at_ 90 10 3) Scenario.dbMoving
  = inl (Thrown "NEW_SLOT_NOT_FOUND" None) ∧
  confirmReschedule_tx 0 12 10 1 7 appt (Scenario.at_ 90 10 3) Scenario.dbMoving
  = inl (Thrown "NEW_SLOT_NOT_LOCKED_BY_USER" None) ∧
  confirmReschedule_tx 0 11 10 1 7 appt (Scenario.at_ 90 10 8) Scenario.dbMoving
  = inl (Thrown "NEW_SLOT_NOT_LOCKED_BY_USER" None) ∧
  confirmReschedule_tx 0 11 10 1 7 appt (Scenario.at_ 90 10 7) Scenario.dbMoving
  = inl (Thrown "CONFLICT_NEW_SLOT" None).
Proof. vm_compute. repeat split; reflexivity. Qed.

(** ** The cache after the commit *)

Section Cache.

Variable vA : nat -> nat -> option string -> option string.

(** [confirmBooking] answers and writes the same whatever the cache does; a
    rejection is logged. *)
Lemma confirmBooking_cache_independent doctorId timeSlotId notes userId nowUtc snap db
    redis redis' :
  let o := confirmBooking vA doctorId timeSlotId notes userId nowUtc redis snap db in
  let o' := confirmBooking vA doctorId timeSlotId notes userId nowUtc redis' snap db in
  response o = response o' ∧ store o = store o' ∧
  (success (response o) = true →
   ∃ id, log o = if purgeAfterBooking redis userId id then []
                 else [ConsoleError "Redis cache invalidation error:" RedisError]).
Proof.
  cbv zeta. unfold confirmBooking.
  destruct (vA _ _ _); [done|].
  destruct (timeSlots snap !! timeSlotId); [|done].
  destruct (negb _); [done|].
  destruct (bool_decide _); [done|].
  destruct (otpRequired _ _ _); [done|].
  destruct (negb _); [done|].
  destruct (Prisma.transaction _ db) as [[e|[id a]] db']; simpl.
  - split_and!; try done. by destruct e.
  - split_and!; try done. eauto.
Qed.

(** So does [cancelAppointment]. *)
Lemma cancelAppointment_cache_independent id userId nowUtc snap db redis redis' :
  let o := cancelAppointment id userId nowUtc redis snap db in
  let o' := cancelAppointment id userId nowUtc redis' snap db in
  response o = response o' ∧ store o = store o' ∧
  (success (response o) = true →
   log o = if purgeAfterCancel redis userId id then []
           else [ConsoleError "Redis cache invalidation error:" RedisError]).
Proof.
  cbv zeta. unfold cancelAppointment.
  destruct (Prisma.appointment_findFirst _ _ _); [|done].
  destruct (negb _); [done|].
  destruct (Prisma.transaction _ db) as [[e|[st ts]] db']; done.
Qed.

End Cache.

(** C8 on [confirmReschedule]: the same request, on the same store, with the
    cache answering and with the cache rejecting. The swap is committed in
    both; with the cache down the answer is [500 Internal server error]. *)
Theorem confirmReschedule_cache_failure :
  let up := Scenario.confirmReschedule 0 11 10 1 7 (Scenario.at_ 90 10 3) Scenario.redisUp
              Scenario.dbMoving Scenario.dbMoving in
  let down := Scenario.confirmReschedule 0 11 10 1 7 (Scenario.at_ 90 10 3)
                Scenario.redisDown Scenario.dbMoving Scenario.dbMoving in
  response up
  = ok 200 "Reschedule confirmed"
      (AppointmentData 1 (Appointment.mk 7 1 (Some 11%nat) APPOINTMENT_STATUS.BOOKED None)) ∧
  response down = fail 500 "Internal server error" None ∧
  store down = store up ∧
  appointments (store down)
  = [Appointment.mk 7 1 (Some 10%nat) APPOINTMENT_STATUS.RESCHEDULED None;
     Appointment.mk 7 1 (Some 11%nat) APPOINTMENT_STATUS.BOOKED None] ∧
  log down = [ConsoleError "confirmReschedule error:" RedisError].
Proof. vm_compute. repeat split; reflexivity. Qed.

(** The same cache failure through the two handlers that guard it. *)
Example guarded_cache_failure :
  response (Scenario.confirmBooking 1 10 None 7 (Scenario.at_ 90 10 1) Scenario.redisDown
              Scenario.db1 Scenario.db1)
  = ok 201 "Appointment booked successfully"
      (AppointmentData 0 (Appointment.mk 7 1 (Some 10%nat) APPOINTMENT_STATUS.BOOKED None)) ∧
  response (cancelAppointment 0 7 (Scenario.at_ 90 10 2) Scenario.redisDown
              Scenario.db2 Scenario.db2)
  = ok 200 "Appointment cancelled"
      (CancelData 0 APPOINTMENT_STATUS.CANCELLED (Some 10%nat) true).
Proof. vm_compute. repeat split; reflexivity. Qed.

(** ** At most one booked appointment per slot *)

Lemma uniquelyBooked_app (l : list Appointment.t) a s :
  uniquelyBooked l →
  existsb (bookedOn s) l = false →
  Appointment.timeSlotId a = Some s →
  uniquelyBooked (l ++ [a]).
Proof.
  intros Hl Hx Ha i j x y t Hi Hj Hbx Hby.
  assert (∀ k z, (l ++ [a]) !! k = Some z → bookedOn t z = true →
                 (k < length l)%nat ∧ l !! k = Some z ∨ k = length l ∧ z = a ∧ t = s)
    as Hcase.
  { intros k z Hk Hb. destruct (decide (k < length l)%nat) as [Hlt|Hge].
    - left. rewrite lookup_app_l in Hk by done. done.
    - right. rewrite lookup_app_r in Hk by lia.
      destruct (k - length l)%nat as [|n] eqn:E; [|by destruct n].
      injection Hk as <-. split; [lia|]. split; [done|].
      apply bookedOn_true in Hb as [Hb _]. congruence. }
  destruct (Hcase i x Hi Hbx) as [[_ Hi']|(-> & -> & ->)];
    destruct (Hcase j y Hj Hby) as [[_ Hj']|(-> & -> & ?)]; subst.
  - by eapply Hl.
  - by rewrite (existsb_bookedOn_false _ _ _ _ Hx Hi') in Hbx.
  - by rewrite (existsb_bookedOn_false _ _ _ _ Hx Hj') in Hby.
  - done.
Qed.

Lemma uniquelyBooked_insert_unbooked (l : list Appointment.t) id a :
  uniquelyBooked l →
  Appointment.status a ≠ APPOINTMENT_STATUS.BOOKED →
  uniquelyBooked (<[id := a]> l).
Proof.
  intros Hl Ha i j x y t Hi Hj Hbx Hby.
  assert (∀ k z, <[id := a]> l !! k = Some z → bookedOn t z = true → l !! k = Some z)
    as Hold.
  { intros k z Hk Hb. destruct (decide (id = k)) as [->|Hne].
    - apply list_lookup_insert_Some in Hk as [(_ & <- & _)|[? _]]; [|done].
      apply bookedOn_true in Hb as [_ Hb]. done.
    - by rewrite list_lookup_insert_ne in Hk. }
  eapply Hl; eauto.
Qed.

Lemma uniquelyBooked_swap (l : list Appointment.t) appointmentId old created newSlotId :
  uniquelyBooked l →
  Appointment.timeSlotId created = Some newSlotId →
  uniquelyBooked
    (Prisma.appointment_updateMany
       (fun i x => bool_decide (Appointment.timeSlotId x = Some newSlotId)
                   && negb (i =? length l)%nat)
       detach
       (<[appointmentId := setStatus APPOINTMENT_STATUS.RESCHEDULED old]> l ++ [created])).
Proof.
  intros Hl Hc i j x y t Hi Hj Hbx Hby.
  set (l1 := <[appointmentId := setStatus APPOINTMENT_STATUS.RESCHEDULED old]> l) in *.
  assert (length l1 = length l) as Hlen by apply length_insert.
  assert (∀ k z,
            Prisma.appointment_updateMany
              (fun i x => bool_decide (Appointment.timeSlotId x = Some newSlotId)
                          && negb (i =? length l)%nat) detach (l1 ++ [created]) !! k
            = Some z →
            bookedOn t z = true →
            (k = length l ∧ t = newSlotId) ∨ (t ≠ newSlotId ∧ l !! k = Some z)) as Hcase.
  { intros k z Hk Hb. rewrite appointment_updateMany_lookup in Hk.
    destruct ((l1 ++ [created]) !! k) as [w|] eqn:Hw; [|done].
    simpl in Hk. injection Hk as <-.
    destruct (decide (k = length l)) as [->|Hne].
    - left. split; [done|].
      rewrite Nat.eqb_refl, andb_false_r in Hb.
      rewrite lookup_app_r in Hw by lia.
      rewrite Hlen, Nat.sub_diag in Hw. injection Hw as <-.
      apply bookedOn_true in Hb as [Hb _]. congruence.
    - right. apply Nat.eqb_neq in Hne as Hne'. rewrite Hne', andb_true_r in Hb.
      destruct (bool_decide (Appointment.timeSlotId w = Some newSlotId)) eqn:Hn.
      { apply bookedOn_true in Hb as [Hb _]. done. }
      apply bool_decide_eq_false in Hn.
      apply bookedOn_true in Hb as Hb'. destruct Hb' as [Hts Hst].
      split; [congruence|].
      assert (k < length l)%nat.
      { apply lookup_lt_Some in Hw. rewrite length_app, Hlen in Hw. simpl in Hw. lia. }
      rewrite lookup_app_l in Hw by lia.
      unfold l1 in Hw. destruct (decide (appointmentId = k)) as [->|Hk].
      + rewrite list_lookup_insert_eq in Hw by done. injection Hw as <-. done.
      + by rewrite list_lookup_insert_ne in Hw. }
  destruct (Hcase i x Hi Hbx) as [[-> ->]|[Hn1 Hi']];
    destruct (Hcase j y Hj Hby) as [[-> ?]|[Hn2 Hj']]; try done.
  by eapply Hl.
Qed.

Section SingleBooking.

Variable vA : nat -> nat -> option string -> option string.
Variable vS : APPOINTMENT_STATUS.t -> option string.
Variable vP : nat -> option string.
Variable vR : nat -> nat -> nat -> nat -> option string.

Lemma confirmBooking_singleBooking doctorId timeSlotId notes userId nowUtc redis snap db :
  singleBooking db →
  singleBooking (store (confirmBooking vA doctorId timeSlotId notes userId nowUtc redis snap db)).
Proof.
  intros Hdb.
  destruct (confirmBooking_cases vA doctorId timeSlotId notes userId nowUtc redis snap db)
    as [[_ ->]|(slot & s & u & t & _ & _ & _ & _ & _ & _ & _ & _ & _ & _ & Hx & _ & ->)];
    [done|].
  unfold singleBooking. simpl. by eapply uniquelyBooked_app.
Qed.

Lemma cancelAppointment_singleBooking id userId nowUtc redis snap db :
  singleBooking db →
  singleBooking (store (cancelAppointment id userId nowUtc redis snap db)).
Proof.
  intros Hdb.
  destruct (cancelAppointment_cases id userId nowUtc redis snap db)
    as [[_ ->]|(appt & a & _ & _ & _ & _ & _ & Hap & _)]; [done|].
  unfold singleBooking. rewrite Hap. by apply uniquelyBooked_insert_unbooked.
Qed.

Lemma confirmReschedule_singleBooking appointmentId newSlotId oldSlotId doctorId userId
    nowUtc redis snap db :
  singleBooking db →
  singleBooking (store (confirmReschedule vR appointmentId newSlotId oldSlotId doctorId
                          userId nowUtc redis snap db)).
Proof.
  intros Hdb.
  destruct (confirmReschedule_cases vR appointmentId newSlotId oldSlotId doctorId userId
              nowUtc redis snap db)
    as [[_ ->]|(appt & newSlot & oldSlot & a & _ & _ & _ & _ & _ & _ & _ & _ & _ & _ & _
                & _ & ->)]; [done|].
  unfold singleBooking. simpl. by apply uniquelyBooked_swap.
Qed.

Lemma lockTimeSlot_appointments doctorId slotId userId nowUtc redis snap db :
  appointments (store (lockTimeSlot doctorId slotId userId nowUtc redis snap db))
  = appointments db.
Proof.
  destruct (lockTimeSlot_cases doctorId slotId userId nowUtc redis snap db)
    as [[_ ->]|(slot & s & _ & _ & _ & _ & _ & _ & _ & _ & ->)]; done.
Qed.

Lemma rescheduleAppointment_appointments id newTimeSlotId userId nowUtc snap db :
  appointments (store (rescheduleAppointment vP id newTimeSlotId userId nowUtc snap db))
  = appointments db.
Proof.
  unfold rescheduleAppointment.
  repeat (case_match; try done).
Qed.

(** Without [updateAppointmentStatus], the invariant holds of every store the
    service reaches. *)
Lemma singleBooking_reachable init db :
  singleBooking init →
  reachable vA vS vP vR (fun req => ¬ isStatusUpdate req) init db →
  singleBooking db.
Proof.
  intros Hinit Hr. induction Hr as [|req nowUtc redis db Hr IH Hreq|now db Hr IH]; [done| |done].
  destruct req; simpl.
  - unfold singleBooking. by rewrite lockTimeSlot_appointments.
  - by apply confirmBooking_singleBooking.
  - by destruct Hreq.
  - unfold singleBooking. by rewrite rescheduleAppointment_appointments.
  - by apply cancelAppointment_singleBooking.
  - by apply confirmReschedule_singleBooking.
Qed.

End SingleBooking.

(** ** updateAppointmentStatus *)

Section StatusUpdate.

Variable vS : APPOINTMENT_STATUS.t -> option string.

Lemma updateAppointmentStatus_store id status userId redis snap db :
  let o := updateAppointmentStatus vS id status userId redis snap db in
  store o = db
  ∨ ∃ a, appointments db !! id = Some a ∧
         store o = mkDB (timeSlots db)
                     (<[id := setStatus status a]> (appointments db)) (users db).
Proof.
  cbv zeta. unfold updateAppointmentStatus.
  destruct (vS status); [by left|].
  destruct (Prisma.appointment_findFirst _ _ _); [|by left].
  destruct (negb _); [by left|].
  destruct (bool_decide _); [by left|].
  destruct (Prisma.appointment_update _ _ _) as [appts|] eqn:U; [|by left].
  apply appointment_update_spec in U as (a & Ha & ->).
  right. exists a. by destruct (purgeAfterStatusUpdate _ _).
Qed.

(** The status requested is written whatever the status was: nothing in the
    handler looks at the status it replaces, except to skip an equal one. *)
Lemma updateAppointmentStatus_any_source id status userId redis db a :
  vS status = None →
  appointments db !! id = Some a →
  Appointment.userId a = userId →
  status ≠ APPOINTMENT_STATUS.RESCHEDULED →
  Appointment.status a ≠ status →
  appointments (store (updateAppointmentStatus vS id status userId redis db db))
  = <[id := setStatus status a]> (appointments db).
Proof.
  intros V Ha Hu Hs Hne. unfold updateAppointmentStatus. rewrite V.
  assert (Prisma.appointment_findFirst id userId (appointments db) = Some a) as ->
    by by apply appointment_findFirst_Some.
  rewrite bool_decide_eq_true_2 by (destruct status; set_solver).
  rewrite (bool_decide_eq_false_2 _ Hne). simpl.
  unfold Prisma.appointment_update. rewrite Ha.
  by destruct (purgeAfterStatusUpdate _ _).
Qed.

(** C10. [updateAppointmentStatus] writes nothing but the [status] of the
    appointment it is given: the slot and user tables are as they were, every
    other appointment row is as it was, and so are the other columns of the
    row. It reads no slot row: with any other slot tables the answer and the
    appointments are the same. So a [BOOKED] appointment set to [CANCELLED]
    here leaves its slot [BOOKED]. *)
Theorem updateAppointmentStatus_frame id status userId redis snap db :
  let o := updateAppointmentStatus vS id status userId redis snap db in
  timeSlots (store o) = timeSlots db ∧
  users (store o) = users db ∧
  (appointments (store o) = appointments db
   ∨ ∃ a, appointments db !! id = Some a ∧
          appointments (store o) = <[id := setStatus status a]> (appointments db)) ∧
  (∀ slots slots',
     let o' := updateAppointmentStatus vS id status userId redis
                 (mkDB slots (appointments snap) (users snap))
                 (mkDB slots' (appointments db) (users db)) in
     response o' = response o ∧ appointments (store o') = appointments (store o)
     ∧ timeSlots (store o') = slots') ∧
  (∀ a timeSlotId slot,
     snap = db →
     status = APPOINTMENT_STATUS.CANCELLED →
     success (response o) = true →
     appointments db !! id = Some a →
     Appointment.status a = APPOINTMENT_STATUS.BOOKED →
     Appointment.timeSlotId a = Some timeSlotId →
     timeSlots db !! timeSlotId = Some slot →
     TimeSlot.status slot = SLOT_STATUS.BOOKED →
     appointments (store o) !! id = Some (setStatus APPOINTMENT_STATUS.CANCELLED a) ∧
     timeSlots (store o) !! timeSlotId = Some slot).
Proof.
  intros o.
  assert (timeSlots (store o) = timeSlots db ∧ users (store o) = users db ∧
          (appointments (store o) = appointments db
           ∨ ∃ a, appointments db !! id = Some a ∧
                  appointments (store o) = <[id := setStatus status a]> (appointments db)))
    as (Hts & Hus & Hap).
  { destruct (updateAppointmentStatus_store id status userId redis snap db)
      as [H|(a & Ha & H)]; fold o in H; rewrite H; simpl;
      (split; [done|]); (split; [done|]); eauto. }
  split_and!; try done.
  - intros slots slots'. subst o. cbv zeta. unfold updateAppointmentStatus. simpl.
    destruct (vS status); [done|].
    destruct (Prisma.appointment_findFirst _ _ _); [|done].
    destruct (negb _); [done|].
    destruct (bool_decide _); [done|].
    destruct (Prisma.appointment_update _ _ _); [|done].
    by destruct (purgeAfterStatusUpdate _ _).
  - intros a timeSlotId slot -> -> Hok Ha Hb Hid Hs _.
    rewrite Hts. split; [|done].
    subst o. revert Hok. unfold updateAppointmentStatus.
    destruct (vS _); [done|].
    destruct (Prisma.appointment_findFirst _ _ _) as [appt|] eqn:F; [|done].
    apply appointment_findFirst_Some in F as [F _].
    rewrite Ha in F. injection F as <-.
    destruct (negb _); [done|].
    rewrite Hb. rewrite bool_decide_eq_false_2 by done.
    unfold Prisma.appointment_update. rewrite Ha.
    assert (id < length (appointments db))%nat by (by eapply lookup_lt_Some).
    destruct (purgeAfterStatusUpdate _ _); [|done].
    intros _. simpl. by rewrite list_lookup_insert_eq.
Qed.

End StatusUpdate.

Lemma updateAppointmentStatus_frame_witness :
  let o := Scenario.updateAppointmentStatus 0 APPOINTMENT_STATUS.CANCELLED 7
             Scenario.redisUp Scenario.db2 Scenario.db2 in
  appointments (store o) !! 0%nat
  = Some (Appointment.mk 7 1 (Some 10%nat) APPOINTMENT_STATUS.CANCELLED None) ∧
  timeSlots (store o) !! 10%nat
  = Some (markBooked (Scenario.freeSlot 1 100 "09:00" "09:30")).
Proof.
  refine (proj2 (proj2 (proj2 (proj2
    (updateAppointmentStatus_frame Scenario.validateAppointmentStatusUpdate 0
       APPOINTMENT_STATUS.CANCELLED 7 Scenario.redisUp Scenario.db2 Scenario.db2))))
    (Appointment.mk 7 1 (Some 10%nat) APPOINTMENT_STATUS.BOOKED None) 10%nat
    (markBooked (Scenario.freeSlot 1 100 "09:00" "09:30")) _ _ _ _ _ _ _ _).
  - reflexivity.
  - reflexivity.
  - reflexivity.
  - vm_compute. reflexivity.
  - reflexivity.
  - reflexivity.
  - vm_compute. reflexivity.
  - reflexivity.
Defined.

(** The same cancellation, the same day, through the two handlers: the slot
    stays [BOOKED] under [updateAppointmentStatus] and is released under
    [cancelAppointment]. *)
Example cancel_through_status_update :
  let viaStatus := Scenario.updateAppointmentStatus 0 APPOINTMENT_STATUS.CANCELLED 7
                     Scenario.redisUp Scenario.db2 Scenario.db2 in
  let viaCancel := cancelAppointment 0 7 (Scenario.at_ 90 10 2) Scenario.redisUp
                     Scenario.db2 Scenario.db2 in
  appointments (store viaStatus) = appointments (store viaCancel) ∧
  TimeSlot.status <$> timeSlots (store viaStatus) !! 10%nat = Some SLOT_STATUS.BOOKED ∧
  TimeSlot.status <$> timeSlots (store viaCancel) !! 10%nat = Some SLOT_STATUS.AVAILABLE.
Proof. vm_compute. repeat split; reflexivity. Qed.

(** ** C2: the invariant through the workflows *)

(** The steps of the scenario all succeed. *)
Example scenario_succeeds :
  success (response (lockTimeSlot 1 10 7 Scenario.t0 Scenario.redisUp
                       Scenario.db0 Scenario.db0)) = true ∧
  success (response (Scenario.confirmBooking 1 10 None 7 (Scenario.at_ 90 10 1)
                       Scenario.redisUp Scenario.db1 Scenario.db1)) = true ∧
  success (response (cancelAppointment 0 7 (Scenario.at_ 90 10 2) Scenario.redisUp
                       Scenario.db2 Scenario.db2)) = true ∧
  success (response (lockTimeSlot 1 10 8 (Scenario.at_ 90 10 3) Scenario.redisUp
                       Scenario.db3 Scenario.db3)) = true ∧
  success (response (Scenario.confirmBooking 1 10 None 8 (Scenario.at_ 90 10 4)
                       Scenario.redisUp Scenario.db4 Scenario.db4)) = true ∧
  appointments Scenario.db5
  = [Appointment.mk 7 1 (Some 10%nat) APPOINTMENT_STATUS.CANCELLED None;
     Appointment.mk 8 1 (Some 10%nat) APPOINTMENT_STATUS.BOOKED None].
Proof. vm_compute. repeat split; reflexivity. Qed.

Lemma scenario_reachable :
  Scenario.reachable (fun req => ¬ isStatusUpdate req) Scenario.db0 Scenario.db5.
Proof.
  apply (reachable_serve _ _ _ _ _ _ (ConfirmBooking 1 10 None 8) (Scenario.at_ 90 10 4)
           Scenario.redisUp Scenario.db4); [|by intros []].
  apply (reachable_serve _ _ _ _ _ _ (LockTimeSlot 1 10 8) (Scenario.at_ 90 10 3)
           Scenario.redisUp Scenario.db3); [|by intros []].
  apply (reachable_serve _ _ _ _ _ _ (CancelAppointment 0 7) (Scenario.at_ 90 10 2)
           Scenario.redisUp Scenario.db2); [|by intros []].
  apply (reachable_serve _ _ _ _ _ _ (ConfirmBooking 1 10 None 7) (Scenario.at_ 90 10 1)
           Scenario.redisUp Scenario.db1); [|by intros []].
  apply (reachable_serve _ _ _ _ _ _ (LockTimeSlot 1 10 7) Scenario.t0
           Scenario.redisUp Scenario.db0); [|by intros []].
  apply reachable_init.
Qed.

Lemma scenario_singleBooking : singleBooking Scenario.db5.
Proof.
  eapply singleBooking_reachable; [|apply scenario_reachable].
  intros i j a b s Hi. done.
Qed.

(** C2 fails at [updateAppointmentStatus]. On the store the scenario reaches,
    where the invariant holds, user 7 sets the cancelled appointment 0 back to
    [BOOKED]: the request succeeds and slot 10 has two booked appointments. *)
Theorem updateAppointmentStatus_double_booking :
  let db := Scenario.db5 in
  let req := UpdateAppointmentStatus 0 APPOINTMENT_STATUS.BOOKED 7 in
  let o := Scenario.serve req (Scenario.at_ 90 10 5) Scenario.redisUp db in
  Scenario.reachable (fun _ => True) Scenario.db0 db ∧
  singleBooking db ∧
  response o = ok 200 "Status updated successfully" (StatusData 0 APPOINTMENT_STATUS.BOOKED) ∧
  appointments (store o)
  = [Appointment.mk 7 1 (Some 10%nat) APPOINTMENT_STATUS.BOOKED None;
     Appointment.mk 8 1 (Some 10%nat) APPOINTMENT_STATUS.BOOKED None] ∧
  Scenario.reachable (fun _ => True) Scenario.db0 (store o) ∧
  ¬ singleBooking (store o).
Proof.
  assert (Scenario.reachable (fun _ => True) Scenario.db0 Scenario.db5) as Hr.
  { pose proof scenario_reachable as H. unfold Scenario.reachable in *.
    induction H; [apply reachable_init| |]; by constructor. }
  split; [exact Hr|].
  split; [apply scenario_singleBooking|].
  split; [vm_compute; reflexivity|].
  assert (appointments
            (store (Scenario.serve (UpdateAppointmentStatus 0 APPOINTMENT_STATUS.BOOKED 7)
                      (Scenario.at_ 90 10 5) Scenario.redisUp Scenario.db5))
          = [Appointment.mk 7 1 (Some 10%nat) APPOINTMENT_STATUS.BOOKED None;
             Appointment.mk 8 1 (Some 10%nat) APPOINTMENT_STATUS.BOOKED None]) as E
    by (vm_compute; reflexivity).
  split; [exact E|].
  split; [by apply reachable_serve|].
  intros H. unfold singleBooking in H. rewrite E in H.
  specialize (H 0%nat 1%nat _ _ 10%nat eq_refl eq_refl eq_refl eq_refl). discriminate.
Qed.

(** ** Rescheduled appointments *)

Lemma releaseExpiredLocks_appointments now db :
  appointments (releaseExpiredLocks now db) = appointments db.
Proof. reflexivity. Qed.

Section Rescheduled.

Variable vA : nat -> nat -> option string -> option string.
Variable vS : APPOINTMENT_STATUS.t -> option string.
Variable vP : nat -> option string.
Variable vR : nat -> nat -> nat -> nat -> option string.

(** C9, as the code has it. Let row [i] be [RESCHEDULED]. A request that runs
    alone through [lockTimeSlot], [confirmBooking], [cancelAppointment],
    [rescheduleAppointment] or the clean-up job leaves the row as it is.
    [confirmReschedule] leaves its status [RESCHEDULED], and leaves the row as
    it is unless the row points at the slot being booked as the new slot: the
    clean-up of the other rows on that slot then sets its [timeSlotId] to
    null. [updateAppointmentStatus] leaves its [timeSlotId]. *)
Theorem rescheduled_kept db i a :
  appointments db !! i = Some a →
  Appointment.status a = APPOINTMENT_STATUS.RESCHEDULED →
  (∀ doctorId slotId userId nowUtc redis,
     appointments (store (lockTimeSlot doctorId slotId userId nowUtc redis db db)) !! i
     = Some a)
  ∧ (∀ doctorId timeSlotId notes userId nowUtc redis,
       appointments
         (store (confirmBooking vA doctorId timeSlotId notes userId nowUtc redis db db)) !! i
       = Some a)
  ∧ (∀ id userId nowUtc redis,
       appointments (store (cancelAppointment id userId nowUtc redis db db)) !! i = Some a)
  ∧ (∀ id newTimeSlotId userId nowUtc,
       appointments
         (store (rescheduleAppointment vP id newTimeSlotId userId nowUtc db db)) !! i
       = Some a)
  ∧ (∀ now, appointments (releaseExpiredLocks now db) !! i = Some a)
  ∧ (∀ appointmentId newSlotId oldSlotId doctorId userId nowUtc redis,
       let o := confirmReschedule vR appointmentId newSlotId oldSlotId doctorId userId
                  nowUtc redis db db in
       (appointments (store o) !! i = Some a
        ∨ Appointment.timeSlotId a = Some newSlotId ∧
          appointments (store o) !! i = Some (detach a)) ∧
       (Appointment.timeSlotId a ≠ Some newSlotId → appointments (store o) !! i = Some a) ∧
       Appointment.status (detach a) = APPOINTMENT_STATUS.RESCHEDULED)
  ∧ (∀ id status userId redis,
       ∃ a', appointments (store (updateAppointmentStatus vS id status userId redis db db))
             !! i = Some a' ∧
             Appointment.timeSlotId a' = Appointment.timeSlotId a).
Proof.
  intros Ha Hr.
  assert (i < length (appointments db))%nat as Hlt by (by eapply lookup_lt_Some).
  split_and!.
  - intros. by rewrite lockTimeSlot_appointments.
  - intros doctorId timeSlotId notes userId nowUtc redis.
    destruct (confirmBooking_cases vA doctorId timeSlotId notes userId nowUtc redis db db)
      as [[_ ->]|(slot & s & u & t & _ & _ & _ & _ & _ & _ & _ & _ & _ & _ & _ & _ & ->)];
      [done|].
    simpl. by rewrite lookup_app_l.
  - intros id userId nowUtc redis.
    destruct (cancelAppointment_cases id userId nowUtc redis db db)
      as [[_ ->]|(appt & b & Hb & _ & Hst & _ & _ & -> & _)]; [done|].
    rewrite list_lookup_insert_ne; [done|]. intros ->. congruence.
  - intros. by rewrite rescheduleAppointment_appointments.
  - done.
  - intros appointmentId newSlotId oldSlotId doctorId userId nowUtc redis o.
    assert (appointments (store o) !! i = Some a
            ∨ Appointment.timeSlotId a = Some newSlotId ∧
              appointments (store o) !! i = Some (detach a)) as Hcase.
    { destruct (confirmReschedule_cases vR appointmentId newSlotId oldSlotId doctorId
                  userId nowUtc redis db db)
        as [[_ Hs]|(appt & newSlot & oldSlot & b & Hb & _ & Hst & _ & _ & _ & _ & _ & _ & _
                    & _ & _ & Hs)]; fold o in Hs; rewrite Hs; [by left|].
      simpl. rewrite appointment_updateMany_lookup.
      rewrite lookup_app_l by (by rewrite length_insert).
      rewrite list_lookup_insert_ne by (intros ->; congruence).
      rewrite Ha. simpl.
      assert ((i =? length (appointments db))%nat = false) as -> by (apply Nat.eqb_neq; lia).
      rewrite andb_true_r.
      destruct (bool_decide (Appointment.timeSlotId a = Some newSlotId)) eqn:E;
        [right|by left].
      by apply bool_decide_eq_true in E. }
    split_and!; [done| |done].
    intros Hne. by destruct Hcase as [?|[? _]].
  - intros id status userId redis.
    destruct (updateAppointmentStatus_store vS id status userId redis db db)
      as [->|(b & Hb & ->)]; [eauto|].
    simpl. destruct (decide (id = i)) as [->|Hne].
    + rewrite list_lookup_insert_eq by done. eexists. split; [done|].
      rewrite Ha in Hb. by injection Hb as <-.
    + rewrite list_lookup_insert_ne by done. eauto.
Qed.

End Rescheduled.

(** C9, as stated, fails on the code: user 7 moves appointment 0 from slot 10
    to slot 11, then moves the new appointment back to slot 10. Appointment 0
    is [RESCHEDULED] and pointed at slot 10; the second confirmation sets its
    [timeSlotId] to null. *)
Lemma rescheduled_pointer_cleared :
  let o := Scenario.confirmReschedule 1 10 11 1 7 (Scenario.at_ 90 10 5) Scenario.redisUp
             Scenario.dbMovingBack Scenario.dbMovingBack in
  appointments Scenario.dbMovingBack !! 0%nat
  = Some (Appointment.mk 7 1 (Some 10%nat) APPOINTMENT_STATUS.RESCHEDULED None) ∧
  success (response o) = true ∧
  appointments (store o) !! 0%nat
  = Some (Appointment.mk 7 1 None APPOINTMENT_STATUS.RESCHEDULED None).
Proof. vm_compute. repeat split; reflexivity. Qed.

(** And [updateAppointmentStatus] takes a [RESCHEDULED] appointment to any of
    its three statuses: here appointment 0, after the first move, to
    [COMPLETED] and to [BOOKED]. *)
Lemma rescheduled_status_rewritten :
  let completed := Scenario.updateAppointmentStatus 0 APPOINTMENT_STATUS.COMPLETED 7
                     Scenario.redisUp Scenario.dbMoved Scenario.dbMoved in
  let booked := Scenario.updateAppointmentStatus 0 APPOINTMENT_STATUS.BOOKED 7
                  Scenario.redisUp Scenario.dbMoved Scenario.dbMoved in
  appointments Scenario.dbMoved !! 0%nat
  = Some (Appointment.mk 7 1 (Some 10%nat) APPOINTMENT_STATUS.RESCHEDULED None) ∧
  success (response completed) = true ∧
  appointments (store completed) !! 0%nat
  = Some (Appointment.mk 7 1 (Some 10%nat) APPOINTMENT_STATUS.COMPLETED None) ∧
  success (response booked) = true ∧
  appointments (store booked) !! 0%nat
  = Some (Appointment.mk 7 1 (Some 10%nat) APPOINTMENT_STATUS.BOOKED None).
Proof. vm_compute. repeat split; reflexivity. Qed.

Lemma rescheduled_kept_witness :
  appointments
    (store (cancelAppointment 1 7 (Scenario.at_ 90 10 4) Scenario.redisUp
              Scenario.dbMoved Scenario.dbMoved)) !! 0%nat
  = Some (Appointment.mk 7 1 (Some 10%nat) APPOINTMENT_STATUS.RESCHEDULED None).
Proof.
  refine (proj1 (proj2 (proj2
    (rescheduled_kept Scenario.validateAppointment Scenario.validateAppointmentStatusUpdate
       Scenario.validateAppointmentReschedule Scenario.validateRescheduleConfirm
       Scenario.dbMoved 0%nat
       (Appointment.mk 7 1 (Some 10%nat) APPOINTMENT_STATUS.RESCHEDULED None) _ _)))
    1%nat 7%nat (Scenario.at_ 90 10 4) Scenario.redisUp).
  - vm_compute. reflexivity.
  - reflexivity.
Defined.

(** ** Worked runs *)

(** Each throw of the transaction of [confirmBooking], on a store where it
    happens, and the answer of the handler: slot 10 is read as locked by user
    7; its date is past, or it has started, or the lease is gone from the
    store by the time the transaction runs, or an appointment is already
    booked on it. *)
Example confirmBooking_throws :
  let read := lockFor 7 Scenario.t0 (Scenario.freeSlot 1 100 "09:00" "09:30") in
  confirmBooking_tx read 1 10 7 None (Scenario.at_ 101 8 0) Scenario.db1
  = inl (Thrown "SLOT_IN_PAST" (Some "Cannot book a past date slot")) ∧
  confirmBooking_tx read 1 10 7 None (Scenario.at_ 100 9 0) Scenario.db1
  = inl (Thrown "SLOT_ALREADY_STARTED" (Some "Cannot book a slot that already started")) ∧
  confirmBooking_tx read 1 10 7 None (Scenario.at_ 90 10 1) Scenario.db0
  = inl (Thrown "CONFLICT_SLOT_STATE" (Some "Slot state changed, try again")) ∧
  confirmBooking_tx read 1 10 7 None (Scenario.at_ 90 10 1)
    (mkDB (timeSlots Scenario.db1) (appointments Scenario.db5) (users Scenario.db1))
  = inl (Thrown "SLOT_ALREADY_BOOKED" (Some "This slot already has an active booking")) ∧
  Scenario.confirmBooking 1 10 None 7 (Scenario.at_ 90 10 1) Scenario.redisUp
    Scenario.db1 Scenario.db0
  = mkOutcome (mkResponse 409 false (Some "Slot state changed, try again"%string) None None)
      Scenario.db0
      [ConsoleError "confirmBooking error:"
         (Thrown "CONFLICT_SLOT_STATE" (Some "Slot state changed, try again"))].
Proof. vm_compute. repeat split; reflexivity. Qed.

(** The lease of user 7 on slot 10 ran out at 10:05. At 10:06 user 8, who
    holds appointment 1 on slot 11, asks to move it to slot 10: the lock write
    of [rescheduleAppointment] takes the expired lease over, where
    [lockTimeSlot] answers [409]. *)
Example expired_lease_taken_over :
  let db :=
    mkDB (timeSlots Scenario.db1)
      [Appointment.mk 7 1 None APPOINTMENT_STATUS.CANCELLED None;
       Appointment.mk 8 1 (Some 11%nat) APPOINTMENT_STATUS.BOOKED None]
      (users Scenario.db1) in
  let nowUtc := Scenario.at_ 90 10 6 in
  response (Scenario.rescheduleAppointment 1 10 8 nowUtc db db)
  = ok 200 "New time slot locked for reschedule"
      (RescheduleLockData 10 1 8 nowUtc (nowUtc + 5 * 60 * 1000) 11) ∧
  response (lockTimeSlot 1 10 8 nowUtc Scenario.redisUp db db)
  = fail 409 "Time slot already locked" None.
Proof. vm_compute. repeat split; reflexivity. Qed.

(** The clean-up job releases the expired lease, after which [lockTimeSlot]
    grants the slot. *)
Example released_then_locked :
  let nowUtc := Scenario.at_ 90 10 6 in
  let db := releaseExpiredLocks nowUtc Scenario.db1 in
  timeSlots db !! 10%nat = Some (Scenario.freeSlot 1 100 "09:00" "09:30") ∧
  response (lockTimeSlot 1 10 8 nowUtc Scenario.redisUp db db)
  = ok 200 "Slot locked" (LockData 10 1 8 nowUtc (nowUtc + 5 * 60 * 1000)).
Proof. vm_compute. repeat split; reflexivity. Qed.

(** ** The [Date] arithmetic *)

Lemma DayFromYear_next y :
  DateUTC.DayFromYear (y + 1) = DateUTC.DayFromYear y + DateUTC.DaysInYear y.
Proof.
  unfold DateUTC.DayFromYear, DateUTC.DaysInYear.
  destruct (Z.eqb_spec (y `mod` 4) 0), (Z.eqb_spec (y `mod` 100) 0),
    (Z.eqb_spec (y `mod` 400) 0); simpl; Z.div_mod_to_equations; lia.
Qed.

Lemma DaysInYear_cases y : DateUTC.DaysInYear y = 365 ∨ DateUTC.DaysInYear y = 366.
Proof. unfold DateUTC.DaysInYear. repeat case_match; auto. Qed.

(** Four hundred years are 146097 days: the start of a year is within two
    days of its mean. *)
Lemma DayFromYear_mean y :
  146097 * (y - 1970) - 506 <= 400 * DateUTC.DayFromYear y <= 146097 * (y - 1970) + 589.
Proof. unfold DateUTC.DayFromYear. Z.div_mod_to_equations. lia. Qed.

Lemma DayFromYear_mono y1 y2 :
  y1 <= y2 → DateUTC.DayFromYear y1 <= DateUTC.DayFromYear y2.
Proof. unfold DateUTC.DayFromYear. intros H. Z.div_mod_to_equations. lia. Qed.

Lemma TimeFromYear_Day y t :
  (DateUTC.TimeFromYear y <= t ↔ DateUTC.DayFromYear y <= DateUTC.Day t).
Proof.
  unfold DateUTC.TimeFromYear, DateUTC.Day. change MS_PER_DAY with 86400000.
  generalize (DateUTC.DayFromYear y). intros d. split; intros H.
  - apply Z.div_le_lower_bound; lia.
  - Z.div_mod_to_equations. lia.
Qed.

(** [YearFromTime] is the year of the language: the largest [y] with
    [TimeFromYear(y) <= t]. *)
Lemma YearFromTime_spec t :
  DateUTC.DayFromYear (DateUTC.YearFromTime t) <= DateUTC.Day t
  < DateUTC.DayFromYear (DateUTC.YearFromTime t + 1).
Proof.
  unfold DateUTC.YearFromTime. cbv zeta.
  set (y := 1970 + (400 * DateUTC.Day t) `div` 146097).
  assert (146097 * (y - 1970) <= 400 * DateUTC.Day t < 146097 * (y - 1970) + 146097) as Hy.
  { unfold y. Z.div_mod_to_equations. lia. }
  pose proof (DayFromYear_mean (y - 1)) as H0.
  pose proof (DayFromYear_mean (y + 1 + 1)) as H2.
  destruct (Z.ltb_spec t (DateUTC.TimeFromYear y)) as [H|H].
  - replace (y - 1 + 1) with y by lia.
    assert (¬ DateUTC.DayFromYear y <= DateUTC.Day t) by (rewrite <- TimeFromYear_Day; lia).
    lia.
  - apply TimeFromYear_Day in H.
    destruct (Z.leb_spec (DateUTC.TimeFromYear (y + 1)) t) as [H'|H'].
    + apply TimeFromYear_Day in H'. lia.
    + assert (¬ DateUTC.DayFromYear (y + 1) <= DateUTC.Day t)
        by (rewrite <- TimeFromYear_Day; lia).
      lia.
Qed.

Lemma YearFromTime_unique t y :
  DateUTC.DayFromYear y <= DateUTC.Day t < DateUTC.DayFromYear (y + 1) →
  DateUTC.YearFromTime t = y.
Proof.
  intros H. pose proof (YearFromTime_spec t) as S.
  destruct (Z.lt_trichotomy (DateUTC.YearFromTime t) y) as [L|[E|L]]; [|done|].
  - pose proof (DayFromYear_mono (DateUTC.YearFromTime t + 1) y ltac:(lia)). lia.
  - pose proof (DayFromYear_mono (y + 1) (DateUTC.YearFromTime t) ltac:(lia)). lia.
Qed.

Lemma DayWithinYear_range t :
  0 <= DateUTC.DayWithinYear t < DateUTC.DaysInYear (DateUTC.YearFromTime t).
Proof.
  unfold DateUTC.DayWithinYear. pose proof (YearFromTime_spec t) as S.
  rewrite DayFromYear_next in S. lia.
Qed.

Lemma InLeapYear_cases t : DateUTC.InLeapYear t = 0 ∨ DateUTC.InLeapYear t = 1.
Proof. unfold DateUTC.InLeapYear. case_match; auto. Qed.

Lemma MonthFromTime_range t : 0 <= DateUTC.MonthFromTime t <= 11.
Proof. unfold DateUTC.MonthFromTime. cbv zeta. repeat case_match; lia. Qed.

(** A date is the start of its month plus its day of the month. *)
Lemma DateFromTime_monthStart t :
  DateUTC.monthStart (DateUTC.MonthFromTime t) (DateUTC.InLeapYear t)
  + DateUTC.DateFromTime t - 1
  = DateUTC.DayWithinYear t.
Proof.
  unfold DateUTC.DateFromTime. cbv zeta.
  pose proof (MonthFromTime_range t) as R.
  generalize dependent (DateUTC.MonthFromTime t). intros m R.
  assert (m = 0 ∨ m = 1 ∨ m = 2 ∨ m = 3 ∨ m = 4 ∨ m = 5 ∨ m = 6 ∨ m = 7 ∨ m = 8
          ∨ m = 9 ∨ m = 10 ∨ m = 11) as H by lia.
  repeat destruct H as [->|H]; try subst m; simpl; lia.
Qed.

Lemma MakeDay_getters t :
  DateUTC.MakeDay (DateUTC.YearFromTime t) (DateUTC.MonthFromTime t) (DateUTC.DateFromTime t)
  = DateUTC.Day t.
Proof.
  unfold DateUTC.MakeDay. cbv zeta.
  pose proof (MonthFromTime_range t) as R.
  rewrite Z.div_small, Z.mod_small, Z.add_0_r by lia.
  fold (DateUTC.InLeapYear t).
  pose proof (DateFromTime_monthStart t). unfold DateUTC.DayWithinYear in *. lia.
Qed.

(** [MakeDay] is the day of the language: the time it finds for the first of
    the month has that year, that month and date [1]. *)
Lemma MakeDay_finds ym mn :
  0 <= mn <= 11 →
  let t := DateUTC.MakeDate (DateUTC.MakeDay ym mn 1) 0 in
  DateUTC.YearFromTime t = ym ∧ DateUTC.MonthFromTime t = mn ∧ DateUTC.DateFromTime t = 1.
Proof.
  intros Hm. cbv zeta.
  set (leap := if DateUTC.DaysInYear ym =? 366 then 1 else 0).
  assert (DateUTC.Day (DateUTC.MakeDate (DateUTC.MakeDay ym mn 1) 0)
          = DateUTC.DayFromYear ym + DateUTC.monthStart mn leap) as HD.
  { unfold DateUTC.MakeDate, DateUTC.Day, DateUTC.MakeDay. cbv zeta. fold leap.
    rewrite (Z.div_small mn 12), (Z.mod_small mn 12), !Z.add_0_r by lia.
    change MS_PER_DAY with 86400000. rewrite Z.div_mul by done. unfold leap. lia. }
  assert (0 <= DateUTC.monthStart mn leap < DateUTC.DaysInYear ym ∧
          (leap = 0 ∨ leap = 1)) as [Hs Hl].
  { unfold leap. destruct (DaysInYear_cases ym) as [E|E]; rewrite E; simpl;
      (split; [|auto]);
      assert (mn = 0 ∨ mn = 1 ∨ mn = 2 ∨ mn = 3 ∨ mn = 4 ∨ mn = 5 ∨ mn = 6 ∨ mn = 7
              ∨ mn = 8 ∨ mn = 9 ∨ mn = 10 ∨ mn = 11) as H by lia;
      repeat destruct H as [->|H]; try subst mn; simpl; lia. }
  assert (DateUTC.YearFromTime (DateUTC.MakeDate (DateUTC.MakeDay ym mn 1) 0) = ym) as HY.
  { apply YearFromTime_unique. rewrite HD, DayFromYear_next. lia. }
  split; [done|].
  unfold DateUTC.DateFromTime, DateUTC.MonthFromTime, DateUTC.DayWithinYear,
    DateUTC.InLeapYear. cbv zeta. rewrite HY, HD. fold leap.
  replace (DateUTC.DayFromYear ym + DateUTC.monthStart mn leap - DateUTC.DayFromYear ym)
    with (DateUTC.monthStart mn leap) by lia.
  assert (mn = 0 ∨ mn = 1 ∨ mn = 2 ∨ mn = 3 ∨ mn = 4 ∨ mn = 5 ∨ mn = 6 ∨ mn = 7
          ∨ mn = 8 ∨ mn = 9 ∨ mn = 10 ∨ mn = 11) as H by lia.
  clear HD HY Hs. clearbody leap.
  destruct Hl as [-> | ->]; repeat destruct H as [->|H]; try subst mn;
    vm_compute; done.
Qed.

(** [Date.UTC] on the year, month and date of a time puts that day together
    again, unless the year is one of [0] to [99]. *)
Lemma UTC_getters d hours minutes :
  ¬ (0 <= DateUTC.getUTCFullYear d <= 99) →
  DateUTC.UTC (DateUTC.getUTCFullYear d) (DateUTC.getUTCMonth d) (DateUTC.getUTCDate d)
    hours minutes
  = DateUTC.TimeClip (utcMidnight d + hours * MS_PER_HOUR + minutes * MS_PER_MINUTE).
Proof.
  intros Hy. unfold DateUTC.UTC, DateUTC.getUTCFullYear, DateUTC.getUTCMonth,
    DateUTC.getUTCDate in *. cbv zeta.
  assert ((0 <=? DateUTC.YearFromTime d) && (DateUTC.YearFromTime d <=? 99) = false) as ->.
  { apply andb_false_iff. rewrite Z.leb_gt, Z.leb_gt. lia. }
  rewrite MakeDay_getters. unfold DateUTC.MakeDate, DateUTC.MakeTime, DateUTC.Day, utcMidnight.
  f_equal. lia.
Qed.

Lemma getUtcDateTime_UTC date time :
  ¬ (0 <= DateUTC.getUTCFullYear date <= 99) →
  DateUTC.getUtcDateTime date time = DateUTC.TimeClip (getUtcDateTime date time).
Proof.
  intros Hy. unfold DateUTC.getUtcDateTime, getUtcDateTime. cbv zeta.
  by rewrite UTC_getters.
Qed.

(** With a year from [0] to [99], [Date.UTC] answers a day of the year 1900
    years later. *)
Lemma UTC_getters_1900 d hours minutes :
  0 <= DateUTC.getUTCFullYear d <= 99 →
  0 <= hours * MS_PER_HOUR + minutes * MS_PER_MINUTE < MS_PER_DAY →
  ∃ r, DateUTC.UTC (DateUTC.getUTCFullYear d) (DateUTC.getUTCMonth d) (DateUTC.getUTCDate d)
         hours minutes = Some r ∧
       DateUTC.getUTCFullYear r = DateUTC.getUTCFullYear d + 1900.
Proof.
  intros Hy Ht. unfold DateUTC.UTC, DateUTC.getUTCFullYear, DateUTC.getUTCMonth,
    DateUTC.getUTCDate in *. cbv zeta.
  assert ((0 <=? DateUTC.YearFromTime d) && (DateUTC.YearFromTime d <=? 99) = true) as ->.
  { apply andb_true_iff. rewrite !Z.leb_le. lia. }
  set (Y := DateUTC.YearFromTime d) in *.
  pose proof (DayWithinYear_range d) as Hw. fold Y in Hw.
  pose proof (DateFromTime_monthStart d) as Hm.
  pose proof (MonthFromTime_range d) as Hr.
  set (day := DateUTC.MakeDay (1900 + Y) (DateUTC.MonthFromTime d) (DateUTC.DateFromTime d)).
  assert (DateUTC.DayFromYear (1900 + Y) <= day < DateUTC.DayFromYear (1900 + Y + 1)) as Hday.
  { unfold day, DateUTC.MakeDay. cbv zeta.
    rewrite Z.div_small, Z.mod_small, Z.add_0_r by lia.
    rewrite DayFromYear_next.
    assert (DateUTC.MonthFromTime d < 2 → DateUTC.DayWithinYear d < 59 + DateUTC.InLeapYear d)
      as Hlow.
    { unfold DateUTC.MonthFromTime. cbv zeta.
      pose proof (InLeapYear_cases d).
      repeat match goal with |- context [?a <? ?b] => destruct (Z.ltb_spec a b) end; lia. }
    assert (2 <= DateUTC.MonthFromTime d → 59 + DateUTC.InLeapYear d <= DateUTC.DayWithinYear d)
      as Hhigh.
    { unfold DateUTC.MonthFromTime. cbv zeta.
      pose proof (InLeapYear_cases d).
      repeat match goal with |- context [?a <? ?b] => destruct (Z.ltb_spec a b) end; lia. }
    unfold DateUTC.InLeapYear in *. fold Y in Hm, Hlow, Hhigh.
    generalize dependent (DateUTC.MonthFromTime d). intros m.
    generalize dependent (DateUTC.DateFromTime d). intros dt.
    generalize dependent (DateUTC.DayWithinYear d). intros w. intros.
    assert (Y = 0 ∨ (1 <= Y <= 99 ∧ DateUTC.DaysInYear (1900 + Y) = DateUTC.DaysInYear Y))
      as [->|[HY E]].
    { destruct (decide (Y = 0)); [by left|]. right. split; [lia|].
      unfold DateUTC.DaysInYear.
      assert ((1900 + Y) `mod` 4 = Y `mod` 4) as -> by (Z.div_mod_to_equations; lia).
      assert ((1900 + Y) `mod` 100 ≠ 0) by (Z.div_mod_to_equations; lia).
      assert (Y `mod` 100 ≠ 0) by (Z.div_mod_to_equations; lia).
      by destruct (Z.eqb_spec ((1900 + Y) `mod` 100) 0), (Z.eqb_spec (Y `mod` 100) 0). }
    - change (DateUTC.DaysInYear 0) with 366 in *.
      change (DateUTC.DaysInYear (1900 + 0)) with 365. simpl in *.
      assert (m = 0 ∨ m = 1 ∨ m = 2 ∨ m = 3 ∨ m = 4 ∨ m = 5 ∨ m = 6 ∨ m = 7 ∨ m = 8
              ∨ m = 9 ∨ m = 10 ∨ m = 11) as H by lia.
      repeat destruct H as [->|H]; try subst m; simpl in *; lia.
    - rewrite E. lia. }
  set (r := DateUTC.MakeDate day (DateUTC.MakeTime hours minutes 0 0)).
  assert (DateUTC.Day r = day) as HD.
  { unfold r, DateUTC.MakeDate, DateUTC.MakeTime, DateUTC.Day.
    change (0 * 1000) with 0. rewrite !Z.add_0_r.
    rewrite Z.add_comm, Z.div_add by done. rewrite Z.div_small by lia. done. }
  exists r. split.
  - unfold DateUTC.TimeClip.
    pose proof (DayFromYear_mean (1900 + Y)) as M1.
    pose proof (DayFromYear_mean (1900 + Y + 1)) as M2.
    assert (Z.abs r <= 8640000000000000) as Hb.
    { unfold r, DateUTC.MakeDate, DateUTC.MakeTime.
      change MS_PER_DAY with 86400000 in *. lia. }
    apply Z.ltb_ge in Hb. by rewrite Hb.
  - replace (Y + 1900) with (1900 + Y) by lia.
    apply YearFromTime_unique. by rewrite HD.
Qed.

(** 29 February 2024 at 09:30; the first day of the year 50, which [Date.UTC]
    reads as 1950; 15 June of the year 50 taken apart and put together again. *)
Example Date_UTC_tests :
  DateUTC.UTC 2024 1 29 9 30 = Some 1709199000000 ∧
  DateUTC.UTC 50 0 1 0 0 = Some (-631152000000) ∧
  DateUTC.getUTCFullYear (-60574996800000) = 50 ∧
  DateUTC.getUTCMonth (-60574996800000) = 5 ∧
  DateUTC.getUTCDate (-60574996800000) = 15 ∧
  DateUTC.getUtcDateTime (-60574996800000) "09:30" = Some (-616861800000) ∧
  DateUTC.getUtcDateTime 1709199000000 "" = Some 1709164800000 ∧
  DateUTC.UTC 275760 8 13 0 1 = None.
Proof. vm_compute. repeat split; reflexivity. Qed.

(** * More of the code *)

(** ** [utils/time.js] *)

Example formatTime_tests :
  TimeFormat.formatTime "13:00" = Some "01:00 PM"%string ∧
  TimeFormat.formatTime "00:00" = Some "12:00 AM"%string ∧
  TimeFormat.parseTime "01:00 PM" = Some "13:00"%string ∧
  TimeFormat.parseTime "12:00 AM" = Some "00:00"%string ∧
  TimeFormat.formatTime "1300" = None ∧
  TimeFormat.formatTime "ab:cd" = Some "12:NaN AM"%string.
Proof. vm_compute. repeat split; reflexivity. Qed.

(** *** Deciding a property of every well-formed time *)

Lemma digit_char_cases (c : ascii) :
  (("0" <=? c) && (c <=? "9"))%char = true →
  c ∈ ["0"; "1"; "2"; "3"; "4"; "5"; "6"; "7"; "8"; "9"]%char.
Proof.
  intros H.
  destruct c as [[] [] [] [] [] [] [] []];
    first [by vm_compute in H | repeat first [apply list_elem_of_here | apply list_elem_of_further]].
Qed.

Lemma timePattern_candidate t :
  TimeFormat.timePattern t = true → t ∈ TimeFormat.timeCandidates.
Proof.
  destruct t as [|h1 [|h2 [|c [|m1 [|m2 [|]]]]]]; try done.
  unfold TimeFormat.timePattern, TimeFormat.isDigit. intros H.
  apply andb_true_iff in H as [H Hm2]. apply andb_true_iff in H as [H Hm1].
  apply andb_true_iff in H as [H12 Hc].
  apply Ascii.eqb_eq in Hc as ->.
  assert (h1 ∈ ["0"; "1"; "2"]%char ∧
          h2 ∈ ["0"; "1"; "2"; "3"; "4"; "5"; "6"; "7"; "8"; "9"]%char) as [Hh1 Hh2].
  { apply orb_true_iff in H12 as [H|H].
    - apply andb_true_iff in H as [H Hd]. split; [|by apply digit_char_cases].
      apply orb_true_iff in H as [H|H]; apply Ascii.eqb_eq in H as ->;
        repeat first [apply list_elem_of_here | apply list_elem_of_further].
    - apply andb_true_iff in H as [H H3]. apply andb_true_iff in H as [H H0].
      apply Ascii.eqb_eq in H as ->.
      split; [repeat first [apply list_elem_of_here | apply list_elem_of_further]|].
      apply digit_char_cases. rewrite H0. simpl.
      destruct h2 as [[] [] [] [] [] [] [] []]; by vm_compute in H3 |- *. }
  assert (m1 ∈ ["0"; "1"; "2"; "3"; "4"; "5"]%char) as Hm1'.
  { destruct m1 as [[] [] [] [] [] [] [] []];
      first [by vm_compute in Hm1
            | repeat first [apply list_elem_of_here | apply list_elem_of_further]]. }
  apply digit_char_cases in Hm2.
  unfold TimeFormat.timeCandidates.
  apply list_elem_of_bind. exists h1. split; [|done].
  apply list_elem_of_bind. exists h2. split; [|done].
  apply list_elem_of_bind. exists m1. split; [|done].
  apply list_elem_of_bind. exists m2. split; [|done].
  apply list_elem_of_here.
Qed.

Lemma timePattern_forall (P : string → bool) :
  forallb (fun t => implb (TimeFormat.timePattern t) (P t)) TimeFormat.timeCandidates = true →
  ∀ t, TimeFormat.timePattern t = true → P t = true.
Proof.
  intros H t Ht. rewrite forallb_forall in H.
  specialize (H t). rewrite Ht in H. apply H.
  apply list_elem_of_In. by apply timePattern_candidate.
Qed.

Lemma minutes_forall (P : Z → bool) :
  forallb P (seqZ 0 1440) = true → ∀ k, 0 <= k < 1440 → P k = true.
Proof.
  intros H k Hk. rewrite forallb_forall in H. apply H.
  apply list_elem_of_In, elem_of_seqZ. lia.
Qed.

(** *** The order of stored times *)

Lemma digit_compare i j :
  Ascii.compare (digit i) (digit j) = (i `mod` 10 ?= j `mod` 10).
Proof.
  unfold digit.
  pose proof (Z.mod_pos_bound i 10 eq_refl) as Hi.
  pose proof (Z.mod_pos_bound j 10 eq_refl) as Hj.
  set (a := i `mod` 10) in *. set (b := j `mod` 10) in *.
  assert (a ∈ seqZ 0 10) as Ha by (apply elem_of_seqZ; lia).
  assert (b ∈ seqZ 0 10) as Hb by (apply elem_of_seqZ; lia).
  clearbody a b. clear Hi Hj.
  assert (forallb (fun a => forallb (fun b =>
            bool_decide (Ascii.compare (ascii_of_N (48 + Z.to_N a))
                           (ascii_of_N (48 + Z.to_N b)) = (a ?= b)))
            (seqZ 0 10)) (seqZ 0 10) = true) as H by (vm_compute; reflexivity).
  rewrite forallb_forall in H. apply list_elem_of_In, H in Ha.
  rewrite forallb_forall in Ha. apply list_elem_of_In, Ha in Hb.
  by apply bool_decide_eq_true in Hb.
Qed.

Lemma padStart2_compare x y s t :
  0 <= x < 100 → 0 <= y < 100 →
  String.compare (padStart2 x ++ s) (padStart2 y ++ t)
  = match x ?= y with Eq => String.compare s t | r => r end.
Proof.
  intros Hx Hy. unfold padStart2. simpl. rewrite !digit_compare.
  rewrite (Z.mod_small (x `div` 10)), (Z.mod_small (y `div` 10))
    by (split; [apply Z.div_pos; lia | apply Z.div_lt_upper_bound; lia]).
  destruct (Z.compare_spec (x `div` 10) (y `div` 10)) as [E|L|G];
    destruct (Z.compare_spec x y) as [E'|L'|G'];
    try destruct (Z.compare_spec (x `mod` 10) (y `mod` 10)) as [E''|L''|G''];
    try reflexivity; exfalso; Z.div_mod_to_equations; lia.
Qed.

Lemma toTimeString_compare a b :
  0 <= a < 6000 → 0 <= b < 6000 →
  String.compare (toTimeString a) (toTimeString b) = (a ?= b).
Proof.
  intros Ha Hb. unfold toTimeString.
  rewrite padStart2_compare
    by (split; [apply Z.div_pos; lia | apply Z.div_lt_upper_bound; lia]).
  change (String.compare (":" ++ padStart2 (a `mod` 60)) (":" ++ padStart2 (b `mod` 60)))
    with (String.compare (padStart2 (a `mod` 60) ++ "") (padStart2 (b `mod` 60) ++ "")).
  pose proof (Z.mod_pos_bound a 60 eq_refl). pose proof (Z.mod_pos_bound b 60 eq_refl).
  rewrite padStart2_compare by lia. simpl.
  destruct (Z.compare_spec (a `div` 60) (b `div` 60)) as [E|L|G];
    destruct (Z.compare_spec a b) as [E'|L'|G'];
    try destruct (Z.compare_spec (a `mod` 60) (b `mod` 60)) as [E''|L''|G''];
    try reflexivity; exfalso; Z.div_mod_to_equations; lia.
Qed.

Lemma toTimeString_leb a b :
  0 <= a < 6000 → 0 <= b < 6000 →
  String.leb (toTimeString a) (toTimeString b) = (a <=? b).
Proof.
  intros Ha Hb. unfold String.leb. rewrite toTimeString_compare by done.
  unfold Z.leb. by destruct (a ?= b).
Qed.

Lemma toTimeString_ltb a b :
  0 <= a < 6000 → 0 <= b < 6000 →
  String.ltb (toTimeString a) (toTimeString b) = (a <? b).
Proof.
  intros Ha Hb. unfold String.ltb. rewrite toTimeString_compare by done.
  unfold Z.ltb. by destruct (a ?= b).
Qed.

Lemma timePattern_minutes t :
  TimeFormat.timePattern t = true →
  ∃ k, 0 <= k < 1440 ∧ t = toTimeString k ∧ parseToMinutes t = Some k.
Proof.
  intros Ht.
  pose proof (timePattern_forall
    (fun t => match parseToMinutes t with
              | Some k => (0 <=? k) && (k <? 1440) && String.eqb (toTimeString k) t
              | None => false
              end) ltac:(vm_compute; reflexivity) t Ht) as H.
  cbv beta in H. destruct (parseToMinutes t) as [k|]; [|done].
  apply andb_true_iff in H as [H E]. apply andb_true_iff in H as [H0 H1].
  apply String.eqb_eq in E. exists k. split; [lia|done].
Qed.

Lemma toTimeString_pattern k :
  0 <= k < 1440 →
  TimeFormat.timePattern (toTimeString k) = true ∧ parseToMinutes (toTimeString k) = Some k.
Proof.
  intros Hk.
  pose proof (minutes_forall
    (fun k => TimeFormat.timePattern (toTimeString k)
              && match parseToMinutes (toTimeString k) with
                 | Some j => j =? k
                 | None => false
                 end)
    ltac:(vm_compute; reflexivity) k Hk) as H.
  cbv beta in H. apply andb_true_iff in H as [H1 H2]. split; [done|].
  destruct (parseToMinutes (toTimeString k)) as [j|]; [|done].
  apply Z.eqb_eq in H2. by subst.
Qed.

(** X1. The times the slot schema accepts are the [toTimeString] of the minutes
    of a day, one each, and [parseToMinutes] reads back the minute that
    [toTimeString] wrote. *)
Theorem time_strings_are_minutes :
  (∀ t, TimeFormat.timePattern t = true →
        ∃ k, 0 <= k < 1440 ∧ parseToMinutes t = Some k ∧ toTimeString k = t)
  ∧ (∀ k, 0 <= k < 1440 →
          TimeFormat.timePattern (toTimeString k) = true ∧
          parseToMinutes (toTimeString k) = Some k)
  ∧ (∀ j k, 0 <= j < 1440 → 0 <= k < 1440 → toTimeString j = toTimeString k → j = k).
Proof.
  split_and!.
  - intros t Ht. destruct (timePattern_minutes t Ht) as (k & Hk & -> & Hp). eauto.
  - apply toTimeString_pattern.
  - intros j k Hj Hk E.
    destruct (toTimeString_pattern j Hj) as [_ Pj].
    destruct (toTimeString_pattern k Hk) as [_ Pk]. congruence.
Qed.

Lemma time_strings_are_minutes_witness :
  parseToMinutes "09:30" = Some 570 ∧ toTimeString 570 = "09:30"%string.
Proof.
  destruct (proj1 time_strings_are_minutes "09:30"%string eq_refl) as (k & _ & Hp & Ht).
  assert (k = 570) as -> by (vm_compute in Hp; congruence).
  split; [reflexivity | exact Ht].
Defined.

(** X2. [parseTime] undoes [formatTime] on every time of the 24-hour form. *)
Theorem parseTime_formatTime t :
  TimeFormat.timePattern t = true →
  TimeFormat.formatTime t ≫= TimeFormat.parseTime = Some t.
Proof.
  intros Ht.
  assert (forallb
            (fun t => implb (TimeFormat.timePattern t)
                        match TimeFormat.formatTime t ≫= TimeFormat.parseTime with
                        | Some t' => String.eqb t' t
                        | None => false
                        end) TimeFormat.timeCandidates = true) as H
    by (vm_compute; reflexivity).
  apply (timePattern_forall _ H) in Ht as H'. clear H. rename H' into H.
  cbv beta in H.
  destruct (TimeFormat.formatTime t ≫= TimeFormat.parseTime) as [t'|]; [|done].
  apply String.eqb_eq in H. by subst.
Qed.

Lemma parseTime_formatTime_witness :
  TimeFormat.formatTime "23:59" ≫= TimeFormat.parseTime = Some "23:59"%string.
Proof. apply parseTime_formatTime. reflexivity. Defined.

(** X3. Stored times compare as strings the way their minutes compare as
    numbers: the order the overlap query and the already-started tests rely
    on. *)
Theorem time_string_order s t :
  TimeFormat.timePattern s = true → TimeFormat.timePattern t = true →
  ∃ a b, parseToMinutes s = Some a ∧ parseToMinutes t = Some b ∧
         String.leb s t = (a <=? b) ∧ String.ltb s t = (a <? b).
Proof.
  intros Hs Ht.
  destruct (timePattern_minutes s Hs) as (a & Ha & -> & Pa).
  destruct (timePattern_minutes t Ht) as (b & Hb & -> & Pb).
  exists a, b. split_and!; try done.
  - apply toTimeString_leb; lia.
  - apply toTimeString_ltb; lia.
Qed.

Lemma time_string_order_witness :
  String.leb "09:30" "10:00" = true ∧ String.ltb "10:00" "09:30" = false.
Proof.
  destruct (time_string_order "09:30" "10:00" eq_refl eq_refl) as (a & b & Pa & Pb & Hl & _).
  destruct (time_string_order "10:00" "09:30" eq_refl eq_refl) as (c & d & Pc & Pd & _ & Hl').
  vm_compute in Pa, Pb, Pc, Pd.
  injection Pa as <-. injection Pb as <-. injection Pc as <-. injection Pd as <-.
  rewrite Hl, Hl'. split; reflexivity.
Defined.

(** *** Instants *)

Lemma getUtcDateTime_offset date t :
  getUtcDateTime date t = utcMidnight date + getUtcDateTime 0 t.
Proof. unfold getUtcDateTime. cbv zeta. change (utcMidnight 0) with 0. lia. Qed.

Lemma getUtcDateTime_toTimeString date k :
  0 <= k < 1440 →
  getUtcDateTime date (toTimeString k) = utcMidnight date + k * MS_PER_MINUTE.
Proof.
  intros Hk. rewrite getUtcDateTime_offset. f_equal.
  assert (forallb (fun k => getUtcDateTime 0 (toTimeString k) =? k * MS_PER_MINUTE)
            (seqZ 0 1440) = true) as H by (vm_compute; reflexivity).
  apply (minutes_forall _ H) in Hk. by apply Z.eqb_eq in Hk.
Qed.

Lemma utcMidnight_bounds d :
  utcMidnight d <= d < utcMidnight d + MS_PER_DAY ∧
  utcMidnight (utcMidnight d) = utcMidnight d.
Proof.
  unfold utcMidnight. change MS_PER_DAY with 86400000. split.
  - Z.div_mod_to_equations. lia.
  - rewrite Z.div_mul by done. done.
Qed.

Lemma currentHM_toTimeString d :
  currentHM d = toTimeString ((d - utcMidnight d) `div` MS_PER_MINUTE) ∧
  0 <= (d - utcMidnight d) `div` MS_PER_MINUTE < 1440.
Proof.
  unfold currentHM, toTimeString, getUTCHours, getUTCMinutes, utcMidnight.
  change MS_PER_DAY with 86400000. change MS_PER_HOUR with 3600000.
  change MS_PER_MINUTE with 60000.
  assert (d - d `div` 86400000 * 86400000 = d `mod` 86400000) as ->
    by (Z.div_mod_to_equations; lia).
  pose proof (Z.mod_pos_bound d 86400000 eq_refl) as Hr.
  set (r := d `mod` 86400000) in *.
  assert (d `mod` 3600000 = r `mod` 3600000) as ->.
  { unfold r. Z.div_mod_to_equations. lia. }
  clearbody r.
  assert ((r `div` 60000) `div` 60 = r `div` 3600000) as ->
    by (rewrite Z.div_div by lia; done).
  assert ((r `div` 60000) `mod` 60 = (r `mod` 3600000) `div` 60000) as ->
    by (Z.div_mod_to_equations; lia).
  split; [done|]. Z.div_mod_to_equations. lia.
Qed.

(** X4. The instant of a slot. For a date that [Date] can hold and whose UTC
    year is not one of [0] to [99], [getUtcDateTime], through [Date.UTC] and
    the getters, is the midnight of the date plus the minutes of the time, on
    the same UTC day, which is the closed form the handlers are modelled
    with; a slot with no start time counts from midnight. In the years [0]
    to [99] [Date.UTC] adds 1900 to the year, and the instant falls 1900
    years after the date. *)
Theorem getUtcDateTime_minutes date :
  - DateUTC.DATE_MAX <= date < DateUTC.DATE_MAX →
  let year := DateUTC.getUTCFullYear date in
  (¬ (0 <= year <= 99) →
   (∀ t, TimeFormat.timePattern t = true →
         ∃ k, parseToMinutes t = Some k ∧
              DateUTC.getUtcDateTime date t = Some (utcMidnight date + k * 60 * 1000) ∧
              getUtcDateTime date t = utcMidnight date + k * 60 * 1000 ∧
              utcMidnight (getUtcDateTime date t) = utcMidnight date)
   ∧ DateUTC.getUtcDateTime date "" = Some (utcMidnight date)
   ∧ getUtcDateTime date "" = utcMidnight date)
  ∧ (0 <= year <= 99 →
     ∀ t, TimeFormat.timePattern t = true →
          ∃ r, DateUTC.getUtcDateTime date t = Some r ∧
               DateUTC.getUTCFullYear r = year + 1900).
Proof.
  intros Hd. cbv zeta.
  pose proof (utcMidnight_bounds date) as [Hm _].
  assert (- DateUTC.DATE_MAX <= utcMidnight date <= DateUTC.DATE_MAX - MS_PER_DAY) as Hb.
  { unfold utcMidnight, DateUTC.DATE_MAX in *. change MS_PER_DAY with 86400000 in *.
    Z.div_mod_to_equations. lia. }
  assert (getUtcDateTime date "" = utcMidnight date) as Hempty
    by (rewrite getUtcDateTime_offset; change (getUtcDateTime 0 "") with 0; lia).
  split.
  - intros Hy. split; [|split; [|done]].
    + intros t Ht. destruct (timePattern_minutes t Ht) as (k & Hk & -> & Hp).
      exists k. rewrite getUtcDateTime_UTC by done.
      rewrite getUtcDateTime_toTimeString by done.
      split; [done|]. split; [|split; [unfold MS_PER_MINUTE; lia|]].
      * unfold DateUTC.TimeClip.
        assert (Z.abs (utcMidnight date + k * MS_PER_MINUTE) <= 8640000000000000) as Hc.
        { unfold DateUTC.DATE_MAX in *. change MS_PER_DAY with 86400000 in *.
          change MS_PER_MINUTE with 60000. lia. }
        apply Z.ltb_ge in Hc. rewrite Hc. f_equal. unfold MS_PER_MINUTE. lia.
      * unfold utcMidnight. change MS_PER_DAY with 86400000.
        change MS_PER_MINUTE with 60000. f_equal. Z.div_mod_to_equations. lia.
    + rewrite getUtcDateTime_UTC, Hempty by done. unfold DateUTC.TimeClip.
      assert (Z.abs (utcMidnight date) <= 8640000000000000) as Hc.
      { unfold DateUTC.DATE_MAX in *. change MS_PER_DAY with 86400000 in *. lia. }
      apply Z.ltb_ge in Hc. by rewrite Hc.
  - intros Hy t Ht. destruct (timePattern_minutes t Ht) as (k & Hk & -> & Hp).
    unfold DateUTC.getUtcDateTime. cbv zeta.
    apply UTC_getters_1900; [done|].
    pose proof (getUtcDateTime_toTimeString 0 k Hk) as Hg.
    unfold getUtcDateTime in Hg. cbv zeta in Hg. change (utcMidnight 0) with 0 in Hg.
    unfold MS_PER_DAY, MS_PER_HOUR, MS_PER_MINUTE in *. lia.
Qed.

(** Day 100 of 1970 at 09:30, and 15 June of the year 50. *)
Lemma getUtcDateTime_minutes_witness :
  (DateUTC.getUtcDateTime (Scenario.day 100 + 5) "09:30" = Some (Scenario.at_ 100 9 30)
   ∧ getUtcDateTime (Scenario.day 100 + 5) "09:30" = Scenario.at_ 100 9 30)
  ∧ ∃ r, DateUTC.getUtcDateTime (-60574996800000) "09:30" = Some r ∧
         DateUTC.getUTCFullYear r = 1950.
Proof.
  split.
  - destruct (proj1 (proj1 (getUtcDateTime_minutes (Scenario.day 100 + 5)
                              ltac:(vm_compute; split; congruence))
                       ltac:(vm_compute; intros [_ H]; apply H; reflexivity))
                "09:30"%string eq_refl)
      as (k & Hp & Hu & Hg & _).
    vm_compute in Hp. injection Hp as <-. split; [exact Hu|exact Hg].
  - exact (proj2 (getUtcDateTime_minutes (-60574996800000)
                    ltac:(vm_compute; split; congruence))
             ltac:(vm_compute; split; congruence) "09:30"%string eq_refl).
Defined.

(** ** The two tests for a slot that has started *)

Lemma started_guard_minutes date k nowUtc :
  0 <= k < 1440 → utcMidnight date = date →
  ((date <? utcMidnight nowUtc)
   || ((date =? utcMidnight nowUtc) && String.leb (toTimeString k) (currentHM nowUtc)))
  = (getUtcDateTime date (toTimeString k) <=? nowUtc).
Proof.
  intros Hk Hd. rewrite getUtcDateTime_toTimeString, Hd by done.
  destruct (currentHM_toTimeString nowUtc) as [-> Hm].
  rewrite toTimeString_leb by lia.
  pose proof (utcMidnight_bounds nowUtc) as [Hn _].
  assert (∃ q, date = q * 86400000) as [q ->]
    by (exists (date `div` MS_PER_DAY); rewrite <- Hd at 1; done).
  assert (∃ p, utcMidnight nowUtc = p * 86400000) as [p Hp]
    by (by exists (nowUtc `div` MS_PER_DAY)).
  rewrite Hp in *. change MS_PER_DAY with 86400000 in *.
  change MS_PER_MINUTE with 60000 in *.
  destruct (Z.ltb_spec (q * 86400000) (p * 86400000));
    destruct (Z.eqb_spec (q * 86400000) (p * 86400000));
    destruct (Z.leb_spec k ((nowUtc - p * 86400000) `div` 60000));
    destruct (Z.leb_spec (q * 86400000 + k * 60000) nowUtc);
    try reflexivity; exfalso; Z.div_mod_to_equations; lia.
Qed.

(** X5. For a slot as [createTimeSlot] stores it (a date at UTC midnight, a start
    time of the [HH:MM] form), [confirmBooking] refuses the slot as past or
    started exactly when [getUtcDateTime(date, startTime) <= nowUtc], the test
    of [rescheduleAppointment] and [confirmReschedule]; seconds within the
    current minute make no difference. *)
Theorem started_tests_agree slot doctorId timeSlotId userId notes nowUtc db :
  TimeFormat.timePattern (TimeSlot.startTime slot) = true →
  utcMidnight (TimeSlot.date slot) = TimeSlot.date slot →
  (getUtcDateTime (TimeSlot.date slot) (TimeSlot.startTime slot) <= nowUtc
   ↔ ∃ c m,
       confirmBooking_tx slot doctorId timeSlotId userId notes nowUtc db = inl (Thrown c m) ∧
       (c = "SLOT_IN_PAST"%string ∨ c = "SLOT_ALREADY_STARTED"%string)).
Proof.
  intros Ht Hd.
  destruct (timePattern_minutes _ Ht) as (k & Hk & Hs & _).
  pose proof (started_guard_minutes (TimeSlot.date slot) k nowUtc Hk Hd) as G.
  rewrite <- Hs in G. unfold confirmBooking_tx. cbv zeta.
  destruct (TimeSlot.date slot <? utcMidnight nowUtc) eqn:G1.
  { simpl in G. symmetry in G. apply Z.leb_le in G. split; [|done].
    intros _. eexists _, _. split; [done|by left]. }
  destruct ((TimeSlot.date slot =? utcMidnight nowUtc)
            && String.leb (TimeSlot.startTime slot) (currentHM nowUtc)) eqn:G2.
  { simpl in G. symmetry in G. apply Z.leb_le in G. split; [|done].
    intros _. eexists _, _. split; [done|by right]. }
  simpl in G. symmetry in G. apply Z.leb_gt in G. split; [lia|].
  intros (c & m & E & Hc). exfalso. revert E.
  destruct (Prisma.timeSlot_updateMany _ _ _ _) as [count slots].
  destruct (negb _); [intros [= <- <-]; by destruct Hc|].
  destruct (existsb _ _); [intros [= <- <-]; by destruct Hc|].
  unfold Prisma.appointment_create.
  destruct (Prisma.user_update _ _ _); [done|].
  unfold RecordNotFound. intros [= <- <-]. by destruct Hc.
Qed.

Lemma started_tests_agree_witness :
  ∃ c m,
    confirmBooking_tx (Scenario.freeSlot 1 100 "09:00" "09:30") 1 10 7 None
      (Scenario.at_ 100 9 0 + 59999) Scenario.db1 = inl (Thrown c m) ∧
    (c = "SLOT_IN_PAST"%string ∨ c = "SLOT_ALREADY_STARTED"%string).
Proof.
  apply (started_tests_agree (Scenario.freeSlot 1 100 "09:00" "09:30") 1 10 7 None
           (Scenario.at_ 100 9 0 + 59999) Scenario.db1 eq_refl eq_refl).
  vm_compute. congruence.
Defined.

(** ** Leases *)


(** ** The shape of the lease columns *)

Lemma leaseShaped_lockFor userId nowUtc s : leaseShaped (lockFor userId nowUtc s).
Proof.
  split; simpl; [done|]. intros _. by exists userId, nowUtc.
Qed.

Lemma leaseShaped_markBooked s : leaseShaped (markBooked s).
Proof. split; simpl; done. Qed.

Lemma leaseShaped_available s :
  TimeSlot.status s = SLOT_STATUS.AVAILABLE → leaseShaped s.
Proof. intros H. split; rewrite H; done. Qed.

Lemma leasesShaped_insert db db' k v :
  leasesShaped db →
  timeSlots db' = <[k := v]> (timeSlots db) →
  leaseShaped v →
  leasesShaped db'.
Proof.
  intros Hdb Heq Hv id s. rewrite Heq.
  destruct (decide (id = k)) as [->|Hne].
  - rewrite lookup_insert_eq. by intros [= <-].
  - rewrite lookup_insert_ne by done. apply Hdb.
Qed.

Lemma leasesShaped_same db db' :
  leasesShaped db → timeSlots db' = timeSlots db → leasesShaped db'.
Proof. intros Hdb Heq id s. rewrite Heq. apply Hdb. Qed.

Lemma releaseExpiredLocks_lookup now db id :
  timeSlots (releaseExpiredLocks now db) !! id
  = (fun s => if bool_decide (TimeSlot.status s = SLOT_STATUS.LOCKED) && expiredAt now s
              then releaseExpired s else s) <$> timeSlots db !! id.
Proof. unfold releaseExpiredLocks, Prisma.timeSlot_updateAll. simpl. apply lookup_fmap. Qed.

Lemma releaseExpiredLocks_leasesShaped now db :
  leasesShaped db → leasesShaped (releaseExpiredLocks now db).
Proof.
  intros Hdb id s. rewrite releaseExpiredLocks_lookup.
  destruct (timeSlots db !! id) as [s0|] eqn:E; simpl; [|done].
  intros [= <-]. case_match.
  - by apply leaseShaped_available.
  - by apply (Hdb id).
Qed.

Section Leases.

Variable vA : nat -> nat -> option string -> option string.
Variable vS : APPOINTMENT_STATUS.t -> option string.
Variable vP : nat -> option string.
Variable vR : nat -> nat -> nat -> nat -> option string.

(** What [rescheduleAppointment] does, over all its inputs. *)
Lemma rescheduleAppointment_cases id newTimeSlotId userId nowUtc snap db :
  let o := rescheduleAppointment vP id newTimeSlotId userId nowUtc snap db in
  (success (response o) = false ∧ store o = db)
  ∨ (∃ appt timeSlotId timeSlot newSlot s,
       appointments snap !! id = Some appt ∧
       Appointment.userId appt = userId ∧
       Appointment.status appt = APPOINTMENT_STATUS.BOOKED ∧
       Appointment.timeSlotId appt = Some timeSlotId ∧
       timeSlots snap !! timeSlotId = Some timeSlot ∧
       timeSlotId ≠ newTimeSlotId ∧
       24 * 60 * 60 * 1000
       < getUtcDateTime (TimeSlot.date timeSlot) (TimeSlot.startTime timeSlot) - nowUtc ∧
       timeSlots snap !! newTimeSlotId = Some newSlot ∧
       TimeSlot.doctorId newSlot = Appointment.doctorId appt ∧
       nowUtc < getUtcDateTime (TimeSlot.date newSlot) (TimeSlot.startTime newSlot) ∧
       timeSlots db !! newTimeSlotId = Some s ∧
       TimeSlot.doctorId s = Appointment.doctorId appt ∧
       rescheduleLockable userId nowUtc s = true ∧
       response o = ok 200 "New time slot locked for reschedule"
                      (RescheduleLockData newTimeSlotId (Appointment.doctorId appt) userId
                         nowUtc (nowUtc + 5 * 60 * 1000) timeSlotId) ∧
       store o = mkDB (<[newTimeSlotId := lockFor userId nowUtc s]> (timeSlots db))
                   (appointments db) (users db)).
Proof.
  cbv zeta. unfold rescheduleAppointment.
  destruct (vP _); [by left|].
  destruct (Prisma.appointment_findFirst _ _ _) as [appt|] eqn:F; [|by left].
  apply appointment_findFirst_Some in F as [F Hu].
  destruct (negb _) eqn:B; [by left|].
  apply negb_false_iff, bool_decide_eq_true in B.
  destruct (Appointment.timeSlotId appt) as [timeSlotId|] eqn:T; [|by left].
  simpl. destruct (timeSlots snap !! timeSlotId) as [timeSlot|] eqn:S; [|by left].
  simpl. destruct (bool_decide (timeSlotId = newTimeSlotId)) eqn:N; [by left|].
  apply bool_decide_eq_false in N.
  destruct (_ <=? 24 * 60 * 60 * 1000) eqn:W; [by left|]. apply Z.leb_gt in W.
  destruct (Prisma.timeSlot_findFirst _ _ _) as [newSlot|] eqn:FN; [|by left].
  apply timeSlot_findFirst_Some in FN as [FN FD].
  destruct (_ <=? nowUtc) eqn:P; [by left|]. apply Z.leb_gt in P.
  destruct (Prisma.timeSlot_updateMany _ _ _ _) as [count slots] eqn:U.
  apply timeSlot_updateMany_spec in U as [(-> & s & Hs & Hc & ->)|(-> & -> & _)];
    [|by left].
  apply andb_true_iff in Hc as [Hd Hl]. apply bool_decide_eq_true in Hd.
  right. exists appt, timeSlotId, timeSlot, newSlot, s. simpl. split_and!; done.
Qed.

(** X6. [rescheduleAppointment] only reserves: it writes no appointment, no user
    and no slot row but the new slot's. When it succeeds, the appointment is
    the caller's and [BOOKED], its slot starts more than 24 hours after
    [nowUtc], the new slot is another slot of the same doctor that starts
    after [nowUtc], and the new slot row carries the caller's lease for five
    minutes. *)
Theorem rescheduleAppointment_reserves id newTimeSlotId userId nowUtc snap db :
  let o := rescheduleAppointment vP id newTimeSlotId userId nowUtc snap db in
  appointments (store o) = appointments db ∧
  users (store o) = users db ∧
  (∀ i, i ≠ newTimeSlotId → timeSlots (store o) !! i = timeSlots db !! i) ∧
  (success (response o) = false → store o = db) ∧
  (success (response o) = true →
   ∃ appt timeSlotId timeSlot newSlot s,
     appointments snap !! id = Some appt ∧
     Appointment.userId appt = userId ∧
     Appointment.status appt = APPOINTMENT_STATUS.BOOKED ∧
     Appointment.timeSlotId appt = Some timeSlotId ∧
     timeSlotId ≠ newTimeSlotId ∧
     timeSlots snap !! timeSlotId = Some timeSlot ∧
     24 * 60 * 60 * 1000
     < getUtcDateTime (TimeSlot.date timeSlot) (TimeSlot.startTime timeSlot) - nowUtc ∧
     timeSlots snap !! newTimeSlotId = Some newSlot ∧
     TimeSlot.doctorId newSlot = Appointment.doctorId appt ∧
     nowUtc < getUtcDateTime (TimeSlot.date newSlot) (TimeSlot.startTime newSlot) ∧
     timeSlots db !! newTimeSlotId = Some s ∧
     timeSlots (store o) !! newTimeSlotId
     = Some (TimeSlot.mk (TimeSlot.doctorId s) (TimeSlot.date s) (TimeSlot.startTime s)
               (TimeSlot.endTime s) SLOT_STATUS.LOCKED (Some userId) (Some nowUtc)
               (Some (nowUtc + 5 * 60 * 1000)))).
Proof.
  intros o.
  destruct (rescheduleAppointment_cases id newTimeSlotId userId nowUtc snap db)
    as [[Hf Hs]|(appt & timeSlotId & timeSlot & newSlot & s & H1 & H2 & H3 & H4 & H5 & H6 & H7
                 & H8 & H9 & H10 & H11 & H12 & H13 & Hr & Hs)];
    fold o in Hf, Hs || fold o in Hr, Hs.
  - rewrite Hs. split_and!; try done. congruence.
  - rewrite Hs, Hr. simpl. split_and!; try done.
    + intros i Hi. by rewrite lookup_insert_ne.
    + intros _. exists appt, timeSlotId, timeSlot, newSlot, s.
      rewrite lookup_insert_eq. split_and!; done.
Qed.

(** X7. A slot that is [BOOKED], or that another user holds until [nowUtc] or
    later, is out of the caller's reach: whatever the caller read before,
    a request to lock it, to reserve it for a reschedule, to book it or to
    confirm a reschedule onto it fails and writes nothing. *)
Theorem taken_slot_untouched db slotId s userId nowUtc :
  timeSlots db !! slotId = Some s →
  takenFrom userId nowUtc s →
  (∀ doctorId redis snap,
     let o := lockTimeSlot doctorId slotId userId nowUtc redis snap db in
     success (response o) = false ∧ store o = db)
  ∧ (∀ id snap,
       let o := rescheduleAppointment vP id slotId userId nowUtc snap db in
       success (response o) = false ∧ store o = db)
  ∧ (∀ doctorId notes redis snap,
       let o := confirmBooking vA doctorId slotId notes userId nowUtc redis snap db in
       success (response o) = false ∧ store o = db)
  ∧ (∀ appointmentId oldSlotId doctorId redis snap,
       let o := confirmReschedule vR appointmentId slotId oldSlotId doctorId userId nowUtc
                  redis snap db in
       success (response o) = false ∧ store o = db).
Proof.
  intros Hs Ht.
  assert (lockable userId nowUtc s = false ∧ rescheduleLockable userId nowUtc s = false ∧
          heldBy userId nowUtc s = false) as (Hl & Hrl & Hh).
  { unfold lockable, rescheduleLockable, heldBy, expiredAt.
    destruct Ht as [(St & Hb & He)|(St & holder & e & Hb & Hne & He & Hle)];
      rewrite St, Hb, He; simpl.
    - done.
    - rewrite bool_decide_eq_false_2 by congruence.
      assert ((e <? nowUtc) = false) as -> by (apply Z.ltb_ge; lia). done. }
  split_and!.
  - intros doctorId redis snap o.
    destruct (lockTimeSlot_cases doctorId slotId userId nowUtc redis snap db)
      as [?|(slot & s' & _ & _ & _ & _ & Hs' & _ & Hl' & _)]; [done|].
    rewrite Hs in Hs'. injection Hs' as <-. congruence.
  - intros id snap o.
    destruct (rescheduleAppointment_cases id slotId userId nowUtc snap db)
      as [?|(appt & timeSlotId & timeSlot & newSlot & s' & _ & _ & _ & _ & _ & _ & _ & _ & _
             & _ & Hs' & _ & Hl' & _)]; [done|].
    rewrite Hs in Hs'. injection Hs' as <-. congruence.
  - intros doctorId notes redis snap o.
    destruct (confirmBooking_cases vA doctorId slotId notes userId nowUtc redis snap db)
      as [?|(slot & s' & u & t & _ & _ & _ & _ & _ & _ & Hs' & _ & Hh' & _)]; [done|].
    rewrite Hs in Hs'. injection Hs' as <-. congruence.
  - intros appointmentId oldSlotId doctorId redis snap o.
    destruct (confirmReschedule_cases vR appointmentId slotId oldSlotId doctorId userId
                nowUtc redis snap db)
      as [?|(appt & newSlot & oldSlot & a & _ & _ & _ & _ & _ & _ & Hs' & _ & Hh' & _)];
      [done|].
    rewrite Hs in Hs'. injection Hs' as <-. congruence.
Qed.

(** X8. The lease columns keep their shape in every store the service reaches,
    whatever requests are served and whenever the clean-up job runs: a
    [BOOKED] slot carries no lease, and a [LOCKED] slot carries its holder,
    the instant it was locked and an expiry exactly five minutes later. *)
Theorem leasesShaped_reachable allowed init db :
  leasesShaped init →
  reachable vA vS vP vR allowed init db →
  leasesShaped db.
Proof.
  intros Hinit Hr.
  induction Hr as [|req nowUtc redis db Hr IH Hreq|now db Hr IH];
    [done| |by apply releaseExpiredLocks_leasesShaped].
  destruct req; simpl.
  - destruct (lockTimeSlot_cases doctorId slotId userId nowUtc redis db db)
      as [[_ ->]|(slot & s & _ & _ & _ & _ & _ & _ & _ & _ & ->)]; [done|].
    eapply leasesShaped_insert; [done|done|apply leaseShaped_lockFor].
  - destruct (confirmBooking_cases vA doctorId timeSlotId notes userId nowUtc redis db db)
      as [[_ ->]|(slot & s & u & t & _ & _ & _ & _ & _ & _ & _ & _ & _ & _ & _ & _ & ->)];
      [done|].
    eapply leasesShaped_insert; [done|done|apply leaseShaped_markBooked].
  - destruct (updateAppointmentStatus_store vS id status userId redis db db)
      as [->|(a & _ & ->)]; [done|].
    by eapply leasesShaped_same.
  - destruct (rescheduleAppointment_cases id newTimeSlotId userId nowUtc db db)
      as [[_ ->]|(appt & timeSlotId & timeSlot & newSlot & s & _ & _ & _ & _ & _ & _ & _ & _
                  & _ & _ & _ & _ & _ & _ & ->)]; [done|].
    eapply leasesShaped_insert; [done|done|apply leaseShaped_lockFor].
  - destruct (cancelAppointment_cases id userId nowUtc redis db db)
      as [[_ ->]|(appt & a & _ & _ & _ & _ & _ & _ & _
                  & [(s & timeSlotId & s' & _ & _ & _ & _ & _ & Hs)|Hs])]; [done| |].
    + eapply leasesShaped_insert; [done|done|by apply leaseShaped_available].
    + by eapply leasesShaped_same.
  - destruct (confirmReschedule_cases vR appointmentId newSlotId oldSlotId doctorId userId
                nowUtc redis db db)
      as [[_ ->]|(appt & newSlot & oldSlot & a & _ & _ & _ & _ & _ & _ & _ & _ & _ & _ & _
                  & _ & ->)]; [done|].
    eapply (leasesShaped_insert
              (mkDB (<[newSlotId := markBooked newSlot]> (timeSlots db))
                 (appointments db) (users db)));
      [|done|by apply leaseShaped_available].
    eapply leasesShaped_insert; [done|done|apply leaseShaped_markBooked].
Qed.

End Leases.

(** ** The clean-up job of [app.js] *)

Lemma releaseExpired_step now s :
  let f := fun s => if bool_decide (TimeSlot.status s = SLOT_STATUS.LOCKED) && expiredAt now s
                    then releaseExpired s else s in
  TimeSlot.doctorId (f s) = TimeSlot.doctorId s ∧
  TimeSlot.date (f s) = TimeSlot.date s ∧
  TimeSlot.startTime (f s) = TimeSlot.startTime s ∧
  TimeSlot.endTime (f s) = TimeSlot.endTime s.
Proof. cbv beta zeta. by destruct (_ && _). Qed.

Lemma DB_eq db db' :
  timeSlots db = timeSlots db' → appointments db = appointments db' →
  users db = users db' → db = db'.
Proof. destruct db, db'. simpl. by intros -> -> ->. Qed.

(** X9. After the clean-up job has run at [now], no slot is [LOCKED] with a lease
    that ended before [now]; the slots it releases are exactly those, and they
    come out [AVAILABLE] with the three lease columns cleared. A lease that has
    not ended, a [BOOKED] slot and an [AVAILABLE] slot are left as they are,
    as are all appointments and users. *)
Theorem releaseExpiredLocks_sweep now db :
  appointments (releaseExpiredLocks now db) = appointments db ∧
  users (releaseExpiredLocks now db) = users db ∧
  (∀ id, timeSlots (releaseExpiredLocks now db) !! id = None ↔ timeSlots db !! id = None) ∧
  (∀ id s, timeSlots (releaseExpiredLocks now db) !! id = Some s →
           TimeSlot.status s = SLOT_STATUS.LOCKED →
           ∀ e, TimeSlot.lockExpires s = Some e → now <= e) ∧
  (∀ id s e, timeSlots db !! id = Some s →
             TimeSlot.status s = SLOT_STATUS.LOCKED →
             TimeSlot.lockExpires s = Some e → e < now →
             timeSlots (releaseExpiredLocks now db) !! id
             = Some (TimeSlot.mk (TimeSlot.doctorId s) (TimeSlot.date s)
                       (TimeSlot.startTime s) (TimeSlot.endTime s)
                       SLOT_STATUS.AVAILABLE None None None)) ∧
  (∀ id s, timeSlots db !! id = Some s →
           (TimeSlot.status s ≠ SLOT_STATUS.LOCKED
            ∨ TimeSlot.lockExpires s = None
            ∨ ∃ e, TimeSlot.lockExpires s = Some e ∧ now <= e) →
           timeSlots (releaseExpiredLocks now db) !! id = Some s).
Proof.
  split_and!; try done.
  - intros id. rewrite releaseExpiredLocks_lookup. apply fmap_None.
  - intros id s. rewrite releaseExpiredLocks_lookup.
    destruct (timeSlots db !! id) as [s0|]; simpl; [|done].
    intros [= <-]. destruct (bool_decide _ && expiredAt now s0) eqn:E; [done|].
    intros St e He. rewrite bool_decide_eq_true_2 in E by done.
    unfold expiredAt in E. rewrite He in E. simpl in E. by apply Z.ltb_ge in E.
  - intros id s e Hs St He Hlt. rewrite releaseExpiredLocks_lookup, Hs. simpl.
    unfold expiredAt. rewrite He, bool_decide_eq_true_2 by done.
    by apply Z.ltb_lt in Hlt as ->.
  - intros id s Hs H. rewrite releaseExpiredLocks_lookup, Hs. simpl.
    unfold expiredAt. destruct H as [H|[H|(e & H & Hle)]].
    + by rewrite bool_decide_eq_false_2.
    + rewrite H. by rewrite andb_false_r.
    + rewrite H. apply Z.ltb_ge in Hle as ->. by rewrite andb_false_r.
Qed.

Lemma releaseExpired_twice t1 t2 s :
  t1 <= t2 →
  let f := fun now s =>
             if bool_decide (TimeSlot.status s = SLOT_STATUS.LOCKED) && expiredAt now s
             then releaseExpired s else s in
  f t2 (f t1 s) = f t2 s ∧ f t1 (f t2 s) = f t2 s.
Proof.
  intros Hle. cbv beta zeta. unfold expiredAt.
  destruct s as [d dt st en status lb la le]. simpl.
  destruct (bool_decide (status = SLOT_STATUS.LOCKED)) eqn:St; simpl;
    [|by rewrite St].
  destruct le as [e|]; simpl; [|by rewrite St].
  destruct (e <? t1) eqn:E1, (e <? t2) eqn:E2; simpl; rewrite ?St; simpl;
    rewrite ?E1, ?E2; simpl; try done.
  apply Z.ltb_lt in E1. apply Z.ltb_ge in E2. lia.
Qed.

(** X10. A later run of the clean-up job leaves nothing for an earlier one and
    loses nothing by it: running it at [t1] and then at [t2 >= t1], or the
    other way round, gives the store of one run at [t2]. In particular a
    second run at the same instant changes nothing. *)
Theorem releaseExpiredLocks_absorbs t1 t2 db :
  t1 <= t2 →
  releaseExpiredLocks t2 (releaseExpiredLocks t1 db) = releaseExpiredLocks t2 db ∧
  releaseExpiredLocks t1 (releaseExpiredLocks t2 db) = releaseExpiredLocks t2 db.
Proof.
  intros Hle. split; apply DB_eq; try done; apply map_eq; intros id;
    rewrite !releaseExpiredLocks_lookup; destruct (timeSlots db !! id) as [s|]; simpl;
    try done; f_equal; by destruct (releaseExpired_twice t1 t2 s Hle).
Qed.

Section Sweep.

Variable vP : nat -> option string.

Lemma rescheduleLockable_released userId nowUtc now s :
  now <= nowUtc →
  rescheduleLockable userId nowUtc
    (if bool_decide (TimeSlot.status s = SLOT_STATUS.LOCKED) && expiredAt now s
     then releaseExpired s else s)
  = rescheduleLockable userId nowUtc s.
Proof.
  intros Hle. destruct (bool_decide _ && expiredAt now s) eqn:E; [|done].
  apply andb_true_iff in E as [St E]. unfold rescheduleLockable, expiredAt in *.
  rewrite St. destruct (TimeSlot.lockExpires s) as [e|]; [|done].
  apply Z.ltb_lt in E. assert ((e <? nowUtc) = true) as -> by (apply Z.ltb_lt; lia).
  simpl. by rewrite orb_true_r.
Qed.

(** X11. A reservation for a reschedule does not depend on the clean-up job: when
    the job has run at [now <= nowUtc] before the request, the answer is the
    one the request gets without it, and the store is the one the job would
    leave after the request. *)
Theorem rescheduleAppointment_after_sweep id newTimeSlotId userId nowUtc now db :
  now <= nowUtc →
  let swept := releaseExpiredLocks now db in
  let o := rescheduleAppointment vP id newTimeSlotId userId nowUtc db db in
  let o' := rescheduleAppointment vP id newTimeSlotId userId nowUtc swept swept in
  response o' = response o ∧ store o' = releaseExpiredLocks now (store o).
Proof.
  intros Hle. cbv zeta.
  remember (releaseExpiredLocks now db) as swept eqn:Hsw.
  assert (∀ i, timeSlots swept !! i
               = (fun s => if bool_decide (TimeSlot.status s = SLOT_STATUS.LOCKED)
                              && expiredAt now s
                           then releaseExpired s else s) <$> timeSlots db !! i) as Hlk
    by (intros i; subst swept; apply releaseExpiredLocks_lookup).
  assert (appointments swept = appointments db) as Ha by (by subst swept).
  unfold rescheduleAppointment. rewrite Ha.
  destruct (vP _); [by subst swept|].
  destruct (Prisma.appointment_findFirst _ _ _) as [appt|]; [|by subst swept].
  destruct (negb _); [by subst swept|].
  destruct (Appointment.timeSlotId appt) as [timeSlotId|]; [|by subst swept].
  unfold mbind, option_bind. rewrite Hlk.
  destruct (timeSlots db !! timeSlotId) as [timeSlot|]; [|by subst swept].
  simpl. destruct (bool_decide (timeSlotId = newTimeSlotId)); [by subst swept|].
  destruct (releaseExpired_step now timeSlot) as (_ & -> & -> & _).
  destruct (_ <=? 24 * 60 * 60 * 1000); [by subst swept|].
  unfold Prisma.timeSlot_findFirst. rewrite Hlk.
  destruct (timeSlots db !! newTimeSlotId) as [newSlot|] eqn:N; [|by subst swept].
  simpl. destruct (releaseExpired_step now newSlot) as (Hd & Hdt & Hst & Hen).
  rewrite Hd. destruct (decide _); [|by subst swept].
  rewrite Hdt, Hst.
  destruct (_ <=? nowUtc); [by subst swept|].
  unfold Prisma.timeSlot_updateMany. rewrite Hlk, N. simpl.
  rewrite Hd, rescheduleLockable_released by done.
  destruct (bool_decide _ && rescheduleLockable userId nowUtc newSlot); [|by subst swept].
  simpl. split; [done|]. subst swept. apply DB_eq; try done. simpl.
  unfold Prisma.timeSlot_updateAll. rewrite fmap_insert. f_equal.
  unfold lockFor at 2. unfold expiredAt. simpl.
  assert ((nowUtc + 5 * 60 * 1000 <? now) = false) as -> by (apply Z.ltb_ge; lia).
  simpl. by destruct (bool_decide _ && _).
Qed.

End Sweep.

(** ** The flows: one request after another *)

Lemma started_guard slot nowUtc :
  TimeFormat.timePattern (TimeSlot.startTime slot) = true →
  utcMidnight (TimeSlot.date slot) = TimeSlot.date slot →
  nowUtc < getUtcDateTime (TimeSlot.date slot) (TimeSlot.startTime slot) →
  (TimeSlot.date slot <? utcMidnight nowUtc) = false ∧
  ((TimeSlot.date slot =? utcMidnight nowUtc)
   && String.leb (TimeSlot.startTime slot) (currentHM nowUtc)) = false.
Proof.
  intros Ht Hd Hlt.
  destruct (timePattern_minutes _ Ht) as (k & Hk & Hs & _).
  pose proof (started_guard_minutes (TimeSlot.date slot) k nowUtc Hk Hd) as G.
  rewrite <- Hs in G. apply Z.leb_gt in Hlt. rewrite Hlt in G.
  by apply orb_false_iff in G.
Qed.

Lemma lockTimeSlot_succeeds doctorId slotId userId nowUtc redis db slot :
  timeSlots db !! slotId = Some slot →
  TimeSlot.doctorId slot = doctorId →
  TimeSlot.status slot = SLOT_STATUS.AVAILABLE →
  (Prisma.timeSlot_count (heldBy userId nowUtc) (timeSlots db) < 3)%nat →
  let o := lockTimeSlot doctorId slotId userId nowUtc redis db db in
  response o = ok 200 "Slot locked"
                 (LockData slotId doctorId userId nowUtc (nowUtc + 5 * 60 * 1000)) ∧
  store o = mkDB (<[slotId := lockFor userId nowUtc slot]> (timeSlots db))
              (appointments db) (users db).
Proof.
  intros S D A C. cbv zeta. unfold lockTimeSlot.
  assert (Prisma.timeSlot_findFirst slotId doctorId (timeSlots db) = Some slot) as ->
    by by apply timeSlot_findFirst_Some.
  rewrite A. cbn [bool_decide decide_rel andb].
  apply Nat.leb_gt in C. rewrite C.
  unfold Prisma.timeSlot_updateMany. rewrite S.
  unfold lockable. rewrite A, (bool_decide_eq_true_2 _ D). simpl.
  done.
Qed.

Lemma heldBy_lockFor userId T nowUtc s :
  heldBy userId nowUtc (lockFor userId T s) = (nowUtc <? T + 5 * 60 * 1000).
Proof.
  unfold heldBy, lockFor. simpl.
  by rewrite !bool_decide_eq_true_2 by done.
Qed.

Lemma timeSlot_count_insert cond k v (m : gmap nat TimeSlot.t) s :
  m !! k = Some s → cond s = false → cond v = false →
  Prisma.timeSlot_count cond (<[k := v]> m) = Prisma.timeSlot_count cond m.
Proof.
  intros Hk Hs Hv. unfold Prisma.timeSlot_count.
  rewrite <- (map_to_list_delete m k s Hk), <- (insert_delete_eq m k v).
  rewrite map_to_list_insert by apply lookup_delete_eq.
  rewrite !filter_cons_False; [done|simpl; congruence|simpl; congruence].
Qed.

Lemma timeSlot_count_fmap_le cond f (m : gmap nat TimeSlot.t) :
  (∀ s, cond (f s) = true → cond s = true) →
  (Prisma.timeSlot_count cond (f <$> m) <= Prisma.timeSlot_count cond m)%nat.
Proof.
  intros Hf. unfold Prisma.timeSlot_count. rewrite map_to_list_fmap.
  induction (map_to_list m) as [|[k s] l IH]; [done|].
  rewrite fmap_cons. simpl. rewrite !filter_cons. simpl.
  destruct (decide (cond (f s) = true)) as [H|H].
  - rewrite decide_True by auto. simpl. lia.
  - destruct (decide (cond s = true)); simpl; lia.
Qed.

Lemma cancelAppointment_releases id userId nowUtc redis db appt slotId slot :
  appointments db !! id = Some appt →
  Appointment.userId appt = userId →
  Appointment.status appt = APPOINTMENT_STATUS.BOOKED →
  Appointment.timeSlotId appt = Some slotId →
  timeSlots db !! slotId = Some slot →
  TimeSlot.status slot = SLOT_STATUS.BOOKED →
  24 * 60 * 60 * 1000
  < getUtcDateTime (TimeSlot.date slot) (TimeSlot.startTime slot) - nowUtc →
  let o := cancelAppointment id userId nowUtc redis db db in
  response o = ok 200 "Appointment cancelled"
                 (CancelData id APPOINTMENT_STATUS.CANCELLED (Some slotId) true) ∧
  store o = mkDB (<[slotId := releaseOnCancel slot]> (timeSlots db))
              (<[id := setStatus APPOINTMENT_STATUS.CANCELLED appt]> (appointments db))
              (users db).
Proof.
  intros Ha Hu Hb Hid Hs Hst H24. cbv zeta. unfold cancelAppointment.
  assert (Prisma.appointment_findFirst id userId (appointments db) = Some appt) as ->
    by by apply appointment_findFirst_Some.
  rewrite Hb, Hid. simpl. rewrite Hs.
  assert (id < length (appointments db))%nat as Hlt by (by eapply lookup_lt_Some).
  unfold Prisma.transaction, cancelAppointment_tx. rewrite Hid.
  unfold Prisma.appointment_update, Prisma.timeSlot_update. rewrite Ha, Hs.
  apply Z.ltb_lt in H24. rewrite H24, (bool_decide_eq_true_2 _ Hst). simpl.
  rewrite list_lookup_insert_eq by done. simpl. by rewrite Hid.
Qed.



Section Flows.

Variable vA : nat -> nat -> option string -> option string.
Variable vP : nat -> option string.
Variable vR : nat -> nat -> nat -> nat -> option string.

(** X12. Booking in two steps. A user whose passcode window is open locks an
    [AVAILABLE] slot at [T] and confirms at [nowUtc], less than five minutes
    after [T] and before the slot starts, with no request in between: both
    requests succeed, the slot ends [BOOKED] with no lease, one appointment
    is added for it and the passcode window is closed. *)
Theorem lock_then_confirm doctorId slotId notes userId T nowUtc redis redis' db slot usr otp :
  vA doctorId slotId notes = None →
  timeSlots db !! slotId = Some slot →
  TimeSlot.doctorId slot = doctorId →
  TimeSlot.status slot = SLOT_STATUS.AVAILABLE →
  TimeFormat.timePattern (TimeSlot.startTime slot) = true →
  utcMidnight (TimeSlot.date slot) = TimeSlot.date slot →
  (Prisma.timeSlot_count (heldBy userId T) (timeSlots db) < 3)%nat →
  existsb (bookedOn slotId) (appointments db) = false →
  users db !! userId = Some usr →
  User.otpVerifiedUntil usr = Some otp →
  nowUtc < otp →
  nowUtc < T + 5 * 60 * 1000 →
  nowUtc < getUtcDateTime (TimeSlot.date slot) (TimeSlot.startTime slot) →
  let locked := lockTimeSlot doctorId slotId userId T redis db db in
  let o := confirmBooking vA doctorId slotId notes userId nowUtc redis'
             (store locked) (store locked) in
  let a := Appointment.mk userId doctorId (Some slotId) APPOINTMENT_STATUS.BOOKED
             (notesOrNull notes) in
  response locked = ok 200 "Slot locked"
                      (LockData slotId doctorId userId T (T + 5 * 60 * 1000)) ∧
  response o = ok 201 "Appointment booked successfully"
                 (AppointmentData (length (appointments db)) a) ∧
  store o = mkDB
              (<[slotId := TimeSlot.mk (TimeSlot.doctorId slot) (TimeSlot.date slot)
                             (TimeSlot.startTime slot) (TimeSlot.endTime slot)
                             SLOT_STATUS.BOOKED None None None]> (timeSlots db))
              (appointments db ++ [a])
              (<[userId := User.mk None]> (users db)).
Proof.
  intros Hv Hs Hd Ha Ht Hm Hc Hb Hu Ho Hotp Hlease Hstart. cbv zeta.
  destruct (lockTimeSlot_succeeds doctorId slotId userId T redis db slot Hs Hd Ha Hc)
    as [-> ->].
  split; [done|].
  destruct (started_guard slot nowUtc Ht Hm Hstart) as [G1 G2].
  apply Z.ltb_lt in Hlease.
  unfold confirmBooking. rewrite Hv. cbn [timeSlots users appointments].
  rewrite lookup_insert_eq.
  change (TimeSlot.doctorId (lockFor userId T slot)) with (TimeSlot.doctorId slot).
  rewrite (bool_decide_eq_true_2 _ Hd). cbn [negb].
  change (TimeSlot.status (lockFor userId T slot)) with SLOT_STATUS.LOCKED.
  rewrite bool_decide_eq_false_2 by done.
  unfold otpRequired. rewrite Hu. simpl. rewrite Ho.
  assert ((otp <=? nowUtc) = false) as -> by (apply Z.leb_gt; lia).
  rewrite heldBy_lockFor, Hlease. cbn [negb].
  unfold Prisma.transaction, confirmBooking_tx.
  change (TimeSlot.date (lockFor userId T slot)) with (TimeSlot.date slot).
  change (TimeSlot.startTime (lockFor userId T slot)) with (TimeSlot.startTime slot).
  rewrite G1, G2. cbn [timeSlots users appointments].
  unfold Prisma.timeSlot_updateMany. rewrite lookup_insert_eq.
  change (TimeSlot.doctorId (lockFor userId T slot)) with (TimeSlot.doctorId slot).
  rewrite (bool_decide_eq_true_2 _ Hd), heldBy_lockFor, Hlease. cbn [andb negb Nat.eqb].
  rewrite Hb. unfold Prisma.appointment_create, Prisma.user_update. rewrite Hu.
  split; [done|]. simpl. by rewrite insert_insert_eq.
Qed.

(** X13. Rescheduling in two steps. The owner of a [BOOKED] appointment whose slot
    starts more than 24 hours after [T] reserves another slot of the doctor at
    [T] and confirms at [nowUtc], less than five minutes after [T] and before
    the new slot starts, with no request in between: the old appointment ends
    [RESCHEDULED], a [BOOKED] appointment with the same notes is added on the
    new slot, the new slot ends [BOOKED] and the old slot [AVAILABLE]. The
    answer is the success answer when the cache accepts the invalidation. *)
Theorem reschedule_then_confirm id newSlotId oldSlotId doctorId userId T nowUtc redis db
    appt oldSlot newSlot :
  vP newSlotId = None →
  vR id newSlotId oldSlotId doctorId = None →
  appointments db !! id = Some appt →
  Appointment.userId appt = userId →
  Appointment.status appt = APPOINTMENT_STATUS.BOOKED →
  Appointment.doctorId appt = doctorId →
  Appointment.timeSlotId appt = Some oldSlotId →
  oldSlotId ≠ newSlotId →
  timeSlots db !! oldSlotId = Some oldSlot →
  24 * 60 * 60 * 1000
  < getUtcDateTime (TimeSlot.date oldSlot) (TimeSlot.startTime oldSlot) - T →
  timeSlots db !! newSlotId = Some newSlot →
  TimeSlot.doctorId newSlot = doctorId →
  rescheduleLockable userId T newSlot = true →
  T < getUtcDateTime (TimeSlot.date newSlot) (TimeSlot.startTime newSlot) →
  nowUtc < T + 5 * 60 * 1000 →
  nowUtc < getUtcDateTime (TimeSlot.date newSlot) (TimeSlot.startTime newSlot) →
  let reserved := rescheduleAppointment vP id newSlotId userId T db db in
  let o := confirmReschedule vR id newSlotId oldSlotId doctorId userId nowUtc redis
             (store reserved) (store reserved) in
  let created := Appointment.mk userId doctorId (Some newSlotId) APPOINTMENT_STATUS.BOOKED
                   (Appointment.notes appt) in
  response reserved
  = ok 200 "New time slot locked for reschedule"
      (RescheduleLockData newSlotId doctorId userId T (T + 5 * 60 * 1000) oldSlotId) ∧
  (purgeAfterReschedule redis userId id (length (appointments db)) = true →
   response o = ok 200 "Reschedule confirmed"
                  (AppointmentData (length (appointments db)) created)) ∧
  appointments (store o) !! id
  = Some (Appointment.mk userId doctorId (Some oldSlotId) APPOINTMENT_STATUS.RESCHEDULED
            (Appointment.notes appt)) ∧
  appointments (store o) !! length (appointments db) = Some created ∧
  length (appointments (store o)) = S (length (appointments db)) ∧
  timeSlots (store o) !! newSlotId
  = Some (TimeSlot.mk (TimeSlot.doctorId newSlot) (TimeSlot.date newSlot)
            (TimeSlot.startTime newSlot) (TimeSlot.endTime newSlot)
            SLOT_STATUS.BOOKED None None None) ∧
  timeSlots (store o) !! oldSlotId
  = Some (TimeSlot.mk (TimeSlot.doctorId oldSlot) (TimeSlot.date oldSlot)
            (TimeSlot.startTime oldSlot) (TimeSlot.endTime oldSlot)
            SLOT_STATUS.AVAILABLE None (TimeSlot.lockedAt oldSlot) None) ∧
  (∀ i, i ≠ newSlotId → i ≠ oldSlotId → timeSlots (store o) !! i = timeSlots db !! i) ∧
  users (store o) = users db.
Proof.
  intros HvP HvR Ha Hu Hb Hd Hid Hne Hos H24 Hns Hnd Hl Hfuture Hlease Hstart. cbv zeta.
  assert (id < length (appointments db))%nat as Hlt by (by eapply lookup_lt_Some).
  assert (Prisma.appointment_findFirst id userId (appointments db) = Some appt) as Hf
    by by apply appointment_findFirst_Some.
  assert (rescheduleAppointment vP id newSlotId userId T db db
          = reply (mkDB (<[newSlotId := lockFor userId T newSlot]> (timeSlots db))
                     (appointments db) (users db))
              (ok 200 "New time slot locked for reschedule"
                 (RescheduleLockData newSlotId doctorId userId T (T + 5 * 60 * 1000)
                    oldSlotId))) as ->.
  { unfold rescheduleAppointment. rewrite HvP, Hf, Hb, Hid. simpl. rewrite Hos. simpl.
    rewrite (bool_decide_eq_false_2 _ Hne).
    assert ((getUtcDateTime (TimeSlot.date oldSlot) (TimeSlot.startTime oldSlot) - T
             <=? 24 * 60 * 60 * 1000) = false) as -> by (apply Z.leb_gt; lia).
    assert (Prisma.timeSlot_findFirst newSlotId (Appointment.doctorId appt) (timeSlots db)
            = Some newSlot) as -> by (apply timeSlot_findFirst_Some; split; congruence).
    assert ((getUtcDateTime (TimeSlot.date newSlot) (TimeSlot.startTime newSlot) <=? T)
            = false) as -> by (apply Z.leb_gt; lia).
    unfold Prisma.timeSlot_updateMany. rewrite Hns, Hl, Hd.
    by rewrite (bool_decide_eq_true_2 _ Hnd). }
  split; [done|].
  apply Z.ltb_lt in Hlease.
  unfold confirmReschedule. rewrite HvR. cbn [reply store timeSlots users appointments].
  rewrite Hf, Hb. rewrite (bool_decide_eq_true_2 _ Hd), (bool_decide_eq_true_2 _ Hid).
  rewrite (bool_decide_eq_false_2 _ Hne). cbn [negb bool_decide decide_rel].
  unfold Prisma.transaction, confirmReschedule_tx. cbn [timeSlots users appointments].
  assert (Prisma.timeSlot_findFirst newSlotId doctorId
            (<[newSlotId := lockFor userId T newSlot]> (timeSlots db))
          = Some (lockFor userId T newSlot)) as ->
    by (apply timeSlot_findFirst_Some; split; [apply lookup_insert_eq|done]).
  change (TimeSlot.status (lockFor userId T newSlot)) with SLOT_STATUS.LOCKED.
  change (TimeSlot.lockedBy (lockFor userId T newSlot)) with (Some userId).
  change (TimeSlot.date (lockFor userId T newSlot)) with (TimeSlot.date newSlot).
  change (TimeSlot.startTime (lockFor userId T newSlot)) with (TimeSlot.startTime newSlot).
  rewrite !bool_decide_eq_true_2 by done.
  assert (expiredAt nowUtc (lockFor userId T newSlot) = false) as ->
    by (unfold expiredAt; simpl; apply Z.ltb_ge; apply Z.ltb_lt in Hlease; lia).
  assert ((getUtcDateTime (TimeSlot.date newSlot) (TimeSlot.startTime newSlot) <=? nowUtc)
          = false) as -> by (apply Z.leb_gt; lia).
  cbn [negb orb]. unfold Prisma.timeSlot_updateMany. rewrite lookup_insert_eq.
  rewrite heldBy_lockFor, Hlease. cbn [negb Nat.eqb].
  unfold Prisma.appointment_update, Prisma.timeSlot_update. rewrite Ha.
  rewrite insert_insert_eq, lookup_insert_ne, Hos by done.
  unfold Prisma.appointment_create. rewrite Hu, Hd.
  rewrite length_insert.
  set (appts := Prisma.appointment_updateMany _ _ _).
  assert (appts !! id = Some (setStatus APPOINTMENT_STATUS.RESCHEDULED appt)) as Hi.
  { unfold appts. rewrite appointment_updateMany_lookup.
    rewrite lookup_app_l by (by rewrite length_insert).
    rewrite list_lookup_insert_eq by done. simpl. rewrite Hid.
    rewrite bool_decide_eq_false_2; [done|]. congruence. }
  assert (appts !! length (appointments db)
          = Some (Appointment.mk userId doctorId (Some newSlotId)
                    APPOINTMENT_STATUS.BOOKED (Appointment.notes appt))) as Hn.
  { unfold appts. rewrite appointment_updateMany_lookup.
    rewrite lookup_app_r by (by rewrite length_insert).
    rewrite length_insert, Nat.sub_diag. simpl.
    by rewrite Nat.eqb_refl, andb_false_r. }
  assert (length appts = S (length (appointments db))) as Hlen.
  { unfold appts. rewrite appointment_updateMany_length, length_app, length_insert.
    simpl. lia. }
  split_and!.
  - intros ->. done.
  - destruct (purgeAfterReschedule _ _ _ _); simpl; rewrite Hi; unfold setStatus;
      by rewrite Hu, Hd, Hid.
  - by destruct (purgeAfterReschedule _ _ _ _).
  - by destruct (purgeAfterReschedule _ _ _ _).
  - destruct (purgeAfterReschedule _ _ _ _); simpl;
      by rewrite lookup_insert_ne, lookup_insert_eq.
  - destruct (purgeAfterReschedule _ _ _ _); simpl; by rewrite lookup_insert_eq.
  - intros i H1 H2.
    destruct (purgeAfterReschedule _ _ _ _); simpl; by rewrite !lookup_insert_ne.
  - by destruct (purgeAfterReschedule _ _ _ _).
Qed.

(** X14. A cancellation more than 24 hours ahead gives the slot back. Once the
    owner has cancelled a [BOOKED] appointment whose [BOOKED] slot starts more
    than 24 hours after [nowUtc], any user who holds fewer than three live
    leases locks that slot with the next request; the appointment stays
    [CANCELLED]. *)
Theorem cancel_then_lock id userId other nowUtc T redis redis' db appt slotId slot :
  appointments db !! id = Some appt →
  Appointment.userId appt = userId →
  Appointment.status appt = APPOINTMENT_STATUS.BOOKED →
  Appointment.timeSlotId appt = Some slotId →
  timeSlots db !! slotId = Some slot →
  TimeSlot.status slot = SLOT_STATUS.BOOKED →
  24 * 60 * 60 * 1000
  < getUtcDateTime (TimeSlot.date slot) (TimeSlot.startTime slot) - nowUtc →
  (Prisma.timeSlot_count (heldBy other T) (timeSlots db) < 3)%nat →
  let cancelled := cancelAppointment id userId nowUtc redis db db in
  let o := lockTimeSlot (TimeSlot.doctorId slot) slotId other T redis'
             (store cancelled) (store cancelled) in
  response cancelled
  = ok 200 "Appointment cancelled"
      (CancelData id APPOINTMENT_STATUS.CANCELLED (Some slotId) true) ∧
  response o = ok 200 "Slot locked"
                 (LockData slotId (TimeSlot.doctorId slot) other T (T + 5 * 60 * 1000)) ∧
  timeSlots (store o) !! slotId
  = Some (TimeSlot.mk (TimeSlot.doctorId slot) (TimeSlot.date slot)
            (TimeSlot.startTime slot) (TimeSlot.endTime slot)
            SLOT_STATUS.LOCKED (Some other) (Some T) (Some (T + 5 * 60 * 1000))) ∧
  appointments (store o) !! id
  = Some (Appointment.mk userId (Appointment.doctorId appt) (Some slotId)
            APPOINTMENT_STATUS.CANCELLED (Appointment.notes appt)).
Proof.
  intros Ha Hu Hb Hid Hs Hst H24 Hc. cbv zeta.
  assert (id < length (appointments db))%nat as Hlt by (by eapply lookup_lt_Some).
  destruct (cancelAppointment_releases id userId nowUtc redis db appt slotId slot
              Ha Hu Hb Hid Hs Hst H24) as [-> ->].
  split; [done|].
  assert (heldBy other T slot = false) as H1
    by (unfold heldBy; rewrite Hst; by rewrite bool_decide_eq_false_2).
  assert (heldBy other T (releaseOnCancel slot) = false) as H2 by done.
  edestruct (lockTimeSlot_succeeds (TimeSlot.doctorId slot) slotId other T redis'
               (mkDB (<[slotId := releaseOnCancel slot]> (timeSlots db))
                  (<[id := setStatus APPOINTMENT_STATUS.CANCELLED appt]> (appointments db))
                  (users db)) (releaseOnCancel slot)) as [-> ->].
  - apply lookup_insert_eq.
  - done.
  - done.
  - simpl. by rewrite (timeSlot_count_insert _ _ _ _ slot).
  - split; [done|]. simpl. rewrite lookup_insert_eq, list_lookup_insert_eq by done.
    unfold setStatus. by rewrite Hu, Hid.
Qed.

(** X15. An expired lease and the clean-up job. While a slot is [LOCKED], a lock
    request is refused whether the lease has expired or not; once the clean-up
    job has run after the expiry, any user who holds fewer than three live
    leases locks the slot with the next request. *)
Theorem sweep_then_lock slotId other now T redis db slot e :
  timeSlots db !! slotId = Some slot →
  TimeSlot.status slot = SLOT_STATUS.LOCKED →
  TimeSlot.lockExpires slot = Some e →
  e < now →
  (Prisma.timeSlot_count (heldBy other T) (timeSlots db) < 3)%nat →
  let blocked := lockTimeSlot (TimeSlot.doctorId slot) slotId other T redis db db in
  let swept := releaseExpiredLocks now db in
  let o := lockTimeSlot (TimeSlot.doctorId slot) slotId other T redis swept swept in
  response blocked = fail 409 "Time slot already locked" None ∧
  store blocked = db ∧
  response o = ok 200 "Slot locked"
                 (LockData slotId (TimeSlot.doctorId slot) other T (T + 5 * 60 * 1000)) ∧
  timeSlots (store o) !! slotId
  = Some (TimeSlot.mk (TimeSlot.doctorId slot) (TimeSlot.date slot)
            (TimeSlot.startTime slot) (TimeSlot.endTime slot)
            SLOT_STATUS.LOCKED (Some other) (Some T) (Some (T + 5 * 60 * 1000))).
Proof.
  intros Hs Hst He Hlt Hc. cbv zeta.
  assert (Prisma.timeSlot_findFirst slotId (TimeSlot.doctorId slot) (timeSlots db)
          = Some slot) as Hf by by apply timeSlot_findFirst_Some.
  split_and!.
  - unfold lockTimeSlot. rewrite Hf, Hst. done.
  - unfold lockTimeSlot. rewrite Hf, Hst. done.
  - edestruct (lockTimeSlot_succeeds (TimeSlot.doctorId slot) slotId other T redis
                 (releaseExpiredLocks now db) (releaseExpired slot)) as [-> _]; try done.
    + rewrite releaseExpiredLocks_lookup, Hs. simpl. unfold expiredAt.
      rewrite He, (bool_decide_eq_true_2 _ Hst). by apply Z.ltb_lt in Hlt as ->.
    + eapply Nat.le_lt_trans; [|exact Hc]. apply timeSlot_count_fmap_le.
      intros s. by destruct (bool_decide _ && expiredAt now s).
  - edestruct (lockTimeSlot_succeeds (TimeSlot.doctorId slot) slotId other T redis
                 (releaseExpiredLocks now db) (releaseExpired slot)) as [_ ->]; try done.
    + rewrite releaseExpiredLocks_lookup, Hs. simpl. unfold expiredAt.
      rewrite He, (bool_decide_eq_true_2 _ Hst). by apply Z.ltb_lt in Hlt as ->.
    + eapply Nat.le_lt_trans; [|exact Hc]. apply timeSlot_count_fmap_le.
      intros s. by destruct (bool_decide _ && expiredAt now s).
    + simpl. by rewrite lookup_insert_eq.
Qed.

End Flows.

(** ** The orders of the queries *)

Lemma String_ltb_leb s t : String.ltb s t = negb (String.leb t s).
Proof.
  unfold String.ltb, String.leb. rewrite (String.compare_antisym s t).
  by destruct (String.compare t s).
Qed.

Lemma String_leb_trans s t u :
  String.leb s t = true → String.leb t u = true → String.leb s u = true.
Proof.
  unfold String.leb. intros H1 H2.
  destruct (String.compare s t) eqn:E1; [|clear H1|done].
  { apply String.compare_eq_iff in E1 as ->. done. }
  destruct (String.compare t u) eqn:E2; [|clear H2|done].
  { apply String.compare_eq_iff in E2 as <-. by rewrite E1. }
  apply OrderedTypeEx.String_as_OT.cmp_lt in E1, E2.
  pose proof (OrderedTypeEx.String_as_OT.lt_trans _ _ _ E1 E2) as E.
  apply OrderedTypeEx.String_as_OT.cmp_lt in E.
  unfold OrderedTypeEx.String_as_OT.cmp in E. by rewrite E.
Qed.

Lemma byDateThenStartTime_total : Total (ordered byDateThenStartTime).
Proof.
  intros [i a] [j b]. unfold ordered, byDateThenStartTime. simpl.
  destruct (Z.ltb_spec (TimeSlot.date a) (TimeSlot.date b)); [by left|].
  destruct (Z.ltb_spec (TimeSlot.date b) (TimeSlot.date a)); [by right|].
  assert (TimeSlot.date a = TimeSlot.date b) as -> by lia.
  rewrite Z.eqb_refl. simpl. apply String.leb_total.
Qed.

Lemma byDateThenStartTime_trans : Transitive (ordered byDateThenStartTime).
Proof.
  intros [i a] [j b] [k c]. unfold ordered, byDateThenStartTime. simpl.
  intros H1 H2.
  destruct (Z.ltb_spec (TimeSlot.date a) (TimeSlot.date b)) as [L1|L1];
    destruct (Z.ltb_spec (TimeSlot.date b) (TimeSlot.date c)) as [L2|L2]; simpl in *.
  - assert ((TimeSlot.date a <? TimeSlot.date c) = true) as -> by (apply Z.ltb_lt; lia). done.
  - apply andb_true_iff in H2 as [E2 _]. apply Z.eqb_eq in E2.
    assert ((TimeSlot.date a <? TimeSlot.date c) = true) as -> by (apply Z.ltb_lt; lia). done.
  - apply andb_true_iff in H1 as [E1 _]. apply Z.eqb_eq in E1.
    assert ((TimeSlot.date a <? TimeSlot.date c) = true) as -> by (apply Z.ltb_lt; lia). done.
  - apply andb_true_iff in H1 as [E1 S1]. apply andb_true_iff in H2 as [E2 S2].
    apply Z.eqb_eq in E1, E2. rewrite E1, E2, Z.eqb_refl, (String_leb_trans _ _ _ S1 S2).
    by rewrite orb_true_r.
Qed.

Lemma StronglySorted_fmap_Forall {A B} (R : relation A) (R' : relation B) (P : A → Prop)
    (f : A → B) (l : list A) :
  (∀ a b, P a → P b → R a b → R' (f a) (f b)) →
  Forall P l → StronglySorted R l → StronglySorted R' (f <$> l).
Proof.
  intros HR HP Hs. induction Hs as [|a l Hs IH Hall]; [constructor|].
  apply Forall_cons in HP as [Pa Pl]. rewrite fmap_cons. constructor; [by apply IH|].
  apply Forall_fmap. rewrite Forall_forall in Hall, Pl. apply Forall_forall.
  intros b Hb. simpl. apply HR; auto.
Qed.

Lemma StronglySorted_filter_list {A} (R : relation A) (P : A → Prop)
    `{∀ x, Decision (P x)} (l : list A) :
  StronglySorted R l → StronglySorted R (filter P l).
Proof.
  intros Hs. induction Hs as [|a l Hs IH Hall]; [constructor|].
  rewrite filter_cons. destruct (decide (P a)); [|done].
  constructor; [done|]. rewrite Forall_forall in Hall. apply Forall_forall.
  intros b Hb. apply list_elem_of_filter in Hb as [_ Hb]. auto.
Qed.

Lemma byStartTime_total : Total (ordered byStartTime).
Proof. intros [i a] [j b]. unfold ordered, byStartTime. simpl. apply String.leb_total. Qed.

Lemma byStartTime_trans : Transitive (ordered byStartTime).
Proof.
  intros [i a] [j b] [k c]. unfold ordered, byStartTime. simpl. apply String_leb_trans.
Qed.

(** ** The calendar of a doctor *)

Lemma segments_loop_exact fuel c n :
  (n <= fuel)%nat →
  segments_loop fuel c (c + 30 * Z.of_nat n)
  = (fun k : nat => (toTimeString (c + 30 * Z.of_nat k),
                     toTimeString (c + 30 * Z.of_nat k + 30))) <$> seq 0 n.
Proof.
  revert fuel c. induction n as [|n IH]; intros fuel c Hle.
  - destruct fuel; simpl; [done|].
    by assert ((c <? c + 30 * Z.of_nat 0) = false) as -> by (apply Z.ltb_ge; lia).
  - destruct fuel as [|fuel]; [lia|]. simpl segments_loop.
    assert ((c <? c + 30 * Z.of_nat (S n)) = true) as -> by (apply Z.ltb_lt; lia).
    replace (c + 30 * Z.of_nat (S n)) with (c + 30 + 30 * Z.of_nat n) by lia.
    rewrite IH by lia. cbn [seq fmap list_fmap]. f_equal.
    + do 2 f_equal; lia.
    + rewrite <- fmap_S_seq, <- list_fmap_compose. apply list_fmap_ext.
      intros _ k _. simpl. f_equal; f_equal; lia.
Qed.

Lemma segments_exact s n :
  segments s (s + 30 * Z.of_nat n)
  = (fun k : nat => (toTimeString (s + 30 * Z.of_nat k),
                     toTimeString (s + 30 * Z.of_nat k + 30))) <$> seq 0 n.
Proof. unfold segments. apply segments_loop_exact. lia. Qed.

Lemma timeSlot_createMany_spec rows (m : gmap nat TimeSlot.t) :
  ∃ ids : list nat,
    length ids = length rows ∧ NoDup ids ∧
    (∀ i, i ∈ ids → m !! i = None) ∧
    (∀ k i r, ids !! k = Some i → rows !! k = Some r →
              timeSlot_createMany rows m !! i = Some r) ∧
    (∀ i, i ∉ ids → timeSlot_createMany rows m !! i = m !! i).
Proof.
  revert m. induction rows as [|r rows IH]; intros m.
  - exists []. split_and!; try done.
    + constructor.
    + intros i Hi. by apply elem_of_nil in Hi.
  - simpl. set (i0 := fresh (dom m)).
    assert (m !! i0 = None) as H0 by (apply not_elem_of_dom, is_fresh).
    destruct (IH (<[i0 := r]> m)) as (ids & Hlen & Hnd & Hfresh & Hnew & Hold).
    assert (i0 ∉ ids) as Hnotin.
    { intros Hin. apply Hfresh in Hin. by rewrite lookup_insert_eq in Hin. }
    exists (i0 :: ids). split_and!.
    + simpl. by rewrite Hlen.
    + by constructor.
    + intros i [->|Hi]%elem_of_cons; [done|].
      apply Hfresh in Hi. destruct (decide (i = i0)) as [->|Hne]; [done|].
      by rewrite lookup_insert_ne in Hi.
    + intros [|k] i r' Hi Hr; simpl in Hi, Hr.
      * injection Hi as <-. injection Hr as <-.
        rewrite Hold by done. apply lookup_insert_eq.
      * by eapply Hnew.
    + intros i Hi. apply not_elem_of_cons in Hi as [Hne Hi].
      rewrite Hold by done. by rewrite lookup_insert_ne.
Qed.

Lemma timeSlot_findAll_elem where_ (m : gmap nat TimeSlot.t) i s :
  (i, s) ∈ timeSlot_findAll where_ m ↔ m !! i = Some s ∧ where_ s = true.
Proof.
  unfold timeSlot_findAll. rewrite list_elem_of_filter, elem_of_map_to_list. simpl. tauto.
Qed.

Lemma timeSlot_findMany_elem where_ orderBy (m : gmap nat TimeSlot.t) i s :
  (i, s) ∈ timeSlot_findMany where_ orderBy m ↔ m !! i = Some s ∧ where_ s = true.
Proof.
  unfold timeSlot_findMany. rewrite merge_sort_Permutation. apply timeSlot_findAll_elem.
Qed.

Lemma timeSlot_findAll_empty where_ (m : gmap nat TimeSlot.t) :
  (0 <? length (timeSlot_findAll where_ m))%nat = false ↔
  ∀ i s, m !! i = Some s → where_ s = false.
Proof.
  rewrite Nat.ltb_ge. split.
  - intros Hl i s Hs. destruct (where_ s) eqn:W; [|done].
    assert ((i, s) ∈ timeSlot_findAll where_ m) as Hin by by apply timeSlot_findAll_elem.
    destruct (timeSlot_findAll where_ m); [by apply elem_of_nil in Hin|simpl in Hl; lia].
  - intros H. destruct (timeSlot_findAll where_ m) as [|[i s] l] eqn:E; [done|].
    assert ((i, s) ∈ timeSlot_findAll where_ m) as Hin by (rewrite E; left).
    apply timeSlot_findAll_elem in Hin as [Hs W]. by rewrite (H i s Hs) in W.
Qed.

Section CalendarFacts.

Variable vT : string -> string -> string -> option string.
Variable vQ : option string -> option string -> option string -> option string.
Variable parseDate : string -> option Z.

(** What [createTimeSlot] does, over all its inputs. *)
Lemma createTimeSlot_cases doctors doctorId date startTime endTime now redis db :
  let o := createTimeSlot vT parseDate doctors doctorId date startTime endTime now redis db in
  (∃ http error conflicts,
     created_answer o = CreateRefused http error conflicts ∧ created_store o = db)
  ∨ (∃ s n parsedDate,
       doctorId ∈ doctors ∧
       vT date startTime endTime = None ∧
       parseToMinutes startTime = Some s ∧
       parseToMinutes endTime = Some (s + 30 * Z.of_nat n) ∧
       (0 < n)%nat ∧
       parseDate date = Some parsedDate ∧
       utcMidnight now <= parsedDate ∧
       (parsedDate = utcMidnight now → getUTCHours now * 60 + getUTCMinutes now < s) ∧
       (∀ i r, timeSlots db !! i = Some r →
               TimeSlot.doctorId r = doctorId → TimeSlot.date r = parsedDate →
               String.ltb (TimeSlot.startTime r) endTime = true →
               String.ltb startTime (TimeSlot.endTime r) = true → False) ∧
       created_answer o
       = Created 201 "Time slots created successfully"
           ((fun kv => mkSlotRow kv.1 (TimeSlot.doctorId kv.2) date
                         (TimeSlot.startTime kv.2) (TimeSlot.endTime kv.2)
                         (TimeSlot.status kv.2))
              <$> timeSlot_findMany
                    (fun r => bool_decide (TimeSlot.doctorId r = doctorId)
                              && (TimeSlot.date r =? parsedDate)
                              && bool_decide
                                   (TimeSlot.startTime r
                                    ∈ (fun k : nat => toTimeString (s + 30 * Z.of_nat k))
                                        <$> seq 0 n))
                    byStartTime
                    (timeSlot_createMany (segmentRow doctorId parsedDate s <$> seq 0 n)
                       (timeSlots db))) ∧
       created_store o
       = mkDB (timeSlot_createMany (segmentRow doctorId parsedDate s <$> seq 0 n)
                 (timeSlots db))
           (appointments db) (users db)).
Proof.
  cbv zeta. unfold createTimeSlot.
  destruct (bool_decide (doctorId ∈ doctors)) eqn:D; simpl; [|left; eauto].
  apply bool_decide_eq_true in D.
  destruct (vT date startTime endTime) eqn:V; [left; eauto|].
  destruct (parseToMinutes startTime) as [s|] eqn:S; [|left; eauto].
  destruct (parseToMinutes endTime) as [e|] eqn:E; [|left; eauto].
  destruct (Z.leb_spec e s) as [Hge|Hlt]; [left; eauto|].
  destruct (Z.eqb_spec (Z.rem (e - s) 30) 0) as [Hrem|Hnrem]; simpl; [|left; eauto].
  destruct (parseDate date) as [parsedDate|] eqn:P; [|left; eauto].
  destruct (Z.ltb_spec parsedDate (utcMidnight now)) as [Hpast|Hday]; [left; eauto|].
  destruct ((parsedDate =? utcMidnight now)
            && (s <=? getUTCHours now * 60 + getUTCMinutes now)) eqn:Today;
    [left; eauto|].
  destruct (0 <? length _)%nat eqn:C; [left; eauto|].
  right.
  assert (∃ n : nat, e = s + 30 * Z.of_nat n ∧ (0 < n)%nat) as (n & -> & Hn).
  { exists (Z.to_nat ((e - s) `quot` 30)).
    pose proof (Z.quot_rem' (e - s) 30) as Q. rewrite Hrem in Q.
    assert (0 <= (e - s) `quot` 30) by (apply Z.quot_pos; lia). lia. }
  exists s, n, parsedDate. split_and!; try done.
  - intros ->. rewrite Z.eqb_refl in Today. simpl in Today. by apply Z.leb_gt in Today.
  - intros i r Hr Hd Hdt H1 H2.
    pose proof (proj1 (timeSlot_findAll_empty _ _) C i r Hr) as W. simpl in W.
    rewrite (bool_decide_eq_true_2 _ Hd), H1, H2 in W.
    apply Z.eqb_eq in Hdt. by rewrite Hdt in W.
  - simpl. rewrite segments_exact. by rewrite <- !list_fmap_compose.
  - simpl. rewrite segments_exact. by rewrite <- list_fmap_compose.
Qed.

(** X16. [createTimeSlot] cuts the window into half hours. With a schema that
    accepts only [HH:MM] times: when it answers with the created slots, the
    window from [startTime] to [endTime] is [n > 0] half hours long, the
    store gains [n] rows under ids it did not have, the [k]-th running from
    [startMinutes + 30k] to [startMinutes + 30k + 30] on the parsed date for
    the doctor, [AVAILABLE] and without a lease, and every other row, every
    appointment and every user is as before. When the slots of the store are
    well formed, the answer lists the created rows and no other, each once,
    by start time. *)
Theorem createTimeSlot_tiles doctors doctorId date startTime endTime now redis db http
    message rows :
  (∀ d s e, vT d s e = None →
            TimeFormat.timePattern s = true ∧ TimeFormat.timePattern e = true) →
  let o := createTimeSlot vT parseDate doctors doctorId date startTime endTime now redis db in
  created_answer o = Created http message rows →
  ∃ (s parsedDate : Z) (ids : list nat),
    0 <= s ∧ s + 30 * Z.of_nat (length ids) < 1440 ∧
    startTime = toTimeString s ∧
    endTime = toTimeString (s + 30 * Z.of_nat (length ids)) ∧
    parseDate date = Some parsedDate ∧
    (0 < length ids)%nat ∧
    NoDup ids ∧
    (∀ i, i ∈ ids → timeSlots db !! i = None) ∧
    (∀ k i, ids !! k = Some i →
            timeSlots (created_store o) !! i
            = Some (TimeSlot.mk doctorId parsedDate (toTimeString (s + 30 * Z.of_nat k))
                      (toTimeString (s + 30 * Z.of_nat k + 30))
                      SLOT_STATUS.AVAILABLE None None None)) ∧
    (∀ i, i ∉ ids → timeSlots (created_store o) !! i = timeSlots db !! i) ∧
    appointments (created_store o) = appointments db ∧
    users (created_store o) = users db ∧
    ((∀ id r, timeSlots db !! id = Some r → slotShaped r) →
     (∀ row, row ∈ rows ↔
             ∃ (k : nat) i, ids !! k = Some i ∧
                    row = mkSlotRow i doctorId date (toTimeString (s + 30 * Z.of_nat k))
                            (toTimeString (s + 30 * Z.of_nat k + 30))
                            SLOT_STATUS.AVAILABLE) ∧
     NoDup rows ∧
     StronglySorted
       (fun a b => String.leb (row_startTime a) (row_startTime b) = true) rows).
Proof.
  intros Hv. cbv zeta. intros Ho.
  destruct (createTimeSlot_cases doctors doctorId date startTime endTime now redis db)
    as [(h & e & c & Hr & _)|(s & n & parsedDate & _ & Hval & Hs & He & Hn & Hp & _
                              & _ & Hnone & Hans & Hst)].
  { rewrite Hr in Ho. done. }
  rewrite Hans in Ho. injection Ho as _ _ <-. clear Hans.
  destruct (Hv _ _ _ Hval) as [Pst Pen].
  destruct (timePattern_minutes _ Pst) as (s' & Bs & Es & Ps).
  destruct (timePattern_minutes _ Pen) as (e' & Be & Ee & Pe).
  rewrite Hs in Ps. injection Ps as <-. rewrite He in Pe. injection Pe as <-.
  destruct (timeSlot_createMany_spec (segmentRow doctorId parsedDate s <$> seq 0 n)
              (timeSlots db)) as (ids & Hlen & Hnd & Hfresh & Hnew & Hold).
  rewrite length_fmap, length_seq in Hlen.
  rewrite Hst. cbn [timeSlots appointments users].
  set (m' := timeSlot_createMany _ _) in *.
  assert (∀ (k : nat) i, ids !! k = Some i →
                         m' !! i = Some (segmentRow doctorId parsedDate s k)) as Hnew'.
  { intros k i Hi. apply (Hnew k); [done|].
    rewrite list_lookup_fmap, lookup_seq_lt; [done|].
    apply lookup_lt_Some in Hi. lia. }
  exists s, parsedDate, ids. rewrite Hlen. split_and!; try done; try lia.
  intros Hshape.
  set (found := timeSlot_findMany _ byStartTime m').
  assert (∀ i r, (i, r) ∈ found ↔
                 ∃ k : nat, ids !! k = Some i ∧ r = segmentRow doctorId parsedDate s k)
    as Hfound.
  { intros i r. unfold found. rewrite timeSlot_findMany_elem. split.
    - intros [Hr Hw]. apply andb_true_iff in Hw as [Hw Hin].
      apply andb_true_iff in Hw as [Hd Hdt].
      apply bool_decide_eq_true in Hd, Hin. apply Z.eqb_eq in Hdt.
      destruct (decide (i ∈ ids)) as [Hi|Hi].
      + apply list_elem_of_lookup in Hi as [k Hk]. exists k. split; [done|].
        rewrite (Hnew' k i Hk) in Hr. congruence.
      + exfalso. rewrite Hold in Hr by done.
        apply list_elem_of_fmap in Hin as (k & Hk & Hkn). apply elem_of_seq in Hkn.
        destruct (Hshape i r Hr) as (_ & Pre & Hlt & _).
        destruct (timePattern_minutes _ Pre) as (eb & Beb & Eeb & _).
        rewrite Hk, Eeb, toTimeString_ltb in Hlt by lia. apply Z.ltb_lt in Hlt.
        apply (Hnone i r Hr Hd Hdt).
        * rewrite Hk, Ee, toTimeString_ltb by lia. apply Z.ltb_lt. lia.
        * rewrite Es, Eeb, toTimeString_ltb by lia. apply Z.ltb_lt. lia.
    - intros (k & Hk & ->). split; [by apply Hnew'|].
      assert (k < n)%nat as Hkn by (apply lookup_lt_Some in Hk; lia).
      unfold segmentRow. cbn [TimeSlot.doctorId TimeSlot.date TimeSlot.startTime].
      rewrite Z.eqb_refl, (bool_decide_eq_true_2 (doctorId = doctorId)) by done.
      rewrite bool_decide_eq_true_2; [done|].
      apply list_elem_of_fmap. exists k. split; [done|]. apply elem_of_seq. lia. }
  split_and!.
  - intros row. rewrite list_elem_of_fmap. split.
    + intros ([i r] & -> & Hin). apply Hfound in Hin as (k & Hk & ->). by exists k, i.
    + intros (k & i & Hk & ->). exists (i, segmentRow doctorId parsedDate s k).
      split; [done|]. apply Hfound. eauto.
  - apply NoDup_fmap_2_strong.
    + intros [i r] [j r'] Hi Hj [= -> _ _ _ _].
      apply Hfound in Hi as (k & Hk & ->). apply Hfound in Hj as (k' & Hk' & ->).
      by rewrite (NoDup_lookup _ _ _ _ Hnd Hk Hk').
    + unfold found, timeSlot_findMany. rewrite merge_sort_Permutation.
      apply NoDup_filter, NoDup_map_to_list.
  - apply (StronglySorted_fmap_Forall (ordered byStartTime) _ (fun _ => True)).
    + by intros [i a] [j b] _ _.
    + by apply Forall_forall.
    + apply StronglySorted_merge_sort; [apply byStartTime_trans|apply byStartTime_total].
Qed.


Lemma overlap_sym a b : overlap a b → overlap b a.
Proof. intros (H1 & H2 & H3 & H4). split_and!; done. Qed.

(** X18. [createTimeSlot] keeps the calendar well formed. With a schema that
    accepts only [HH:MM] times and a date parser that answers UTC midnights:
    if every slot has [HH:MM] times with the start before the end and a date
    at UTC midnight, and no two slots of a doctor on a day overlap, the same
    holds of the store [createTimeSlot] leaves, whatever the request. *)
Theorem createTimeSlot_calendarOk doctors doctorId date startTime endTime now redis db :
  (∀ d s e, vT d s e = None →
            TimeFormat.timePattern s = true ∧ TimeFormat.timePattern e = true) →
  (∀ d z, parseDate d = Some z → utcMidnight z = z) →
  calendarOk db →
  calendarOk
    (created_store
       (createTimeSlot vT parseDate doctors doctorId date startTime endTime now redis db)).
Proof.
  intros Hv Hp [Hshape Hfree].
  destruct (createTimeSlot_cases doctors doctorId date startTime endTime now redis db)
    as [(h & e & c & _ & ->)|(s & n & parsedDate & _ & Hval & Hs & He & Hn & Hpd & _
                              & _ & Hnone & _ & ->)]; [done|].
  destruct (Hv _ _ _ Hval) as [Pst Pen].
  destruct (timePattern_minutes _ Pst) as (s' & Bs & Es & Ps).
  destruct (timePattern_minutes _ Pen) as (e' & Be & Ee & Pe).
  rewrite Hs in Ps. injection Ps as <-. rewrite He in Pe. injection Pe as <-.
  destruct (timeSlot_createMany_spec (segmentRow doctorId parsedDate s <$> seq 0 n)
              (timeSlots db)) as (ids & Hlen & Hnd & Hfresh & Hnew & Hold).
  rewrite length_fmap, length_seq in Hlen.
  set (m' := timeSlot_createMany _ _) in *.
  assert (∀ i r, m' !! i = Some r →
                 ((i ∉ ids) ∧ timeSlots db !! i = Some r)
                 ∨ (∃ k : nat, ids !! k = Some i ∧ (k < n)%nat
                               ∧ r = segmentRow doctorId parsedDate s k)) as Hchar.
  { intros i r Hr. destruct (decide (i ∈ ids)) as [Hin|Hnot].
    - right. apply list_elem_of_lookup in Hin as [k Hk].
      assert (k < n)%nat as Hkn by (apply lookup_lt_Some in Hk; lia).
      exists k. split_and!; try done.
      rewrite (Hnew k i (segmentRow doctorId parsedDate s k) Hk) in Hr; [congruence|].
      by rewrite list_lookup_fmap, lookup_seq_lt.
    - left. by rewrite Hold in Hr. }
  assert (∀ k : nat, (k < n)%nat → slotShaped (segmentRow doctorId parsedDate s k)) as Hseg.
  { intros k Hk. unfold slotShaped, segmentRow.
    cbn [TimeSlot.startTime TimeSlot.endTime TimeSlot.date].
    destruct (toTimeString_pattern (s + 30 * Z.of_nat k)) as [-> _]; [lia|].
    destruct (toTimeString_pattern (s + 30 * Z.of_nat k + 30)) as [-> _]; [lia|].
    rewrite toTimeString_ltb by lia. split_and!; try done.
    - apply Z.ltb_lt. lia.
    - by eapply Hp. }
  assert (∀ k j b, (k < n)%nat → timeSlots db !! j = Some b →
                   ¬ overlap (segmentRow doctorId parsedDate s k) b) as Hmixed.
  { intros k j b Hk Hb (Hd & Hdt & H1 & H2). unfold segmentRow in Hd, Hdt, H1, H2.
    cbn [TimeSlot.startTime TimeSlot.endTime TimeSlot.date TimeSlot.doctorId]
      in Hd, Hdt, H1, H2.
    destruct (Hshape j b Hb) as (Pbs & Pbe & _ & _).
    destruct (timePattern_minutes _ Pbs) as (sb & Bsb & Esb & _).
    destruct (timePattern_minutes _ Pbe) as (eb & Beb & Eeb & _).
    rewrite Eeb, toTimeString_ltb in H1 by lia. rewrite Esb, toTimeString_ltb in H2 by lia.
    apply Z.ltb_lt in H1, H2.
    apply (Hnone j b Hb); [done|done| |].
    - rewrite Esb, Ee, toTimeString_ltb by lia. apply Z.ltb_lt. lia.
    - rewrite Eeb, Es, toTimeString_ltb by lia. apply Z.ltb_lt. lia. }
  split; simpl.
  - intros i r Hr. destruct (Hchar i r Hr) as [[_ Hold']|(k & _ & Hk & ->)].
    + by eapply Hshape.
    + by apply Hseg.
  - intros i j a b Hij Ha Hb Hov.
    destruct (Hchar i a Ha) as [[_ Ha']|(k & Hik & Hk & ->)],
             (Hchar j b Hb) as [[_ Hb']|(k' & Hjk & Hk' & ->)].
    + by eapply (Hfree i j).
    + apply overlap_sym in Hov. by eapply Hmixed.
    + by eapply Hmixed.
    + destruct Hov as (_ & _ & H1 & H2). unfold segmentRow in H1, H2.
      cbn [TimeSlot.startTime TimeSlot.endTime] in H1, H2.
      rewrite toTimeString_ltb in H1, H2 by lia. apply Z.ltb_lt in H1, H2.
      assert (k = k') as <- by lia. congruence.
Qed.

End CalendarFacts.

Lemma calendarOk_columns db db' :
  (∀ id, slotColumns <$> timeSlots db' !! id = slotColumns <$> timeSlots db !! id) →
  calendarOk db → calendarOk db'.
Proof.
  intros Hc [Hshape Hfree].
  assert (∀ id s', timeSlots db' !! id = Some s' →
                   ∃ s, timeSlots db !! id = Some s ∧ slotColumns s' = slotColumns s) as Hback.
  { intros id s' Hs'. specialize (Hc id). rewrite Hs' in Hc.
    destruct (timeSlots db !! id) as [s|]; [|done]. exists s. split; [done|].
    simpl in Hc. congruence. }
  split.
  - intros id s' Hs'. destruct (Hback id s' Hs') as (s & Hs & Heq).
    injection Heq as Hd Hdt Hst Hen. specialize (Hshape id s Hs).
    unfold slotShaped in *. by rewrite Hdt, Hst, Hen.
  - intros i j a' b' Hij Ha' Hb' Hov.
    destruct (Hback i a' Ha') as (a & Ha & Heqa), (Hback j b' Hb') as (b & Hb & Heqb).
    injection Heqa as Hd Hdt Hst Hen. injection Heqb as Hd' Hdt' Hst' Hen'.
    apply (Hfree i j a b Hij Ha Hb). unfold overlap in *.
    by rewrite <- Hd, <- Hd', <- Hdt, <- Hdt', <- Hst, <- Hst', <- Hen, <- Hen'.
Qed.

Lemma slotColumns_insert (m : gmap nat TimeSlot.t) k v s id :
  m !! k = Some s → slotColumns v = slotColumns s →
  slotColumns <$> <[k := v]> m !! id = slotColumns <$> m !! id.
Proof.
  intros Hk Hv. destruct (decide (id = k)) as [->|Hne].
  - rewrite lookup_insert_eq, Hk. simpl. by rewrite Hv.
  - by rewrite lookup_insert_ne.
Qed.

Section Frozen.

Variable vA : nat -> nat -> option string -> option string.
Variable vS : APPOINTMENT_STATUS.t -> option string.
Variable vP : nat -> option string.
Variable vR : nat -> nat -> nat -> nat -> option string.

(** X19. No booking request and no run of the clean-up job adds a slot, removes
    one, or changes the doctor, the date, the start or the end of one: in
    every store reached from [init], each slot id has the columns it has in
    [init]. A well-formed calendar therefore stays well formed. *)
Theorem calendar_frozen allowed init db :
  reachable vA vS vP vR allowed init db →
  (∀ id, slotColumns <$> timeSlots db !! id = slotColumns <$> timeSlots init !! id) ∧
  (calendarOk init → calendarOk db).
Proof.
  intros Hr.
  assert (∀ id, slotColumns <$> timeSlots db !! id = slotColumns <$> timeSlots init !! id)
    as Hc; [|split; [done|by apply calendarOk_columns]].
  induction Hr as [|req nowUtc redis db Hr IH Hreq|now db Hr IH]; [done| |].
  - intros id0. rewrite <- IH. clear IH. destruct req; simpl.
    + destruct (lockTimeSlot_cases doctorId slotId userId nowUtc redis db db)
        as [[_ ->]|(slot & s & _ & _ & _ & _ & Hs & _ & _ & _ & ->)]; [done|].
      simpl. by apply (slotColumns_insert _ _ _ s).
    + destruct (confirmBooking_cases vA doctorId timeSlotId notes userId nowUtc redis db db)
        as [[_ ->]|(slot & s & u & t & _ & _ & _ & _ & _ & _ & Hs & _ & _ & _ & _ & _ & ->)];
        [done|].
      simpl. by apply (slotColumns_insert _ _ _ s).
    + destruct (updateAppointmentStatus_store vS id status userId redis db db)
        as [->|(a & _ & ->)]; done.
    + destruct (rescheduleAppointment_cases vP id newTimeSlotId userId nowUtc db db)
        as [[_ ->]|(appt & timeSlotId & timeSlot & newSlot & s & _ & _ & _ & _ & _ & _ & _ & _
                    & _ & _ & Hs & _ & _ & _ & ->)]; [done|].
      simpl. by apply (slotColumns_insert _ _ _ s).
    + destruct (cancelAppointment_cases id userId nowUtc redis db db)
        as [[_ ->]|(appt & a & _ & _ & _ & _ & _ & _ & _
                    & [(s & timeSlotId & s' & _ & _ & _ & _ & Hs' & ->)| ->])]; [done| |done].
      by apply (slotColumns_insert _ _ _ s').
    + destruct (confirmReschedule_cases vR appointmentId newSlotId oldSlotId doctorId userId
                  nowUtc redis db db)
        as [[_ ->]|(appt & newSlot & oldSlot & a & _ & _ & _ & _ & _ & Hne & Hn & _ & _ & Ho
                    & _ & _ & ->)]; [done|].
      simpl. rewrite (slotColumns_insert _ _ _ oldSlot); [|by rewrite lookup_insert_ne|done].
      by apply (slotColumns_insert _ _ _ newSlot).
  - intros id0. rewrite <- IH. rewrite releaseExpiredLocks_lookup.
    destruct (timeSlots db !! id0) as [s|]; [|done]. simpl. f_equal.
    unfold slotColumns. by destruct (bool_decide _ && expiredAt now s).
Qed.

End Frozen.

(** ** The slots on offer *)

Section Offer.

Variable vQ : option string -> option string -> option string -> option string.
Variable parseDate : string -> option Z.

(** What [getAvailableSlots] does, over all its inputs. *)
Lemma getAvailableSlots_cases doctors doctorId date start end_ nowUtc db :
  let o := getAvailableSlots vQ parseDate doctors doctorId date start end_ nowUtc db in
  (∃ http error, o = SlotsRefused http error)
  ∨ (∃ startDate endDate,
       doctorId ∈ doctors ∧
       vQ date start end_ = None ∧
       ((truthy date = true ∧ date ≫= parseDate = Some startDate ∧ endDate = startDate)
        ∨ (truthy date = false ∧ start ≫= parseDate = Some startDate ∧
           end_ ≫= parseDate = Some endDate)) ∧
       utcMidnight nowUtc <= startDate <= endDate ∧
       let rows :=
         offerRow <$>
           filter (fun kv =>
                     (if utcMidnight (TimeSlot.date kv.2) =? utcMidnight nowUtc
                      then String.ltb (currentHM nowUtc) (TimeSlot.startTime kv.2)
                      else true) = true)
             (timeSlot_findMany
                (fun s => bool_decide (TimeSlot.doctorId s = doctorId)
                          && (startDate <=? TimeSlot.date s) && (TimeSlot.date s <=? endDate)
                          && bool_decide (TimeSlot.status s = SLOT_STATUS.AVAILABLE))
                byDateThenStartTime (timeSlots db)) in
       o = SlotsListed
             (if (0 <? length rows)%nat then "Available slots fetched successfully"
              else "No available slots") rows).
Proof.
  cbv zeta. unfold getAvailableSlots.
  destruct (vQ date start end_) eqn:V; [left; eauto|].
  destruct (bool_decide (doctorId ∈ doctors)) eqn:D; simpl; [|left; eauto].
  apply bool_decide_eq_true in D.
  destruct (truthy date) eqn:T.
  - destruct (date ≫= parseDate) as [parsed|] eqn:P; [|left; eauto].
    destruct (Z.ltb_spec parsed (utcMidnight nowUtc)); [left; eauto|].
    right. exists parsed, parsed. split_and!; try done; try lia. left. done.
  - destruct (start ≫= parseDate) as [startDate|] eqn:P1; [|left; eauto].
    destruct (end_ ≫= parseDate) as [endDate|] eqn:P2; [|left; eauto].
    destruct (Z.ltb_spec startDate (utcMidnight nowUtc)); [left; eauto|].
    destruct (Z.ltb_spec endDate startDate); [left; eauto|].
    right. exists startDate, endDate. split_and!; try done. right. done.
Qed.

(** X20. [getAvailableSlots] offers what can still be booked. On a store whose
    slots have [HH:MM] start times and dates at UTC midnight, the slots
    listed for a doctor are exactly the doctor's [AVAILABLE] slots dated
    within the days asked for that start after [nowUtc]; they come ordered
    by date and start time, and the days asked for do not begin before
    today. *)
Theorem getAvailableSlots_offers doctors doctorId date start end_ nowUtc db message rows :
  (∀ id s, timeSlots db !! id = Some s →
           TimeFormat.timePattern (TimeSlot.startTime s) = true ∧
           utcMidnight (TimeSlot.date s) = TimeSlot.date s) →
  getAvailableSlots vQ parseDate doctors doctorId date start end_ nowUtc db
  = SlotsListed message rows →
  ∃ startDate endDate,
    ((truthy date = true ∧ date ≫= parseDate = Some startDate ∧ endDate = startDate)
     ∨ (truthy date = false ∧ start ≫= parseDate = Some startDate ∧
        end_ ≫= parseDate = Some endDate)) ∧
    utcMidnight nowUtc <= startDate <= endDate ∧
    (∀ row, row ∈ rows ↔
            ∃ s, timeSlots db !! row_slotId row = Some s ∧
                 row = mkSlotRow (row_slotId row) doctorId (TimeSlot.date s)
                         (TimeSlot.startTime s) (TimeSlot.endTime s) SLOT_STATUS.AVAILABLE ∧
                 TimeSlot.doctorId s = doctorId ∧
                 TimeSlot.status s = SLOT_STATUS.AVAILABLE ∧
                 startDate <= TimeSlot.date s <= endDate ∧
                 nowUtc < getUtcDateTime (TimeSlot.date s) (TimeSlot.startTime s)) ∧
    StronglySorted
      (fun a b => row_date a < row_date b
                  ∨ (row_date a = row_date b
                     ∧ String.leb (row_startTime a) (row_startTime b) = true)) rows ∧
    (rows = [] ↔ message = "No available slots"%string).
Proof.
  intros Hshape Ho.
  destruct (getAvailableSlots_cases doctors doctorId date start end_ nowUtc db)
    as [(h & e & Hr)|(startDate & endDate & _ & _ & Hq & Hrange & Hl)].
  { rewrite Hr in Ho. done. }
  cbv zeta in Hl. rewrite Hl in Ho. injection Ho as Hm <-.
  exists startDate, endDate. split; [done|]. split; [done|]. split_and!.
  - intros row. rewrite list_elem_of_fmap. split.
    + intros ([i s] & -> & Hin). apply list_elem_of_filter in Hin as [Hkeep Hin].
      apply timeSlot_findMany_elem in Hin as [Hs Hw]. simpl in Hkeep.
      apply andb_true_iff in Hw as [Hw Hst]. apply andb_true_iff in Hw as [Hw Hhi].
      apply andb_true_iff in Hw as [Hd Hlo].
      apply bool_decide_eq_true in Hd, Hst. apply Z.leb_le in Hlo, Hhi.
      destruct (Hshape i s Hs) as [Pt Pd].
      exists s. unfold offerRow. simpl. rewrite Pd, Hd, Hst. split_and!; try done.
      destruct (timePattern_minutes _ Pt) as (k & Hk & Ek & _).
      pose proof (started_guard_minutes (TimeSlot.date s) k nowUtc Hk Pd) as G.
      rewrite <- Ek in G. rewrite Pd in Hkeep.
      destruct (Z.eqb_spec (TimeSlot.date s) (utcMidnight nowUtc)) as [Heq|Hne].
      * rewrite String_ltb_leb in Hkeep. apply negb_true_iff in Hkeep.
        rewrite Hkeep in G. simpl in G.
        assert ((TimeSlot.date s <? utcMidnight nowUtc) = false) as Hlt
          by (apply Z.ltb_ge; lia).
        rewrite Hlt in G. simpl in G. symmetry in G. by apply Z.leb_gt in G.
      * assert ((TimeSlot.date s <? utcMidnight nowUtc) = false) as Hlt
          by (apply Z.ltb_ge; lia).
        rewrite Hlt in G. simpl in G. symmetry in G. by apply Z.leb_gt in G.
    + intros (s & Hs & Hrow & Hd & Hst & [Hlo Hhi] & Hfuture).
      destruct (Hshape _ s Hs) as [Pt Pd].
      exists (row_slotId row, s). split.
      { unfold offerRow. simpl. rewrite Pd, Hd, Hst. done. }
      apply list_elem_of_filter. split.
      * simpl. rewrite Pd.
        destruct (timePattern_minutes _ Pt) as (k & Hk & Ek & _).
        pose proof (started_guard_minutes (TimeSlot.date s) k nowUtc Hk Pd) as G.
        rewrite <- Ek in G. apply Z.leb_gt in Hfuture. rewrite Hfuture in G.
        apply orb_false_iff in G as [_ G].
        destruct (Z.eqb_spec (TimeSlot.date s) (utcMidnight nowUtc)); [|done].
        simpl in G. rewrite String_ltb_leb, G. done.
      * apply timeSlot_findMany_elem. split; [done|].
        rewrite (bool_decide_eq_true_2 _ Hd), (bool_decide_eq_true_2 _ Hst).
        apply Z.leb_le in Hlo, Hhi. by rewrite Hlo, Hhi.
  - assert (StronglySorted (ordered byDateThenStartTime)
              (timeSlot_findMany
                 (fun s => bool_decide (TimeSlot.doctorId s = doctorId)
                           && (startDate <=? TimeSlot.date s)
                           && (TimeSlot.date s <=? endDate)
                           && bool_decide (TimeSlot.status s = SLOT_STATUS.AVAILABLE))
                 byDateThenStartTime (timeSlots db))) as Hsorted.
    { apply StronglySorted_merge_sort;
        [apply byDateThenStartTime_trans|apply byDateThenStartTime_total]. }
    eapply (StronglySorted_fmap_Forall _ _
              (fun kv => utcMidnight (TimeSlot.date kv.2) = TimeSlot.date kv.2));
      [| |by apply StronglySorted_filter_list].
    + intros [i a] [j b] Pa Pb. unfold ordered, byDateThenStartTime, offerRow. simpl in *.
      rewrite Pa, Pb. intros H. apply orb_true_iff in H as [H|H].
      * left. by apply Z.ltb_lt.
      * apply andb_true_iff in H as [H1 H2]. right. split; [by apply Z.eqb_eq|done].
    + apply Forall_forall. intros [i s] Hin.
      apply list_elem_of_filter in Hin as [_ Hin].
      apply timeSlot_findMany_elem in Hin as [Hs _]. by destruct (Hshape i s Hs).
  - split.
    + intros E. rewrite <- Hm. by rewrite E.
    + intros E. rewrite <- Hm in E. destruct (fmap offerRow _); [done|]. simpl in E. done.
Qed.

(** X21. A slot on offer can be locked. Every slot [getAvailableSlots] lists is
    locked by the next lock request for it, from any user who holds fewer
    than three live leases, whenever that request arrives: [lockTimeSlot]
    does not look at the clock of the slot. *)
Theorem offered_slot_locks doctors doctorId date start end_ nowUtc db message rows row
    userId T redis :
  (∀ id s, timeSlots db !! id = Some s →
           TimeFormat.timePattern (TimeSlot.startTime s) = true ∧
           utcMidnight (TimeSlot.date s) = TimeSlot.date s) →
  getAvailableSlots vQ parseDate doctors doctorId date start end_ nowUtc db
  = SlotsListed message rows →
  row ∈ rows →
  (Prisma.timeSlot_count (heldBy userId T) (timeSlots db) < 3)%nat →
  let o := lockTimeSlot doctorId (row_slotId row) userId T redis db db in
  response o = ok 200 "Slot locked"
                 (LockData (row_slotId row) doctorId userId T (T + 5 * 60 * 1000)) ∧
  timeSlots (store o) !! row_slotId row
  = Some (TimeSlot.mk doctorId (row_date row) (row_startTime row) (row_endTime row)
            SLOT_STATUS.LOCKED (Some userId) (Some T) (Some (T + 5 * 60 * 1000))).
Proof.
  intros Hshape Ho Hrow Hcap.
  destruct (getAvailableSlots_cases doctors doctorId date start end_ nowUtc db)
    as [(h & e & Hr)|(startDate & endDate & _ & _ & _ & _ & Hl)].
  { rewrite Hr in Ho. done. }
  cbv zeta in Hl. rewrite Hl in Ho. injection Ho as _ <-.
  apply list_elem_of_fmap in Hrow as ([i s] & -> & Hin).
  apply list_elem_of_filter in Hin as [_ Hin].
  apply timeSlot_findMany_elem in Hin as [Hs Hw].
  apply andb_true_iff in Hw as [Hw Hst]. apply andb_true_iff in Hw as [Hw _].
  apply andb_true_iff in Hw as [Hd _]. apply bool_decide_eq_true in Hd, Hst.
  destruct (Hshape i s Hs) as [_ Pd]. unfold offerRow. simpl.
  destruct (lockTimeSlot_succeeds doctorId i userId T redis db s Hs Hd Hst Hcap) as [-> ->].
  split; [done|]. simpl. rewrite lookup_insert_eq. unfold lockFor. by rewrite Pd, Hd.
Qed.

End Offer.

(** ** The appointments of a user *)

Lemma filter_bool_ext {A} (p q : A → bool) (l : list A) :
  (∀ x, x ∈ l → p x = q x) →
  filter (fun x => p x = true) l = filter (fun x => q x = true) l.
Proof.
  induction l as [|x l IH]; intros H; [done|].
  rewrite !filter_cons, (H x) by left.
  rewrite IH by (intros y Hy; apply H; by right). done.
Qed.

Lemma appointment_findMany_ext p q db :
  (∀ i a, appointments db !! i = Some a → p a = q a) →
  appointment_findMany p db = appointment_findMany q db.
Proof.
  intros H. unfold appointment_findMany. do 2 f_equal.
  apply (filter_bool_ext (fun ia => p ia.2) (fun ia => q ia.2)).
  intros [i a] Hin. apply elem_of_lookup_imap in Hin as (j & b & [= -> ->] & Hb).
  simpl. by eapply H.
Qed.

Lemma appointment_findMany_elem p db r :
  r ∈ appointment_findMany p db ↔
  ∃ i a, appointments db !! i = Some a ∧ p a = true ∧ r = appointmentRow (timeSlots db) (i, a).
Proof.
  unfold appointment_findMany. rewrite list_elem_of_fmap. split.
  - intros ([i a] & -> & Hin). rewrite elem_of_reverse in Hin.
    apply list_elem_of_filter in Hin as [Hp Hin].
    apply elem_of_lookup_imap in Hin as (j & b & [= -> ->] & Hb). eauto.
  - intros (i & a & Ha & Hp & ->). exists (i, a). split; [done|].
    rewrite elem_of_reverse. apply list_elem_of_filter. split; [done|].
    by apply (elem_of_lookup_imap_2 pair).
Qed.

Lemma startsLater_startedBy todayUtc hm s :
  startsLater todayUtc hm s = negb (startedBy todayUtc hm s).
Proof.
  unfold startsLater, startedBy. rewrite String_ltb_leb.
  destruct (Z.ltb_spec todayUtc (TimeSlot.date s)), (Z.ltb_spec (TimeSlot.date s) todayUtc),
    (Z.eqb_spec (TimeSlot.date s) todayUtc); simpl; try done; lia.
Qed.

Lemma timeSlot_is_startsLater slots nowUtc i a :
  timeSlot_is slots (startsLater (utcMidnight nowUtc) (currentHM nowUtc)) a = true
  ↔ rowStartsLater nowUtc (appointmentRow slots (i, a)).
Proof.
  unfold timeSlot_is, rowStartsLater, appointmentRow, startsLater. simpl.
  destruct (Appointment.timeSlotId a) as [j|]; simpl;
    [destruct (slots !! j) as [s|]; simpl|].
  - rewrite orb_true_iff, andb_true_iff, Z.ltb_lt, Z.eqb_eq. split.
    + intros H. eauto 10.
    + by intros (? & ? & ? & ? & [= <- <- <- <-] & H).
  - split; [done|]. by intros (? & ? & ? & ? & ? & _).
  - split; [done|]. by intros (? & ? & ? & ? & ? & _).
Qed.

Lemma timeSlot_is_startedBy slots nowUtc i a :
  timeSlot_is slots (startedBy (utcMidnight nowUtc) (currentHM nowUtc)) a = true
  ↔ rowStartedBy nowUtc (appointmentRow slots (i, a)).
Proof.
  unfold timeSlot_is, rowStartedBy, appointmentRow, startedBy. simpl.
  destruct (Appointment.timeSlotId a) as [j|]; simpl;
    [destruct (slots !! j) as [s|]; simpl|].
  - rewrite orb_true_iff, andb_true_iff, Z.ltb_lt, Z.eqb_eq. split.
    + intros H. eauto 10.
    + by intros (? & ? & ? & ? & [= <- <- <- <-] & H).
  - split; [done|]. by intros (? & ? & ? & ? & ? & _).
  - split; [done|]. by intros (? & ? & ? & ? & ? & _).
Qed.

Lemma rowStartsLater_not_started nowUtc r :
  rowStartsLater nowUtc r → rowStartedBy nowUtc r → False.
Proof.
  intros (i & d & st & en & Hr & H1) (i' & d' & st' & en' & Hr' & H2).
  rewrite Hr in Hr'. injection Hr' as <- <- <- <-.
  rewrite String_ltb_leb, negb_true_iff in H1.
  destruct H1 as [H1|[-> H1]], H2 as [H2|[H2 H3]]; try lia. congruence.
Qed.

Lemma row_started_or_later slots nowUtc i a :
  let r := appointmentRow slots (i, a) in
  rowStartsLater nowUtc r ∨ rowStartedBy nowUtc r ∨ arow_timeSlot r = None.
Proof.
  cbv zeta. unfold rowStartsLater, rowStartedBy, appointmentRow. simpl.
  destruct (Appointment.timeSlotId a) as [j|]; simpl; [|auto].
  destruct (slots !! j) as [s|]; simpl; [|auto].
  pose proof (startsLater_startedBy (utcMidnight nowUtc) (currentHM nowUtc) s) as H.
  unfold startsLater, startedBy in H.
  destruct (Z.ltb_spec (utcMidnight nowUtc) (TimeSlot.date s)); [left; eauto 10|].
  destruct (Z.ltb_spec (TimeSlot.date s) (utcMidnight nowUtc)); [right; left; eauto 10|].
  assert (TimeSlot.date s = utcMidnight nowUtc) as E by lia.
  rewrite E, Z.eqb_refl in H. simpl in H.
  destruct (String.ltb (currentHM nowUtc) (TimeSlot.startTime s)) eqn:L.
  - left. eauto 10.
  - right. left. symmetry in H. apply negb_false_iff in H. eauto 10.
Qed.

(** X22. The windows of [listAppointments] when no status is asked for and the
    cache has no entry. [upcoming] lists the caller's appointments that are
    not [COMPLETED] and whose slot starts after the current minute; [past]
    lists the [COMPLETED] ones, and the [BOOKED] and [CANCELLED] ones whose
    slot has started. No appointment is in both. The caller's appointments
    in neither are the [RESCHEDULED] ones whose slot has started and those
    that are not [COMPLETED] and have no slot. *)
Theorem listAppointments_windows userId statusFilter nowUtc cache db :
  allowedStatus statusFilter = None →
  (∀ type, cache_get cache (mkListKey userId None type) = Some Miss) →
  (∀ type, cache_set cache (mkListKey userId None type) = true) →
  ∃ rowsU rowsP rowsA,
    listAppointments userId statusFilter "upcoming" nowUtc cache db
    = ListFetched "Appointments fetched successfully" rowsU ∧
    listAppointments userId statusFilter "past" nowUtc cache db
    = ListFetched "Appointments fetched successfully" rowsP ∧
    listAppointments userId statusFilter "all" nowUtc cache db
    = ListFetched "Appointments fetched successfully" rowsA ∧
    (∀ r, r ∈ rowsA ↔
          ∃ i a, appointments db !! i = Some a ∧ Appointment.userId a = userId ∧
                 r = appointmentRow (timeSlots db) (i, a)) ∧
    (∀ r, r ∈ rowsU ↔
          r ∈ rowsA ∧ arow_status r ≠ APPOINTMENT_STATUS.COMPLETED ∧ rowStartsLater nowUtc r) ∧
    (∀ r, r ∈ rowsP ↔
          r ∈ rowsA ∧
          (arow_status r = APPOINTMENT_STATUS.COMPLETED
           ∨ (arow_status r ≠ APPOINTMENT_STATUS.RESCHEDULED ∧ rowStartedBy nowUtc r))) ∧
    (∀ r, r ∈ rowsU → r ∉ rowsP) ∧
    (∀ r, r ∈ rowsA → r ∉ rowsU → r ∉ rowsP →
          (arow_status r = APPOINTMENT_STATUS.RESCHEDULED ∧ rowStartedBy nowUtc r)
          ∨ (arow_status r ≠ APPOINTMENT_STATUS.COMPLETED ∧ arow_timeSlot r = None)).
Proof.
  intros Hst Hget Hset. unfold listAppointments. cbv zeta. rewrite Hst, !Hget, !Hset.
  eexists _, _, _. split; [done|]. split; [done|]. split; [done|].
  change (allowedType "upcoming") with upcoming.
  change (allowedType "past") with past.
  change (allowedType "all") with all.
  assert (∀ r, r ∈ appointment_findMany
                     (listAppointments_where userId None all nowUtc (timeSlots db)) db ↔
               ∃ i a, appointments db !! i = Some a ∧ Appointment.userId a = userId ∧
                      r = appointmentRow (timeSlots db) (i, a)) as HA.
  { intros r. rewrite appointment_findMany_elem. unfold listAppointments_where.
    split; intros (i & a & Ha & H & ->); exists i, a; split_and!; try done.
    - rewrite !andb_true_r in H. by apply bool_decide_eq_true in H.
    - rewrite !andb_true_r. by apply bool_decide_eq_true. }
  assert (∀ r, r ∈ appointment_findMany
                     (listAppointments_where userId None upcoming nowUtc (timeSlots db)) db ↔
               r ∈ appointment_findMany
                     (listAppointments_where userId None all nowUtc (timeSlots db)) db
               ∧ arow_status r ≠ APPOINTMENT_STATUS.COMPLETED ∧ rowStartsLater nowUtc r)
    as HU.
  { intros r. rewrite HA, appointment_findMany_elem. unfold listAppointments_where.
    split.
    - intros (i & a & Ha & H & ->). rewrite andb_true_r in H.
      apply andb_true_iff in H as [Hu H]. apply bool_decide_eq_true in Hu.
      split; [eauto|]. simpl.
      destruct (Appointment.status a) eqn:S; simpl in H;
        rewrite ?orb_false_r in H; try done;
        (split; [done|]); by apply timeSlot_is_startsLater.
    - intros ((i & a & Ha & Hu & ->) & Hs & Hl). exists i, a. split_and!; try done.
      rewrite andb_true_r, (bool_decide_eq_true_2 _ Hu). simpl in Hs.
      apply timeSlot_is_startsLater in Hl. rewrite Hl.
      by destruct (Appointment.status a). }
  assert (∀ r, r ∈ appointment_findMany
                     (listAppointments_where userId None past nowUtc (timeSlots db)) db ↔
               r ∈ appointment_findMany
                     (listAppointments_where userId None all nowUtc (timeSlots db)) db
               ∧ (arow_status r = APPOINTMENT_STATUS.COMPLETED
                  ∨ (arow_status r ≠ APPOINTMENT_STATUS.RESCHEDULED ∧ rowStartedBy nowUtc r)))
    as HP.
  { intros r. rewrite HA, appointment_findMany_elem. unfold listAppointments_where.
    split.
    - intros (i & a & Ha & H & ->). rewrite andb_true_r in H.
      apply andb_true_iff in H as [Hu H]. apply bool_decide_eq_true in Hu.
      split; [eauto|]. simpl.
      destruct (Appointment.status a) eqn:S; simpl in H;
        rewrite ?orb_false_r in H; try done; [right|by left|right];
        (split; [done|]); by apply timeSlot_is_startedBy.
    - intros ((i & a & Ha & Hu & ->) & Hs). exists i, a. split_and!; try done.
      rewrite andb_true_r, (bool_decide_eq_true_2 _ Hu). simpl in Hs.
      destruct Hs as [Hs|[Hs Hl]].
      + by rewrite Hs.
      + apply timeSlot_is_startedBy in Hl. rewrite Hl.
        by destruct (Appointment.status a). }
  split_and!; try done.
  - intros r [_ [Hs Hl]]%HU [_ [Hc|[_ Hp]]]%HP; [done|].
    by eapply rowStartsLater_not_started.
  - intros r Hr HnU HnP. pose proof Hr as (i & a & Ha & Hu & ->)%HA.
    destruct (decide (arow_status (appointmentRow (timeSlots db) (i, a))
                      = APPOINTMENT_STATUS.COMPLETED)) as [Hc|Hc].
    { destruct HnP. apply HP. auto. }
    destruct (row_started_or_later (timeSlots db) nowUtc i a) as [Hl|[Hs|Hn]].
    + destruct HnU. apply HU. auto.
    + left. split; [|done].
      destruct (decide (arow_status (appointmentRow (timeSlots db) (i, a))
                        = APPOINTMENT_STATUS.RESCHEDULED)) as [|Hnr]; [done|].
      destruct HnP. apply HP. auto.
    + right. done.
Qed.

(** The rows [listAppointments] reads from the database for a status: the
    caller's appointments with that status, whatever their slot. *)
Lemma listAppointments_where_status userId st type nowUtc db (Htype : type ≠ past) r :
  r ∈ appointment_findMany
        (listAppointments_where userId (Some st) type nowUtc (timeSlots db)) db
  ↔ ∃ i a, appointments db !! i = Some a ∧ Appointment.userId a = userId ∧
           Appointment.status a = st ∧ r = appointmentRow (timeSlots db) (i, a).
Proof.
  rewrite appointment_findMany_elem. unfold listAppointments_where.
  assert (match type with
          | past => false
          | upcoming | all => true
          end = true) as Ht by by destruct type.
  split.
  - intros (i & a & Ha & H & ->). exists i, a.
    apply andb_true_iff in H as [[Hu Hs]%andb_true_iff _].
    apply bool_decide_eq_true in Hu, Hs. done.
  - intros (i & a & Ha & Hu & Hs & ->). exists i, a. split; [done|]. split; [|done].
    rewrite (bool_decide_eq_true_2 _ Hu), (bool_decide_eq_true_2 _ Hs).
    by destruct type.
Qed.

(** X23. [listAppointments] with a status, when the entries it reads are
    missing (the key holds the type, so each request reads its own entry).
    When a status is asked for, [upcoming] is not applied: the answer is the
    one for [all], the caller's appointments with that status, past ones
    included. [past] is applied on top of the status: it changes nothing for
    [COMPLETED], and with [RESCHEDULED] it lists nothing. An entry found is
    answered as it is, so a stale entry under one type does not show under
    another. *)
Theorem listAppointments_status_filter userId statusFilter st nowUtc cache db :
  allowedStatus statusFilter = Some st →
  ((∀ type, cache_get cache (mkListKey userId (Some st) type) = Some Miss) →
   (∀ type, cache_set cache (mkListKey userId (Some st) type) = true) →
   ∃ rows,
     listAppointments userId statusFilter "all" nowUtc cache db
     = ListFetched "Appointments fetched successfully" rows ∧
     listAppointments userId statusFilter "upcoming" nowUtc cache db
     = ListFetched "Appointments fetched successfully" rows ∧
     (∀ r, r ∈ rows ↔
           ∃ i a, appointments db !! i = Some a ∧ Appointment.userId a = userId ∧
                  Appointment.status a = st ∧ r = appointmentRow (timeSlots db) (i, a)) ∧
     (st = APPOINTMENT_STATUS.COMPLETED →
      listAppointments userId statusFilter "past" nowUtc cache db
      = ListFetched "Appointments fetched successfully" rows) ∧
     (st = APPOINTMENT_STATUS.RESCHEDULED →
      listAppointments userId statusFilter "past" nowUtc cache db
      = ListFetched "Appointments fetched successfully" []))
  ∧ (∀ typeFilter parsed,
       cache_get cache (mkListKey userId (Some st) (allowedType typeFilter))
       = Some (Hit parsed) →
       listAppointments userId statusFilter typeFilter nowUtc cache db
       = ListFetched "Appointments fetched from cache" parsed).
Proof.
  intros Hst. split.
  - intros Hget Hset. unfold listAppointments. cbv zeta. rewrite Hst, !Hget, !Hset.
    change (allowedType "upcoming") with upcoming.
    change (allowedType "past") with past.
    change (allowedType "all") with all.
    eexists. split; [done|]. split; [done|]. split_and!.
    + intros r. by apply listAppointments_where_status.
    + intros ->. f_equal.
      apply (appointment_findMany_ext
               (listAppointments_where userId (Some APPOINTMENT_STATUS.COMPLETED) past
                  nowUtc (timeSlots db))
               (listAppointments_where userId (Some APPOINTMENT_STATUS.COMPLETED) all
                  nowUtc (timeSlots db))).
      intros i a _. unfold listAppointments_where.
      destruct (bool_decide (Appointment.userId a = userId)); [|done]. simpl.
      by destruct (Appointment.status a).
    + intros ->. f_equal. apply elem_of_nil_inv. intros r Hr.
      apply appointment_findMany_elem in Hr as (i & a & _ & H & _).
      unfold listAppointments_where in H.
      destruct (bool_decide (Appointment.userId a = userId)); [|done]. simpl in H.
      by destruct (Appointment.status a).
  - intros typeFilter parsed Hget. unfold listAppointments. cbv zeta.
    by rewrite Hst, Hget.
Qed.

(** ** The earliest slot of each doctor *)

Lemma foldl_first_lookup {A} (key : A → nat) (l : list A) (m : gmap nat A) d :
  foldl (fun (acc : gmap nat A) x => if acc !! key x is Some _ then acc else <[key x := x]> acc)
    m l !! d
  = match m !! d with
    | Some v => Some v
    | None => head (filter (fun x => key x = d) l)
    end.
Proof.
  revert m. induction l as [|x l IH]; intros m; simpl.
  - by destruct (m !! d).
  - rewrite IH. rewrite filter_cons. destruct (m !! key x) as [v|] eqn:E.
    + destruct (m !! d) eqn:D; [done|]. rewrite decide_False; [done|]. congruence.
    + destruct (decide (key x = d)) as [<-|Hne].
      * by rewrite lookup_insert_eq, E.
      * by rewrite lookup_insert_ne.
Qed.

Lemma StronglySorted_head_filter {A} (R : relation A) (P : A → Prop)
    `{∀ x, Decision (P x)} (l : list A) x :
  StronglySorted R l → head (filter P l) = Some x →
  x ∈ l ∧ P x ∧ ∀ y, y ∈ l → P y → y = x ∨ R x y.
Proof.
  intros Hs. induction Hs as [|a l Hs IH Hall]; [done|].
  rewrite filter_cons. destruct (decide (P a)) as [Pa|Pa]; simpl.
  - intros [= <-]. split_and!; [left|done|].
    intros y [->|Hy]%elem_of_cons _; [by left|]. right.
    rewrite Forall_forall in Hall. by apply Hall.
  - intros Hh. destruct (IH Hh) as (Hx & Px & Hmin). split_and!; [by right|done|].
    intros y [->|Hy]%elem_of_cons Py; [done|]. by apply Hmin.
Qed.

(** X24. [getEarliestAvailableSlots] keeps, for each doctor asked for, a slot of
    that doctor that is [AVAILABLE] and starts after the current minute, and
    no other such slot of the doctor comes before it by date and start time.
    A doctor has no entry exactly when the doctor is not asked for or has no
    such slot. *)
Theorem getEarliestAvailableSlots_earliest doctorIds todayUtc hm slots d :
  let candidate (s : TimeSlot.t) :=
    TimeSlot.doctorId s = d ∧ TimeSlot.status s = SLOT_STATUS.AVAILABLE ∧
    startsLater todayUtc hm s = true in
  match getEarliestAvailableSlots doctorIds todayUtc hm slots !! d with
  | Some (i, s) =>
      d ∈ doctorIds ∧ slots !! i = Some s ∧ candidate s ∧
      ∀ j s', slots !! j = Some s' → candidate s' →
              TimeSlot.date s < TimeSlot.date s'
              ∨ (TimeSlot.date s = TimeSlot.date s'
                 ∧ String.leb (TimeSlot.startTime s) (TimeSlot.startTime s') = true)
  | None => d ∉ doctorIds ∨ ∀ j s', slots !! j = Some s' → ¬ candidate s'
  end.
Proof.
  intros candidate. unfold getEarliestAvailableSlots.
  rewrite (foldl_first_lookup (fun kv : nat * TimeSlot.t => TimeSlot.doctorId kv.2)).
  rewrite lookup_empty.
  set (l := timeSlot_findMany _ _ _).
  assert (StronglySorted (ordered byDateThenStartTime) l) as Hsorted.
  { apply StronglySorted_merge_sort;
      [apply byDateThenStartTime_trans|apply byDateThenStartTime_total]. }
  assert (∀ j s', (j, s') ∈ l ↔
                  slots !! j = Some s' ∧ TimeSlot.doctorId s' ∈ doctorIds ∧
                  TimeSlot.status s' = SLOT_STATUS.AVAILABLE ∧
                  startsLater todayUtc hm s' = true) as Hl.
  { intros j s'. unfold l. rewrite timeSlot_findMany_elem, !andb_true_iff.
    rewrite !bool_decide_eq_true. tauto. }
  destruct (head _) as [[i s]|] eqn:Hh.
  - apply (StronglySorted_head_filter _ _ _ _ Hsorted) in Hh as (Hin & Hk & Hmin).
    simpl in Hk. apply Hl in Hin as (Hs & Hd & Hst & Hfut).
    split_and!; try done. { by rewrite <- Hk. }
    intros j s' Hs' (Hd' & Hst' & Hfut').
    assert ((j, s') ∈ l) as Hin' by (apply Hl; rewrite Hd', <- Hk; done).
    destruct (Hmin (j, s') Hin' Hd') as [[= -> ->]|HR].
    + right. split; [done|].
      by destruct (String.leb_total (TimeSlot.startTime s) (TimeSlot.startTime s)).
    + unfold ordered, byDateThenStartTime in HR. simpl in HR.
      apply orb_true_iff in HR as [HR|HR]; [left; by apply Z.ltb_lt|].
      apply andb_true_iff in HR as [HR1 HR2]. right. split; [by apply Z.eqb_eq|done].
  - destruct (decide (d ∈ doctorIds)) as [Hd|Hd]; [right|by left].
    intros j s' Hs' (Hd' & Hst' & Hfut').
    assert ((j, s') ∈ l) as Hin' by (apply Hl; rewrite Hd'; done).
    apply head_None in Hh.
    assert ((j, s') ∈ filter (fun kv : nat * TimeSlot.t => TimeSlot.doctorId kv.2 = d) l)
      as Hf by (apply list_elem_of_filter; done).
    rewrite Hh in Hf. by apply elem_of_nil in Hf.
Qed.

(** ** What the booking requests never touch *)

Lemma existsb_bookedOn_none s (l : list Appointment.t) :
  (∀ i a, l !! i = Some a → bookedOn s a = false) → existsb (bookedOn s) l = false.
Proof.
  intros H. destruct (existsb (bookedOn s) l) eqn:E; [|done].
  apply existsb_exists in E as (a & Hin & Hb).
  apply list_elem_of_In, list_elem_of_lookup in Hin as [i Hi].
  by rewrite (H i a Hi) in Hb.
Qed.

Lemma rescheduled_rows (l : list Appointment.t) appointmentId a created newSlotId k z :
  Prisma.appointment_updateMany
    (fun i x => bool_decide (Appointment.timeSlotId x = Some newSlotId)
                && negb (i =? length l)%nat)
    detach
    (<[appointmentId := setStatus APPOINTMENT_STATUS.RESCHEDULED a]> l ++ [created]) !! k
  = Some z →
  (k = length l ∧ z = created)
  ∨ (k < length l)%nat ∧
    ∃ w, (w = setStatus APPOINTMENT_STATUS.RESCHEDULED a ∧ k = appointmentId
          ∨ l !! k = Some w ∧ k ≠ appointmentId)
         ∧ (z = w ∨ z = detach w).
Proof.
  rewrite appointment_updateMany_lookup.
  set (l1 := <[appointmentId := setStatus APPOINTMENT_STATUS.RESCHEDULED a]> l).
  assert (length l1 = length l) as Hlen by apply length_insert.
  destruct ((l1 ++ [created]) !! k) as [w|] eqn:Hw; [|done]. simpl. intros [= <-].
  destruct (decide (k = length l)) as [->|Hne].
  - left. split; [done|]. rewrite Nat.eqb_refl, andb_false_r.
    rewrite lookup_app_r in Hw by lia. rewrite Hlen, Nat.sub_diag in Hw. by injection Hw.
  - right.
    assert (k < length l)%nat as Hlt.
    { apply lookup_lt_Some in Hw. rewrite length_app, Hlen in Hw. simpl in Hw. lia. }
    split; [done|]. rewrite lookup_app_l in Hw by lia. exists w. split.
    + unfold l1 in Hw. destruct (decide (appointmentId = k)) as [->|Hk].
      * rewrite list_lookup_insert_eq in Hw by done. left. split; congruence.
      * rewrite list_lookup_insert_ne in Hw by done. right. split; congruence.
    + destruct (_ && _); auto.
Qed.

Section Frames.

Variable vA : nat -> nat -> option string -> option string.
Variable vS : APPOINTMENT_STATUS.t -> option string.
Variable vP : nat -> option string.
Variable vR : nat -> nat -> nat -> nat -> option string.

(** X25. An appointment is for good: whatever requests are served and whenever the
    clean-up job runs, an appointment keeps its id, its user, its doctor and
    its notes. Only its status and its slot reference change. *)
Theorem appointment_identity_kept allowed init db i a0 :
  reachable vA vS vP vR allowed init db →
  appointments init !! i = Some a0 →
  ∃ a, appointments db !! i = Some a ∧
       Appointment.userId a = Appointment.userId a0 ∧
       Appointment.doctorId a = Appointment.doctorId a0 ∧
       Appointment.notes a = Appointment.notes a0.
Proof.
  intros Hr Hi.
  induction Hr as [|req nowUtc redis db Hr (a & Ha & Hu & Hd & Hn)|now db Hr IH];
    [eauto| |done].
  assert (i < length (appointments db))%nat as Hlt by (by eapply lookup_lt_Some).
  destruct req; simpl.
  - rewrite lockTimeSlot_appointments. eauto.
  - destruct (confirmBooking_cases vA doctorId timeSlotId notes userId nowUtc redis db db)
      as [[_ ->]|(slot & s & u & t & _ & _ & _ & _ & _ & _ & _ & _ & _ & _ & _ & _ & ->)];
      [eauto|].
    simpl. exists a. by rewrite lookup_app_l.
  - destruct (updateAppointmentStatus_store vS id status userId redis db db)
      as [->|(b & Hb & ->)]; [eauto|]. simpl.
    destruct (decide (id = i)) as [->|Hne].
    + rewrite list_lookup_insert_eq by done. exists (setStatus status b).
      rewrite Ha in Hb. injection Hb as <-. done.
    + rewrite list_lookup_insert_ne by done. eauto.
  - rewrite (rescheduleAppointment_appointments vP). eauto.
  - destruct (cancelAppointment_cases id userId nowUtc redis db db)
      as [[_ ->]|(appt & b & _ & _ & _ & Hb & _ & -> & _)]; [eauto|].
    destruct (decide (id = i)) as [->|Hne].
    + rewrite list_lookup_insert_eq by done.
      exists (setStatus APPOINTMENT_STATUS.CANCELLED b).
      rewrite Ha in Hb. injection Hb as <-. done.
    + rewrite list_lookup_insert_ne by done. eauto.
  - destruct (confirmReschedule_cases vR appointmentId newSlotId oldSlotId doctorId userId
                nowUtc redis db db)
      as [[_ ->]|(appt & newSlot & oldSlot & b & _ & _ & _ & _ & _ & _ & _ & _ & _ & _ & Hb
                  & _ & ->)]; [eauto|].
    simpl. rewrite appointment_updateMany_lookup.
    rewrite lookup_app_l by (by rewrite length_insert).
    destruct (decide (appointmentId = i)) as [->|Hne].
    + rewrite list_lookup_insert_eq by done. simpl.
      rewrite Ha in Hb. injection Hb as <-.
      eexists. split; [done|]. by destruct (_ && _).
    + rewrite list_lookup_insert_ne, Ha by done. simpl.
      eexists. split; [done|]. by destruct (_ && _).
Qed.

(** X26. The passcode window is never opened here: in every store reached from
    [init], a user row is the row of [init] or has no window at all. *)
Theorem otp_window_never_opened allowed init db u :
  reachable vA vS vP vR allowed init db →
  users db !! u = users init !! u
  ∨ (is_Some (users init !! u) ∧ users db !! u = Some (User.mk None)).
Proof.
  intros Hr.
  induction Hr as [|req nowUtc redis db Hr IH|now db Hr IH]; [by left| |done].
  assert (∀ db', users db' = users db →
                 users db' !! u = users init !! u
                 ∨ (is_Some (users init !! u) ∧ users db' !! u = Some (User.mk None)))
    as Hsame by (by intros db' ->).
  destruct req; simpl.
  - apply Hsame.
    destruct (lockTimeSlot_cases doctorId slotId userId nowUtc redis db db)
      as [[_ ->]|(slot & s & _ & _ & _ & _ & _ & _ & _ & _ & ->)]; done.
  - destruct (confirmBooking_cases vA doctorId timeSlotId notes userId nowUtc redis db db)
      as [[_ ->]|(slot & s & usr & t & _ & _ & _ & _ & _ & _ & _ & _ & _ & Hu & _ & _ & ->)];
      [done|].
    simpl. destruct (decide (u = userId)) as [->|Hne].
    + rewrite lookup_insert_eq. right. split; [|done].
      destruct IH as [IH|[IH _]]; [|done]. rewrite <- IH, Hu. eauto.
    + by rewrite lookup_insert_ne.
  - apply Hsame.
    destruct (updateAppointmentStatus_store vS id status userId redis db db)
      as [->|(b & _ & ->)]; done.
  - apply Hsame.
    destruct (rescheduleAppointment_cases vP id newTimeSlotId userId nowUtc db db)
      as [[_ ->]|(appt & timeSlotId & timeSlot & newSlot & s & _ & _ & _ & _ & _ & _ & _ & _
                  & _ & _ & _ & _ & _ & _ & ->)]; done.
  - apply Hsame.
    destruct (cancelAppointment_cases id userId nowUtc redis db db)
      as [[_ ->]|(appt & b & _ & _ & _ & _ & _ & _ & Hu & _)]; done.
  - apply Hsame.
    destruct (confirmReschedule_cases vR appointmentId newSlotId oldSlotId doctorId userId
                nowUtc redis db db)
      as [[_ ->]|(appt & newSlot & oldSlot & b & _ & _ & _ & _ & _ & _ & _ & _ & _ & _ & _
                  & _ & ->)]; done.
Qed.

(** X27. A slot left [BOOKED] without a booking stays so. If a slot is [BOOKED]
    with no lease and no [BOOKED] appointment refers to it (as after a
    cancellation within 24 hours of its start), then no request other than a
    status update and no run of the clean-up job changes its row or books an
    appointment on it. *)
Theorem orphaned_slot_stays_booked init db slotId s :
  reachable vA vS vP vR (fun req => ¬ isStatusUpdate req) init db →
  timeSlots init !! slotId = Some s →
  TimeSlot.status s = SLOT_STATUS.BOOKED →
  TimeSlot.lockedBy s = None →
  TimeSlot.lockExpires s = None →
  existsb (bookedOn slotId) (appointments init) = false →
  timeSlots db !! slotId = Some s ∧ existsb (bookedOn slotId) (appointments db) = false.
Proof.
  intros Hr Hs Hst Hby Hex Hnone.
  assert (∀ u now, lockable u now s = false ∧ rescheduleLockable u now s = false
                   ∧ heldBy u now s = false) as Hclosed.
  { intros u now. unfold lockable, rescheduleLockable, heldBy, expiredAt.
    by rewrite Hst, Hby, Hex. }
  induction Hr as [|req nowUtc redis db Hr [IHs IHa] Hreq|now db Hr [IHs IHa]]; [done| |].
  - destruct req; simpl.
    + destruct (lockTimeSlot_cases doctorId slotId0 userId nowUtc redis db db)
        as [[_ ->]|(slot & s' & _ & _ & _ & _ & Hs' & _ & Hl & _ & ->)]; [done|].
      simpl. split; [|done]. destruct (decide (slotId0 = slotId)) as [->|Hne].
      * rewrite IHs in Hs'. injection Hs' as <-.
        destruct (Hclosed userId nowUtc) as (E & _). congruence.
      * by rewrite lookup_insert_ne.
    + destruct (confirmBooking_cases vA doctorId timeSlotId notes userId nowUtc redis db db)
        as [[_ ->]|(slot & s' & u & t & _ & _ & _ & _ & _ & _ & Hs' & _ & Hh & _ & _ & _ & ->)];
        [done|].
      simpl. assert (timeSlotId ≠ slotId) as Hne.
      { intros ->. rewrite IHs in Hs'. injection Hs' as <-.
        destruct (Hclosed userId nowUtc) as (_ & _ & E). congruence. }
      split; [by rewrite lookup_insert_ne|].
      rewrite existsb_app, IHa. simpl. rewrite orb_false_r.
      unfold bookedOn. simpl. rewrite bool_decide_eq_false_2; [done|]. congruence.
    + by destruct Hreq.
    + destruct (rescheduleAppointment_cases vP id newTimeSlotId userId nowUtc db db)
        as [[_ ->]|(appt & timeSlotId & timeSlot & newSlot & s' & _ & _ & _ & _ & _ & _ & _ & _
                    & _ & _ & Hs' & _ & Hl & _ & ->)]; [done|].
      simpl. split; [|done]. destruct (decide (newTimeSlotId = slotId)) as [->|Hne].
      * rewrite IHs in Hs'. injection Hs' as <-.
        destruct (Hclosed userId nowUtc) as (_ & E & _). congruence.
      * by rewrite lookup_insert_ne.
    + destruct (cancelAppointment_cases id userId nowUtc redis db db)
        as [[_ ->]|(appt & b & Happt & _ & Hb & Hb' & _ & Happts & _ & Hslots)]; [done|].
      split.
      * destruct Hslots as [(s0 & timeSlotId & s' & _ & Hid & _ & _ & _ & ->)| ->]; [|done].
        rewrite lookup_insert_ne; [done|]. intros ->.
        pose proof (existsb_bookedOn_false _ _ _ _ IHa Happt) as E.
        apply not_true_iff_false in E. apply E. by apply bookedOn_true.
      * rewrite Happts. apply existsb_bookedOn_none. intros k z Hk.
        destruct (decide (id = k)) as [->|Hne].
        -- rewrite list_lookup_insert_eq in Hk by (by eapply lookup_lt_Some).
           injection Hk as <-. unfold bookedOn. simpl. apply andb_false_r.
        -- rewrite list_lookup_insert_ne in Hk by done.
           by eapply existsb_bookedOn_false.
    + destruct (confirmReschedule_cases vR appointmentId newSlotId oldSlotId doctorId userId
                  nowUtc redis db db)
        as [[_ ->]|(appt & newSlot & oldSlot & b & Happt & _ & Hb & _ & Hold & _ & Hn & _ & Hh
                    & _ & Hb' & _ & ->)]; [done|].
      simpl. assert (newSlotId ≠ slotId) as Hne.
      { intros ->. rewrite IHs in Hn. injection Hn as <-.
        destruct (Hclosed userId nowUtc) as (_ & _ & E). congruence. }
      assert (oldSlotId ≠ slotId) as Hne'.
      { intros ->. pose proof (existsb_bookedOn_false _ _ _ _ IHa Happt) as E.
        apply not_true_iff_false in E. apply E. by apply bookedOn_true. }
      split; [by rewrite !lookup_insert_ne|].
      apply existsb_bookedOn_none. intros k z Hk.
      apply rescheduled_rows in Hk as [[-> ->]|(Hlt & w & Hw & Hz)].
      * unfold bookedOn. simpl. rewrite bool_decide_eq_false_2; [done|]. congruence.
      * assert (bookedOn slotId w = false) as Ew.
        { destruct Hw as [[-> _]|[Hw _]].
          - unfold bookedOn, setStatus. simpl. apply andb_false_r.
          - by eapply existsb_bookedOn_false. }
        destruct Hz as [->| ->]; [done|].
        by unfold bookedOn, detach.
  - split; [|done]. rewrite releaseExpiredLocks_lookup, IHs. simpl.
    by rewrite Hst.
Qed.

End Frames.

(** ** Checking a concrete store *)

Lemma slots_forall (P : TimeSlot.t → bool) (m : gmap nat TimeSlot.t) :
  forallb (fun kv => P kv.2) (map_to_list m) = true →
  ∀ id s, m !! id = Some s → P s = true.
Proof.
  intros H id s Hs. rewrite forallb_forall in H.
  apply (H (id, s)). apply list_elem_of_In. by apply elem_of_map_to_list.
Qed.

Lemma slotShapedb_spec s : slotShapedb s = true → slotShaped s.
Proof.
  unfold slotShapedb, slotShaped. rewrite !andb_true_iff, Z.eqb_eq. tauto.
Qed.

Lemma overlapb_spec a b : overlap a b → overlapb a b = true.
Proof.
  intros (H1 & H2 & H3 & H4). unfold overlapb.
  by rewrite H1, H2, H3, H4, Nat.eqb_refl, Z.eqb_refl.
Qed.

Lemma calendarOkb_spec db : calendarOkb db = true → calendarOk db.
Proof.
  unfold calendarOkb. cbv zeta. rewrite andb_true_iff. intros [Hs Hp]. split.
  - intros id s H. apply slotShapedb_spec. by apply (slots_forall slotShapedb _ Hs id).
  - intros i j a b Hij Ha Hb Hov.
    rewrite forallb_forall in Hp.
    assert (In (i, a) (map_to_list (timeSlots db))) as Hi
      by (apply list_elem_of_In; by apply elem_of_map_to_list).
    assert (In (j, b) (map_to_list (timeSlots db))) as Hj
      by (apply list_elem_of_In; by apply elem_of_map_to_list).
    specialize (Hp _ Hi). rewrite forallb_forall in Hp. specialize (Hp _ Hj).
    simpl in Hp. rewrite (overlapb_spec _ _ Hov) in Hp.
    apply Nat.eqb_neq in Hij. by rewrite Hij in Hp.
Qed.

Lemma Desk_validateTimeSlotCreate_times d s e :
  Desk.validateTimeSlotCreate d s e = None →
  TimeFormat.timePattern s = true ∧ TimeFormat.timePattern e = true.
Proof.
  unfold Desk.validateTimeSlotCreate.
  destruct (Desk.datePattern d); [|done]. simpl.
  destruct (TimeFormat.timePattern s); [|done]. simpl.
  by destruct (TimeFormat.timePattern e).
Qed.

Lemma Desk_parseDate_midnight d z : Desk.parseDate d = Some z → utcMidnight z = z.
Proof.
  unfold Desk.parseDate.
  repeat (destruct (String.eqb d _); [intros [= <-]; reflexivity|]). done.
Qed.

(** ** The properties at work on the example stores *)

(** User 8 read the store before user 7 locked slot 10; the lock of user 8,
    written after it, is refused. *)
Lemma taken_slot_untouched_witness :
  let o := lockTimeSlot 1 10 8 (Scenario.at_ 90 10 2) Scenario.redisUp
             Scenario.db0 Scenario.db1 in
  success (response o) = false ∧ store o = Scenario.db1.
Proof.
  refine (proj1 (taken_slot_untouched Scenario.validateAppointment
                   Scenario.validateAppointmentReschedule
                   Scenario.validateRescheduleConfirm Scenario.db1 10%nat
                   (lockFor 7 Scenario.t0 (Scenario.freeSlot 1 100 "09:00" "09:30"))
                   8%nat (Scenario.at_ 90 10 2) _ _)
            1%nat Scenario.redisUp Scenario.db0).
  - vm_compute. reflexivity.
  - right. split; [reflexivity|].
    exists 7%nat, (Scenario.t0 + 5 * 60 * 1000). split_and!.
    + reflexivity.
    + lia.
    + reflexivity.
    + vm_compute. congruence.
Defined.

Lemma leasesShaped_reachable_witness :
  leaseShaped (markBooked (Scenario.freeSlot 1 100 "09:00" "09:30")).
Proof.
  apply (leasesShaped_reachable Scenario.validateAppointment
           Scenario.validateAppointmentStatusUpdate Scenario.validateAppointmentReschedule
           Scenario.validateRescheduleConfirm (fun req => ¬ isStatusUpdate req)
           Scenario.db0 Scenario.db5) with (id := 10%nat).
  - intros id s Hs. apply leaseShaped_available.
    pose proof (slots_forall
                  (fun s => if TimeSlot.status s is SLOT_STATUS.AVAILABLE then true
                            else false)
                  (timeSlots Scenario.db0) eq_refl id s Hs) as H.
    simpl in H. by destruct (TimeSlot.status s).
  - apply scenario_reachable.
  - vm_compute. reflexivity.
Defined.

Lemma releaseExpiredLocks_absorbs_witness :
  releaseExpiredLocks (Scenario.at_ 90 10 7)
    (releaseExpiredLocks (Scenario.at_ 90 10 6) Scenario.db1)
  = releaseExpiredLocks (Scenario.at_ 90 10 7) Scenario.db1.
Proof.
  refine (proj1 (releaseExpiredLocks_absorbs (Scenario.at_ 90 10 6) (Scenario.at_ 90 10 7)
                   Scenario.db1 _)).
  vm_compute. congruence.
Defined.

(** User 7 reserves slot 11 for appointment 0 at 10:08, after the lease of
    user 8 on it has run out: with or without a sweep at 10:08 before. *)
Lemma rescheduleAppointment_after_sweep_witness :
  let now := Scenario.at_ 90 10 8 in
  let swept := releaseExpiredLocks now Desk.dbStale in
  let o := Scenario.rescheduleAppointment 0 11 7 now Desk.dbStale Desk.dbStale in
  let o' := Scenario.rescheduleAppointment 0 11 7 now swept swept in
  response o' = response o ∧ store o' = releaseExpiredLocks now (store o).
Proof.
  apply (rescheduleAppointment_after_sweep Scenario.validateAppointmentReschedule 0 11 7
           (Scenario.at_ 90 10 8) (Scenario.at_ 90 10 8) Desk.dbStale).
  vm_compute. congruence.
Defined.

Lemma lock_then_confirm_witness :
  let locked := lockTimeSlot 1 10 7 Scenario.t0 Scenario.redisUp Scenario.db0 Scenario.db0 in
  let o := Scenario.confirmBooking 1 10 None 7 (Scenario.at_ 90 10 1) Scenario.redisDown
             (store locked) (store locked) in
  response o
  = ok 201 "Appointment booked successfully"
      (AppointmentData 0 (Appointment.mk 7 1 (Some 10%nat) APPOINTMENT_STATUS.BOOKED None)).
Proof.
  refine (proj1 (proj2
    (lock_then_confirm Scenario.validateAppointment 1 10 None 7 Scenario.t0
       (Scenario.at_ 90 10 1) Scenario.redisUp Scenario.redisDown Scenario.db0
       (Scenario.freeSlot 1 100 "09:00" "09:30") (Scenario.verified (Scenario.at_ 90 10 5))
       (Scenario.at_ 90 10 5) _ _ _ _ _ _ _ _ _ _ _ _ _))).
  - reflexivity.
  - vm_compute. reflexivity.
  - reflexivity.
  - reflexivity.
  - vm_compute. reflexivity.
  - vm_compute. reflexivity.
  - vm_compute. lia.
  - reflexivity.
  - vm_compute. reflexivity.
  - reflexivity.
  - vm_compute. reflexivity.
  - vm_compute. reflexivity.
  - vm_compute. reflexivity.
Defined.

Lemma reschedule_then_confirm_witness :
  let reserved := Scenario.rescheduleAppointment 0 11 7 (Scenario.at_ 90 10 2)
                    Scenario.db2 Scenario.db2 in
  let o := Scenario.confirmReschedule 0 11 10 1 7 (Scenario.at_ 90 10 3) Scenario.redisUp
             (store reserved) (store reserved) in
  appointments (store o) !! 0%nat
  = Some (Appointment.mk 7 1 (Some 10%nat) APPOINTMENT_STATUS.RESCHEDULED None) ∧
  appointments (store o) !! 1%nat
  = Some (Appointment.mk 7 1 (Some 11%nat) APPOINTMENT_STATUS.BOOKED None).
Proof.
  destruct (reschedule_then_confirm Scenario.validateAppointmentReschedule
              Scenario.validateRescheduleConfirm 0 11 10 1 7 (Scenario.at_ 90 10 2)
              (Scenario.at_ 90 10 3) Scenario.redisUp Scenario.db2
              (Appointment.mk 7 1 (Some 10%nat) APPOINTMENT_STATUS.BOOKED None)
              (markBooked (Scenario.freeSlot 1 100 "09:00" "09:30"))
              (Scenario.freeSlot 1 100 "09:30" "10:00"))
    as (_ & _ & H0 & H1 & _).
  - reflexivity.
  - reflexivity.
  - vm_compute. reflexivity.
  - reflexivity.
  - reflexivity.
  - reflexivity.
  - reflexivity.
  - lia.
  - vm_compute. reflexivity.
  - vm_compute. reflexivity.
  - vm_compute. reflexivity.
  - reflexivity.
  - reflexivity.
  - vm_compute. reflexivity.
  - vm_compute. reflexivity.
  - vm_compute. reflexivity.
  - split; [exact H0|exact H1].
Defined.

Lemma cancel_then_lock_witness :
  let cancelled := cancelAppointment 0 7 (Scenario.at_ 90 10 2) Scenario.redisUp
                     Scenario.db2 Scenario.db2 in
  let o := lockTimeSlot 1 10 8 (Scenario.at_ 90 10 3) Scenario.redisUp
             (store cancelled) (store cancelled) in
  response o
  = ok 200 "Slot locked"
      (LockData 10 1 8 (Scenario.at_ 90 10 3) (Scenario.at_ 90 10 3 + 5 * 60 * 1000)).
Proof.
  refine (proj1 (proj2
    (cancel_then_lock 0 7 8 (Scenario.at_ 90 10 2) (Scenario.at_ 90 10 3) Scenario.redisUp
       Scenario.redisUp Scenario.db2
       (Appointment.mk 7 1 (Some 10%nat) APPOINTMENT_STATUS.BOOKED None) 10
       (markBooked (Scenario.freeSlot 1 100 "09:00" "09:30")) _ _ _ _ _ _ _ _))).
  - vm_compute. reflexivity.
  - reflexivity.
  - reflexivity.
  - reflexivity.
  - vm_compute. reflexivity.
  - reflexivity.
  - vm_compute. reflexivity.
  - vm_compute. lia.
Defined.

Lemma sweep_then_lock_witness :
  let swept := releaseExpiredLocks (Scenario.at_ 90 10 6) Scenario.db1 in
  response (lockTimeSlot 1 10 8 (Scenario.at_ 90 10 6) Scenario.redisUp
              Scenario.db1 Scenario.db1)
  = fail 409 "Time slot already locked" None ∧
  response (lockTimeSlot 1 10 8 (Scenario.at_ 90 10 6) Scenario.redisUp swept swept)
  = ok 200 "Slot locked"
      (LockData 10 1 8 (Scenario.at_ 90 10 6) (Scenario.at_ 90 10 6 + 5 * 60 * 1000)).
Proof.
  destruct (sweep_then_lock 10 8 (Scenario.at_ 90 10 6) (Scenario.at_ 90 10 6)
              Scenario.redisUp Scenario.db1
              (lockFor 7 Scenario.t0 (Scenario.freeSlot 1 100 "09:00" "09:30"))
              (Scenario.t0 + 5 * 60 * 1000))
    as (H1 & _ & H2 & _).
  - vm_compute. reflexivity.
  - reflexivity.
  - reflexivity.
  - vm_compute. reflexivity.
  - vm_compute. lia.
  - split; [exact H1|exact H2].
Defined.

(** Eleven to half past twelve on day 100 for doctor 1: three rows. *)
Lemma createTimeSlot_tiles_witness :
  ∃ ids : list nat,
    length ids = 3%nat ∧ NoDup ids ∧
    (∀ i, i ∈ ids → timeSlots Scenario.db0 !! i = None) ∧
    (∀ k i, ids !! k = Some i →
            timeSlots Desk.dbMore !! i
            = Some (TimeSlot.mk 1 (Scenario.day 100) (toTimeString (660 + 30 * Z.of_nat k))
                      (toTimeString (660 + 30 * Z.of_nat k + 30))
                      SLOT_STATUS.AVAILABLE None None None)).
Proof.
  edestruct (createTimeSlot_tiles Desk.validateTimeSlotCreate Desk.parseDate Desk.doctors 1
               "1970-04-11" "11:00" "12:30" Scenario.t0 Scenario.redisUp Scenario.db0
               201 "Time slots created successfully")
    as (s & parsedDate & ids & Hs0 & Hs1 & Hs & He & Hp & _ & Hnd & Hfresh & Hnew & _).
  - apply Desk_validateTimeSlotCreate_times.
  - vm_compute. reflexivity.
  - destruct (toTimeString_pattern s) as [_ Ps]; [lia|].
    destruct (toTimeString_pattern (s + 30 * Z.of_nat (length ids))) as [_ Pe]; [lia|].
    rewrite <- Hs in Ps. rewrite <- He in Pe.
    assert (s = 660) as -> by (vm_compute in Ps; congruence).
    assert (parsedDate = Scenario.day 100) as -> by (vm_compute in Hp |- *; congruence).
    exists ids. split_and!; try done.
    assert (parseToMinutes "12:30" = Some 750) as E by reflexivity.
    rewrite E in Pe. injection Pe as Pe. lia.
Defined.


Lemma createTimeSlot_calendarOk_witness : calendarOk Desk.dbMore.
Proof.
  apply (createTimeSlot_calendarOk Desk.validateTimeSlotCreate Desk.parseDate Desk.doctors 1
           "1970-04-11" "11:00" "12:30" Scenario.t0 Scenario.redisUp Scenario.db0).
  - apply Desk_validateTimeSlotCreate_times.
  - apply Desk_parseDate_midnight.
  - apply calendarOkb_spec. vm_compute. reflexivity.
Defined.

Lemma calendar_frozen_witness :
  slotColumns <$> timeSlots Scenario.db5 !! 10%nat
  = slotColumns <$> timeSlots Scenario.db0 !! 10%nat.
Proof.
  apply (calendar_frozen Scenario.validateAppointment
           Scenario.validateAppointmentStatusUpdate Scenario.validateAppointmentReschedule
           Scenario.validateRescheduleConfirm (fun req => ¬ isStatusUpdate req)
           Scenario.db0 Scenario.db5 scenario_reachable).
Defined.

(** Day 100 for doctor 1, asked on day 90 while user 7 holds slot 10. *)
Lemma getAvailableSlots_offers_witness :
  ∃ rows,
    Desk.getAvailableSlots Desk.doctors 1 (Some "1970-04-11"%string) None None Scenario.t0
      Scenario.db1
    = SlotsListed "Available slots fetched successfully" rows ∧
    (∀ row, row ∈ rows →
            ∃ s, timeSlots Scenario.db1 !! row_slotId row = Some s ∧
                 TimeSlot.status s = SLOT_STATUS.AVAILABLE ∧
                 Scenario.t0 < getUtcDateTime (TimeSlot.date s) (TimeSlot.startTime s)).
Proof.
  eexists. split; [vm_compute; reflexivity|].
  edestruct (getAvailableSlots_offers Desk.validateSlotsFetchQuery Desk.parseDate
               Desk.doctors 1 (Some "1970-04-11"%string) None None Scenario.t0 Scenario.db1)
    as (startDate & endDate & _ & _ & Hrows & _).
  - intros id s Hs.
    pose proof (slots_forall
                  (fun s => TimeFormat.timePattern (TimeSlot.startTime s)
                            && (utcMidnight (TimeSlot.date s) =? TimeSlot.date s))
                  (timeSlots Scenario.db1) eq_refl id s Hs) as H.
    simpl in H. apply andb_true_iff in H as [H1 H2]. by apply Z.eqb_eq in H2.
  - vm_compute. reflexivity.
  - intros row Hrow. apply Hrows in Hrow as (s & Hs & _ & _ & Hst & _ & Hfut). eauto.
Defined.

Lemma offered_slot_locks_witness :
  response (lockTimeSlot 1 11 8 (Scenario.at_ 90 10 2) Scenario.redisUp
              Scenario.db1 Scenario.db1)
  = ok 200 "Slot locked"
      (LockData 11 1 8 (Scenario.at_ 90 10 2) (Scenario.at_ 90 10 2 + 5 * 60 * 1000)).
Proof.
  edestruct (offered_slot_locks Desk.validateSlotsFetchQuery Desk.parseDate
               Desk.doctors 1 (Some "1970-04-11"%string) None None Scenario.t0 Scenario.db1
               "Available slots fetched successfully"
               [mkSlotRow 11 1 (Scenario.day 100) "09:30"%string "10:00"%string
                  SLOT_STATUS.AVAILABLE;
                mkSlotRow 12 1 (Scenario.day 100) "10:00"%string "10:30"%string
                  SLOT_STATUS.AVAILABLE;
                mkSlotRow 13 1 (Scenario.day 100) "10:30"%string "11:00"%string
                  SLOT_STATUS.AVAILABLE]
               (mkSlotRow 11 1 (Scenario.day 100) "09:30"%string "10:00"%string
                  SLOT_STATUS.AVAILABLE)
               8 (Scenario.at_ 90 10 2) Scenario.redisUp) as [H _].
  - intros id s Hs.
    pose proof (slots_forall
                  (fun s => TimeFormat.timePattern (TimeSlot.startTime s)
                            && (utcMidnight (TimeSlot.date s) =? TimeSlot.date s))
                  (timeSlots Scenario.db1) eq_refl id s Hs) as H.
    simpl in H. apply andb_true_iff in H as [H1 H2]. by apply Z.eqb_eq in H2.
  - vm_compute. reflexivity.
  - left.
  - vm_compute. lia.
  - exact H.
Defined.

(** User 7 on the store where appointment 0 is cancelled. *)
Lemma listAppointments_windows_witness :
  ∃ rowsU rowsP,
    listAppointments 7 "" "upcoming" (Scenario.at_ 90 10 6) Desk.cacheMiss Scenario.db5
    = ListFetched "Appointments fetched successfully" rowsU ∧
    listAppointments 7 "" "past" (Scenario.at_ 90 10 6) Desk.cacheMiss Scenario.db5
    = ListFetched "Appointments fetched successfully" rowsP ∧
    (∀ r, r ∈ rowsU → r ∉ rowsP).
Proof.
  destruct (listAppointments_windows 7 "" (Scenario.at_ 90 10 6) Desk.cacheMiss Scenario.db5
              eq_refl (fun _ => eq_refl) (fun _ => eq_refl))
    as (rowsU & rowsP & rowsA & HU & HP & _ & _ & _ & _ & Hdisj & _).
  exists rowsU, rowsP. split; [exact HU|]. split; [exact HP|exact Hdisj].
Defined.

(** User 8, who holds the booking on slot 10, asks for the [BOOKED]
    appointments at noon of the day of the slot, when it has started; then
    with the entry of an earlier request under [type=upcoming]. *)
Lemma listAppointments_status_filter_witness :
  (∃ rows,
     listAppointments 8 "BOOKED" "all" (Scenario.at_ 100 12 0) Desk.cacheMiss Scenario.db5
     = ListFetched "Appointments fetched successfully" rows ∧
     listAppointments 8 "BOOKED" "upcoming" (Scenario.at_ 100 12 0) Desk.cacheMiss
       Scenario.db5
     = ListFetched "Appointments fetched successfully" rows ∧
     appointmentRow (timeSlots Scenario.db5)
       (1%nat, Appointment.mk 8 1 (Some 10%nat) APPOINTMENT_STATUS.BOOKED None) ∈ rows)
  ∧ listAppointments 8 "BOOKED" "upcoming" (Scenario.at_ 100 12 0) Desk.cacheAsked
      Scenario.db5
    = ListFetched "Appointments fetched from cache" [].
Proof.
  split.
  - destruct (proj1 (listAppointments_status_filter 8 "BOOKED" APPOINTMENT_STATUS.BOOKED
                       (Scenario.at_ 100 12 0) Desk.cacheMiss Scenario.db5 eq_refl)
                (fun _ => eq_refl) (fun _ => eq_refl))
      as (rows & HA & HU & Hrows & _).
    exists rows. split; [exact HA|]. split; [exact HU|].
    apply Hrows. exists 1%nat, (Appointment.mk 8 1 (Some 10%nat) APPOINTMENT_STATUS.BOOKED None).
    split; [vm_compute; reflexivity|]. split; [reflexivity|]. split; reflexivity.
  - exact (proj2 (listAppointments_status_filter 8 "BOOKED" APPOINTMENT_STATUS.BOOKED
                    (Scenario.at_ 100 12 0) Desk.cacheAsked Scenario.db5 eq_refl)
             "upcoming"%string [] eq_refl).
Defined.

Lemma scenario_reachable_from_booking :
  Scenario.reachable (fun req => ¬ isStatusUpdate req) Scenario.db2 Scenario.db5.
Proof.
  apply (reachable_serve _ _ _ _ _ _ (ConfirmBooking 1 10 None 8) (Scenario.at_ 90 10 4)
           Scenario.redisUp Scenario.db4); [|by intros []].
  apply (reachable_serve _ _ _ _ _ _ (LockTimeSlot 1 10 8) (Scenario.at_ 90 10 3)
           Scenario.redisUp Scenario.db3); [|by intros []].
  apply (reachable_serve _ _ _ _ _ _ (CancelAppointment 0 7) (Scenario.at_ 90 10 2)
           Scenario.redisUp Scenario.db2); [|by intros []].
  apply reachable_init.
Qed.

Lemma appointment_identity_kept_witness :
  ∃ a, appointments Scenario.db5 !! 0%nat = Some a ∧
       Appointment.userId a = 7%nat ∧ Appointment.doctorId a = 1%nat ∧
       Appointment.notes a = None.
Proof.
  apply (appointment_identity_kept Scenario.validateAppointment
           Scenario.validateAppointmentStatusUpdate Scenario.validateAppointmentReschedule
           Scenario.validateRescheduleConfirm (fun req => ¬ isStatusUpdate req)
           Scenario.db2 Scenario.db5 0%nat
           (Appointment.mk 7 1 (Some 10%nat) APPOINTMENT_STATUS.BOOKED None)
           scenario_reachable_from_booking).
  vm_compute. reflexivity.
Defined.

Lemma otp_window_never_opened_witness :
  users Scenario.db5 !! 7%nat = users Scenario.db0 !! 7%nat
  ∨ (is_Some (users Scenario.db0 !! 7%nat) ∧ users Scenario.db5 !! 7%nat = Some (User.mk None)).
Proof.
  apply (otp_window_never_opened Scenario.validateAppointment
           Scenario.validateAppointmentStatusUpdate Scenario.validateAppointmentReschedule
           Scenario.validateRescheduleConfirm (fun req => ¬ isStatusUpdate req)
           Scenario.db0 Scenario.db5 7%nat scenario_reachable).
Defined.

(** Slot 10 after the late cancellation: still [BOOKED] once user 8 has asked
    for it. *)
Lemma orphaned_slot_stays_booked_witness :
  timeSlots Desk.dbAsked !! 10%nat
  = Some (markBooked (Scenario.freeSlot 1 100 "09:00" "09:30")) ∧
  existsb (bookedOn 10) (appointments Desk.dbAsked) = false.
Proof.
  apply (orphaned_slot_stays_booked Scenario.validateAppointment
           Scenario.validateAppointmentStatusUpdate Scenario.validateAppointmentReschedule
           Scenario.validateRescheduleConfirm Desk.dbLate Desk.dbAsked 10%nat
           (markBooked (Scenario.freeSlot 1 100 "09:00" "09:30"))).
  - apply (reachable_serve _ _ _ _ _ _ (LockTimeSlot 1 10 8) (Scenario.at_ 99 10 1)
             Scenario.redisUp Desk.dbLate); [apply reachable_init|by intros []].
  - vm_compute. reflexivity.
  - reflexivity.
  - reflexivity.
  - reflexivity.
  - vm_compute. reflexivity.
Defined.
